(** * Water: multi-pass water rendering (shaders and frame orchestration)

    A shallow embedding of the water demo: the HLSL water shaders
    (WaterSurface_vs, RefractedPixelLighting_ps, Common.hlsli), the host-side
    constant blocks (Common.h) and Scene.cpp: the frame code (SelectCamera,
    RenderLitModels, RenderOtherModels, RenderSceneFromCamera, RenderScene),
    UpdateScene, and the set-up and release of the scene (InitGeometry,
    InitScene, ReleaseResources).

    Numbers are IEEE-754 binary32 values ([spec_float] at precision 24 and
    maximal exponent 128), so every [float] operation of the sources rounds
    the way single precision does.  The shaders are embedded with the same
    operations; a shader unit also flushes denormal numbers to zero (module
    [Direct3D]), and a theorem whose outcome depends on that says so.
    Stateful host code is written in a small state monad over the globals
    of Scene.cpp, and every Direct3D call is logged as a command so that
    the order of the passes can be examined.

    What is not in the sources at hand is kept abstract: a texture with its
    sampler is a function from UV coordinates to texels, the lighting function
    of PixelLighting_ps.hlsl and the view and projection matrices of a camera
    are parameters, and [Model::Render] is one logged call that changes no
    binding of the device context.  The keyboard control of the camera, the
    functions of <cmath> and the outcome of every call that creates or loads
    an object are parameters as well. *)

From Stdlib Require Import ZArith Lia List Bool String Ascii.
From Stdlib Require Import Floats.SpecFloat.
Import ListNotations.
Local Open Scope Z_scope.

(** Records are C structs: an object is the tuple of its fields. *)
Set Primitive Projections.

(* ===================================================================== *)
(** ** Single-precision floats *)
(* ===================================================================== *)

Module F32.

Definition prec : Z := 24.
Definition emax : Z := 128.
(** Exponent of the subnormal numbers: [-149]. *)
Definition emin : Z := 3 - emax - prec.

Definition float : Type := spec_float.

(** A well-formed binary32 datum: canonical mantissa, exponent in range. *)
Definition valid (x : float) : bool := valid_binary prec emax x.

Definition is_nan (x : float) : bool :=
  match x with S754_nan => true | _ => false end.

(** Zero or a (sub)normal number: neither an infinity nor a NaN. *)
Definition is_finite (x : float) : bool :=
  match x with
  | S754_zero _ | S754_finite _ _ _ => true
  | _ => false
  end.

Definition add : float -> float -> float := SFadd prec emax.
Definition sub : float -> float -> float := SFsub prec emax.
Definition mul : float -> float -> float := SFmul prec emax.
Definition div : float -> float -> float := SFdiv prec emax.
Definition sqrt : float -> float := SFsqrt prec emax.
Definition opp : float -> float := SFopp.

Definition ltb : float -> float -> bool := SFltb.
Definition leb : float -> float -> bool := SFleb.
Definition eqb : float -> float -> bool := SFeqb.

(** Conversion of an integer (an [int] literal or value used as [float]). *)
Definition of_Z (z : Z) : float := binary_normalize prec emax z 0 false.

(** A decimal literal [num/den] with [den] a power of ten, for instance
    [1.7f] as [lit 17 10]: the binary32 number nearest to the quotient. *)
Definition lit (num den : Z) : float := div (of_Z num) (of_Z den).

Definition zero : float := of_Z 0.
Definition one : float := of_Z 1.

End F32.

Abbreviation float := F32.float.

Declare Scope f32_scope.
Delimit Scope f32_scope with f32.
Bind Scope f32_scope with F32.float.
Infix "+" := F32.add : f32_scope.
Infix "-" := F32.sub : f32_scope.
Infix "*" := F32.mul : f32_scope.
Infix "/" := F32.div : f32_scope.
Infix "<?" := F32.ltb : f32_scope.
Infix "<=?" := F32.leb : f32_scope.

(* ===================================================================== *)
(** ** Vector types shared by HLSL (float2/3/4) and C++ (CVector2/3) *)
(* ===================================================================== *)

Record float2 : Type := Float2 { x2 : float; y2 : float }.
Record float3 : Type := Float3 { x3 : float; y3 : float; z3 : float }.
Record float4 : Type :=
  Float4 { x4 : float; y4 : float; z4 : float; w4 : float }.

Definition CVector2 : Type := float2.
Definition CVector3 : Type := float3.

(** Row-major 4x4 matrix, [eRC] is row R, column C (CMatrix4x4 / float4x4). *)
Record CMatrix4x4 : Type := Matrix4x4 {
  e00 : float; e01 : float; e02 : float; e03 : float;
  e10 : float; e11 : float; e12 : float; e13 : float;
  e20 : float; e21 : float; e22 : float; e23 : float;
  e30 : float; e31 : float; e32 : float; e33 : float
}.

Module Vec.
Local Open Scope f32_scope.

Definition add2 (a b : float2) : float2 :=
  Float2 (x2 a + x2 b) (y2 a + y2 b).
(** [v * s] with a scalar on the right. *)
Definition scale2r (v : float2) (s : float) : float2 :=
  Float2 (x2 v * s) (y2 v * s).
(** [s * v] with a scalar on the left. *)
Definition scale2l (s : float) (v : float2) : float2 :=
  Float2 (s * x2 v) (s * y2 v).
Definition div2 (a b : float2) : float2 :=
  Float2 (x2 a / x2 b) (y2 a / y2 b).

Definition add3 (a b : float3) : float3 :=
  Float3 (x3 a + x3 b) (y3 a + y3 b) (z3 a + z3 b).
Definition sub3 (a b : float3) : float3 :=
  Float3 (x3 a - x3 b) (y3 a - y3 b) (z3 a - z3 b).
Definition mul3 (a b : float3) : float3 :=
  Float3 (x3 a * x3 b) (y3 a * y3 b) (z3 a * z3 b).
Definition scale3r (v : float3) (s : float) : float3 :=
  Float3 (x3 v * s) (y3 v * s) (z3 v * s).
(** [s / v]: the scalar is broadcast over the components. *)
Definition sdiv3 (s : float) (v : float3) : float3 :=
  Float3 (s / x3 v) (s / y3 v) (s / z3 v).
Definition div3s (v : float3) (s : float) : float3 :=
  Float3 (x3 v / s) (y3 v / s) (z3 v / s).
Definition dot3 (a b : float3) : float :=
  x3 a * x3 b + y3 a * y3 b + z3 a * z3 b.
(** Every component of [a] is at most that of [b]. *)
Definition leb3 (a b : float3) : bool :=
  (x3 a <=? x3 b) && (y3 a <=? y3 b) && (z3 a <=? z3 b).

(** [mul(M, v)]: the vector is a column, component [i] is row [i] dot [v]. *)
Definition mulMv (m : CMatrix4x4) (v : float4) : float4 :=
  Float4
    (e00 m * x4 v + e01 m * y4 v + e02 m * z4 v + e03 m * w4 v)
    (e10 m * x4 v + e11 m * y4 v + e12 m * z4 v + e13 m * w4 v)
    (e20 m * x4 v + e21 m * y4 v + e22 m * z4 v + e23 m * w4 v)
    (e30 m * x4 v + e31 m * y4 v + e32 m * z4 v + e33 m * w4 v).
End Vec.

(* ===================================================================== *)
(** ** HLSL intrinsics used by the water shaders *)
(* ===================================================================== *)

Module Hlsl.
Local Open Scope f32_scope.

(** [max]/[min] return the other operand when one of them is a NaN. *)
Definition max (a b : float) : float :=
  if F32.is_nan a then b else if F32.is_nan b then a
  else if a <? b then b else a.
Definition min (a b : float) : float :=
  if F32.is_nan a then b else if F32.is_nan b then a
  else if b <? a then b else a.

(** [saturate(x)]: clamp to the range 0..1 (a NaN gives 0). *)
Definition saturate (v : float) : float := min (max v F32.zero) F32.one.

Definition saturate3 (v : float3) : float3 :=
  Float3 (saturate (x3 v)) (saturate (y3 v)) (saturate (z3 v)).

(** [lerp(a, b, s) = a + s * (b - a)], per component. *)
Definition lerp3 (a b s : float3) : float3 :=
  Vec.add3 a (Vec.mul3 s (Vec.sub3 b a)).

(** [normalize(v) = v / length(v)]. *)
Definition normalize (v : float3) : float3 :=
  Vec.div3s v (F32.sqrt (Vec.dot3 v v)).

(** [clip(x)] discards the pixel when [x] is less than zero. *)
Definition clip (v : float) : bool := v <? F32.zero.
End Hlsl.

(* ===================================================================== *)
(** ** Direct3D 11: denormal numbers in shader arithmetic *)
(* ===================================================================== *)

(** A shader unit under the Direct3D 11 rules for single precision flushes
    a denormal number to the zero of its sign, on the way into and on the
    way out of every arithmetic operation; the processor of the host keeps
    denormal numbers. *)
Module Direct3D.

(** A number that is not zero and is smaller in magnitude than 2^-126, the
    smallest normal number. *)
Definition denormal (x : float) : bool :=
  match x with
  | S754_finite _ m e => Z.pos (digits2_pos m) + e <=? -126
  | _ => false
  end.

Definition flush (x : float) : float :=
  match x with
  | S754_finite s _ _ => if denormal x then S754_zero s else x
  | _ => x
  end.

(** [a - b], [a + b] and [a * b] in a shader. *)
Definition sub (a b : float) : float := flush (F32.sub (flush a) (flush b)).
Definition add (a b : float) : float := flush (F32.add (flush a) (flush b)).
Definition mul (a b : float) : float := flush (F32.mul (flush a) (flush b)).

End Direct3D.

(* ===================================================================== *)
(** ** Common.hlsli: water constants, shader inputs, constant buffers *)
(* ===================================================================== *)

Module CommonHlsli.

Definition RefractionDistortion : float := F32.of_Z 20.
Definition ReflectionDistortion : float := F32.of_Z 16.
Definition MaxDistortionDistance : float := F32.of_Z 40.
Definition SpecularStrength : float := F32.of_Z 2.
Definition RefractionStrength : float := F32.lit 8 10.
Definition ReflectionStrength : float := F32.lit 85 100.
Definition WaterRefractiveIndex : float := F32.lit 15 10.
Definition WaterExtinction : float3 :=
  Float3 (F32.of_Z 9) (F32.of_Z 7) (F32.of_Z 3).
Definition WaterDiffuseLevel : float := F32.lit 5 10.

Definition WaterSize1 : float := F32.lit 5 10.
Definition WaterSize2 : float := F32.of_Z 1.
Definition WaterSize3 : float := F32.of_Z 2.
Definition WaterSize4 : float := F32.of_Z 4.

Definition WaterSpeed1 : float := F32.lit 5 10.
Definition WaterSpeed2 : float := F32.of_Z 1.
Definition WaterSpeed3 : float := F32.lit 17 10.
Definition WaterSpeed4 : float := F32.lit 26 10.

Definition HeightMapHeightOverWidth : float :=
  F32.div (F32.of_Z 1) (F32.of_Z 32).
Definition WaterWidth : float := F32.of_Z 400.
Definition MaxWaveHeight : float :=
  F32.mul WaterWidth HeightMapHeightOverWidth.

Record BasicVertex : Type := {
  position : float3;
  normal : float3;
  uv : float2
}.

Record LightingPixelShaderInput : Type := {
  l_projectedPosition : float4;
  l_worldPosition : float3;
  l_worldNormal : float3;
  l_uv : float2
}.

Record WorldPositionPixelShaderInput : Type := {
  w_projectedPosition : float4;
  w_worldPosition : float3;
  w_uv : float2
}.

(** cbuffer PerFrameConstants : register(b0) *)
Record PerFrameConstants : Type := {
  gCameraMatrix : CMatrix4x4;
  gViewMatrix : CMatrix4x4;
  gProjectionMatrix : CMatrix4x4;
  gViewProjectionMatrix : CMatrix4x4;
  gLight1Position : float3;
  gViewportWidth : float;
  gLight1Colour : float3;
  gViewportHeight : float;
  gLight2Position : float3;
  padding1 : float;
  gLight2Colour : float3;
  padding2 : float;
  gAmbientColour : float3;
  gSpecularPower : float;
  gCameraPosition : float3;
  padding3 : float;
  gWaterPlaneY : float;
  gWaveScale : float;
  gWaterMovement : float2
}.

End CommonHlsli.

(** A bound texture together with its sampler: the texel a lookup at a UV
    coordinate returns.  Filtering and addressing belong to the sampler
    objects created on the host and are not part of the shader text. *)
Definition Texture2D : Type := float2 -> float4.

(* ===================================================================== *)
(** ** WaterSurface_vs.hlsl *)
(* ===================================================================== *)

Module WaterSurface_vs.
Import CommonHlsli.
Local Open Scope f32_scope.

Section Shader.
(** [NormalHeightMap.SampleLevel(StandardFilter, uv, 0)], register t1. *)
Variable NormalHeightMap : Texture2D.
Variable cb : PerFrameConstants.
Variable gWorldMatrix : CMatrix4x4.

(** The part of [main] up to and including the change of
    [modelPosition.y]. *)
Definition displacedModelPosition (input : BasicVertex) : float4 :=
  let modelPosition :=
    Float4 (x3 (position input)) (y3 (position input))
           (z3 (position input)) F32.one in
  let waterUV := uv input in
  let normal1 := w4 (NormalHeightMap (Vec.scale2l WaterSize1
    (Vec.add2 waterUV (Vec.scale2r (gWaterMovement cb) WaterSpeed1)))) in
  let normal2 := w4 (NormalHeightMap (Vec.scale2l WaterSize2
    (Vec.add2 waterUV (Vec.scale2r (gWaterMovement cb) WaterSpeed2)))) in
  let normal3 := w4 (NormalHeightMap (Vec.scale2l WaterSize3
    (Vec.add2 waterUV (Vec.scale2r (gWaterMovement cb) WaterSpeed3)))) in
  let normal4 := w4 (NormalHeightMap (Vec.scale2l WaterSize4
    (Vec.add2 waterUV (Vec.scale2r (gWaterMovement cb) WaterSpeed4)))) in
  let height := normal1 + normal2 + normal3 + normal4 in
  Float4 (x4 modelPosition)
         (y4 modelPosition
          + (F32.lit 25 100 * height - F32.lit 5 10)
            * MaxWaveHeight * gWaveScale cb)
         (z4 modelPosition) (w4 modelPosition).

(** The height term of [main]: the factor of [gWaveScale] in the change of
    [modelPosition.y], that is the four sampled heights added, averaged,
    centred on zero and scaled to world units. *)
Definition heightTerm (input : BasicVertex) : float :=
  let waterUV := uv input in
  let normal1 := w4 (NormalHeightMap (Vec.scale2l WaterSize1
    (Vec.add2 waterUV (Vec.scale2r (gWaterMovement cb) WaterSpeed1)))) in
  let normal2 := w4 (NormalHeightMap (Vec.scale2l WaterSize2
    (Vec.add2 waterUV (Vec.scale2r (gWaterMovement cb) WaterSpeed2)))) in
  let normal3 := w4 (NormalHeightMap (Vec.scale2l WaterSize3
    (Vec.add2 waterUV (Vec.scale2r (gWaterMovement cb) WaterSpeed3)))) in
  let normal4 := w4 (NormalHeightMap (Vec.scale2l WaterSize4
    (Vec.add2 waterUV (Vec.scale2r (gWaterMovement cb) WaterSpeed4)))) in
  let height := normal1 + normal2 + normal3 + normal4 in
  (F32.lit 25 100 * height - F32.lit 5 10) * MaxWaveHeight.

Definition main (input : BasicVertex) : WorldPositionPixelShaderInput :=
  let modelPosition := displacedModelPosition input in
  let worldPosition := Vec.mulMv gWorldMatrix modelPosition in
  let viewPosition := Vec.mulMv (gViewMatrix cb) worldPosition in
  {| w_projectedPosition := Vec.mulMv (gProjectionMatrix cb) viewPosition;
     w_worldPosition :=
       Float3 (x4 worldPosition) (y4 worldPosition) (z4 worldPosition);
     w_uv := uv input |}.
End Shader.
End WaterSurface_vs.

(* ===================================================================== *)
(** ** The wave height field as the specification words it *)
(* ===================================================================== *)

Module WaveHeightField.
Local Open Scope f32_scope.

(** One octave: a spatial scale paired with a UV scroll speed. *)
Record Octave : Type := { scale : float; speed : float }.

Definition octaves : list Octave :=
  [ {| scale := F32.lit 5 10; speed := F32.lit 5 10 |};
    {| scale := F32.of_Z 1;   speed := F32.of_Z 1 |};
    {| scale := F32.of_Z 2;   speed := F32.lit 17 10 |};
    {| scale := F32.of_Z 4;   speed := F32.lit 26 10 |} ].

(** Surface width times the height-to-width ratio of the source map. *)
Definition maxWaveHeight : float :=
  F32.of_Z 400 * (F32.of_Z 1 / F32.of_Z 32).

Section Field.
Variable heightNormalTexture : Texture2D.

(** Height (alpha channel) of one octave at a UV coordinate. *)
Definition octaveHeight (uv movementOffset : float2) (o : Octave)
  : float :=
  w4 (heightNormalTexture (Vec.scale2l (scale o)
        (Vec.add2 uv (Vec.scale2r movementOffset (speed o))))).

(** Sum of the samples, taken in the order of the octaves. *)
Definition sumHeights (hs : list float) : float :=
  match hs with
  | [] => F32.zero
  | h :: rest => fold_left F32.add rest h
  end.

Definition yOffset (uv movementOffset : float2) (waveScale : float)
  : float :=
  let sum := sumHeights (map (octaveHeight uv movementOffset) octaves) in
  (F32.lit 25 100 * sum - F32.lit 5 10) * maxWaveHeight * waveScale.
End Field.
End WaveHeightField.

(* ===================================================================== *)
(** ** RefractedPixelLighting_ps.hlsl *)
(* ===================================================================== *)

Module RefractedPixelLighting_ps.
Import CommonHlsli.
Local Open Scope f32_scope.

Section Shader.
(** [WaterHeightMap.Sample(BilinearMirror, uv)], register t2. *)
Variable WaterHeightMap : Texture2D.
Variable cb : PerFrameConstants.
(** [PixelLighting] of the included PixelLighting_ps.hlsl. *)
Variable PixelLighting : LightingPixelShaderInput -> float4.

Definition objectDepth (input : LightingPixelShaderInput) : float :=
  let screenUV :=
    Vec.div2 (Float2 (x4 (l_projectedPosition input))
                     (y4 (l_projectedPosition input)))
             (Float2 (gViewportWidth cb) (gViewportHeight cb)) in
  let waterHeight := x4 (WaterHeightMap screenUV) in
  waterHeight - y3 (l_worldPosition input).

(** [saturate(objectDepth / WaterExtinction)]. *)
Definition depthDarken (depth : float) : float3 :=
  Hlsl.saturate3 (Vec.sdiv3 depth WaterExtinction).

(** The colour written to the target, or [None] for a discarded pixel. *)
Definition main (input : LightingPixelShaderInput) : option float4 :=
  let depth := objectDepth input in
  if Hlsl.clip depth then None
  else
    let sceneColour :=
      Float3 (x4 (PixelLighting input)) (y4 (PixelLighting input))
             (z4 (PixelLighting input)) in
    let darken := depthDarken depth in
    let refractionColour :=
      Hlsl.lerp3 sceneColour
        (Vec.scale3r (Hlsl.normalize WaterExtinction) WaterDiffuseLevel)
        darken in
    Some (Float4 (x3 refractionColour) (y3 refractionColour)
                 (z3 refractionColour)
                 (Hlsl.saturate (depth / MaxDistortionDistance))).
End Shader.
End RefractedPixelLighting_ps.

(* ===================================================================== *)
(** ** Common.h: the host-side constant block *)
(* ===================================================================== *)

Module CommonH.

(** struct PerFrameConstants *)
Record PerFrameConstants : Type := {
  cameraMatrix : CMatrix4x4;
  viewMatrix : CMatrix4x4;
  projectionMatrix : CMatrix4x4;
  viewProjectionMatrix : CMatrix4x4;
  light1Position : CVector3;
  viewportWidth : float;
  light1Colour : CVector3;
  viewportHeight : float;
  light2Position : CVector3;
  padding1 : float;
  light2Colour : CVector3;
  padding2 : float;
  ambientColour : CVector3;
  specularPower : float;
  cameraPosition : CVector3;
  padding3 : float;
  waterPlaneY : float;
  waveScale : float;
  waterMovement : CVector2
}.

Definition set_cameraMatrices (c : PerFrameConstants)
    (cam view proj viewProj : CMatrix4x4) : PerFrameConstants :=
  {| cameraMatrix := cam; viewMatrix := view; projectionMatrix := proj;
     viewProjectionMatrix := viewProj;
     light1Position := light1Position c; viewportWidth := viewportWidth c;
     light1Colour := light1Colour c; viewportHeight := viewportHeight c;
     light2Position := light2Position c; padding1 := padding1 c;
     light2Colour := light2Colour c; padding2 := padding2 c;
     ambientColour := ambientColour c; specularPower := specularPower c;
     cameraPosition := cameraPosition c; padding3 := padding3 c;
     waterPlaneY := waterPlaneY c; waveScale := waveScale c;
     waterMovement := waterMovement c |}.

Definition set_water (c : PerFrameConstants)
    (planeY scale : float) (movement : CVector2) : PerFrameConstants :=
  {| cameraMatrix := cameraMatrix c; viewMatrix := viewMatrix c;
     projectionMatrix := projectionMatrix c;
     viewProjectionMatrix := viewProjectionMatrix c;
     light1Position := light1Position c; viewportWidth := viewportWidth c;
     light1Colour := light1Colour c; viewportHeight := viewportHeight c;
     light2Position := light2Position c; padding1 := padding1 c;
     light2Colour := light2Colour c; padding2 := padding2 c;
     ambientColour := ambientColour c; specularPower := specularPower c;
     cameraPosition := cameraPosition c; padding3 := padding3 c;
     waterPlaneY := planeY; waveScale := scale;
     waterMovement := movement |}.

End CommonH.

(* ===================================================================== *)
(** ** Constant-buffer layout on both sides *)
(* ===================================================================== *)

Module Layout.

Inductive FieldType : Type := TFloat | TFloat2 | TFloat3 | TMatrix4x4.

(** Size of a field in 32-bit words. *)
Definition words (t : FieldType) : nat :=
  match t with
  | TFloat => 1 | TFloat2 => 2 | TFloat3 => 3 | TMatrix4x4 => 16
  end%nat.

Definition FieldType_eqb (a b : FieldType) : bool :=
  match a, b with
  | TFloat, TFloat | TFloat2, TFloat2 | TFloat3, TFloat3
  | TMatrix4x4, TMatrix4x4 => true
  | _, _ => false
  end.

Definition Field : Type := (string * FieldType)%type.

(** The members of [struct PerFrameConstants] (Common.h), in order. *)
Definition cppPerFrameConstants : list Field :=
  [ ("cameraMatrix", TMatrix4x4); ("viewMatrix", TMatrix4x4);
    ("projectionMatrix", TMatrix4x4); ("viewProjectionMatrix", TMatrix4x4);
    ("light1Position", TFloat3); ("viewportWidth", TFloat);
    ("light1Colour", TFloat3); ("viewportHeight", TFloat);
    ("light2Position", TFloat3); ("padding1", TFloat);
    ("light2Colour", TFloat3); ("padding2", TFloat);
    ("ambientColour", TFloat3); ("specularPower", TFloat);
    ("cameraPosition", TFloat3); ("padding3", TFloat);
    ("waterPlaneY", TFloat); ("waveScale", TFloat);
    ("waterMovement", TFloat2) ]%string.

(** The variables of [cbuffer PerFrameConstants] (Common.hlsli), in order. *)
Definition hlslPerFrameConstants : list Field :=
  [ ("gCameraMatrix", TMatrix4x4); ("gViewMatrix", TMatrix4x4);
    ("gProjectionMatrix", TMatrix4x4); ("gViewProjectionMatrix", TMatrix4x4);
    ("gLight1Position", TFloat3); ("gViewportWidth", TFloat);
    ("gLight1Colour", TFloat3); ("gViewportHeight", TFloat);
    ("gLight2Position", TFloat3); ("padding1", TFloat);
    ("gLight2Colour", TFloat3); ("padding2", TFloat);
    ("gAmbientColour", TFloat3); ("gSpecularPower", TFloat);
    ("gCameraPosition", TFloat3); ("padding3", TFloat);
    ("gWaterPlaneY", TFloat); ("gWaveScale", TFloat);
    ("gWaterMovement", TFloat2) ]%string.

Definition upper (c : ascii) : ascii :=
  let n := nat_of_ascii c in
  if andb (Nat.leb 97 n) (Nat.leb n 122) then ascii_of_nat (n - 32) else c.

(** The shader-side name of a host member: the padding members keep their
    name, the others get the prefix [g] and a capital. *)
Definition hlslName (cppName : string) : string :=
  if String.prefix "padding" cppName then cppName
  else match cppName with
       | EmptyString => EmptyString
       | String c rest => String "g" (String (upper c) rest)
       end.

(** C++: every member is made of [float]s (alignment 4), so members follow
    one another without gaps. *)
Fixpoint cppOffsets (at_ : nat) (fs : list FieldType) : list nat :=
  match fs with
  | [] => []
  | t :: rest => at_ :: cppOffsets (at_ + words t) rest
  end.

(** HLSL packing: a variable starts at the next free word unless it would
    straddle a 16-byte register (4 words), in which case it starts at the
    next register; a matrix always starts a register. *)
Definition hlslPlace (at_ : nat) (t : FieldType) : nat :=
  let room := (4 - Nat.modulo at_ 4)%nat in
  match t with
  | TMatrix4x4 =>
      if Nat.eqb (Nat.modulo at_ 4) 0 then at_ else (at_ + room)%nat
  | _ => if Nat.leb (words t) room then at_ else (at_ + room)%nat
  end.

Fixpoint hlslOffsets (at_ : nat) (fs : list FieldType) : list nat :=
  match fs with
  | [] => []
  | t :: rest =>
      let o := hlslPlace at_ t in
      o :: hlslOffsets (o + words t) rest
  end.

(** A field value, and the words it occupies. *)
Inductive Value : Type :=
| VFloat (v : float)
| VFloat2 (v : float2)
| VFloat3 (v : float3)
| VMatrix (v : CMatrix4x4).

Definition typeOf (v : Value) : FieldType :=
  match v with
  | VFloat _ => TFloat | VFloat2 _ => TFloat2
  | VFloat3 _ => TFloat3 | VMatrix _ => TMatrix4x4
  end.

Definition flatten (v : Value) : list float :=
  match v with
  | VFloat a => [a]
  | VFloat2 a => [x2 a; y2 a]
  | VFloat3 a => [x3 a; y3 a; z3 a]
  | VMatrix m =>
      [ e00 m; e01 m; e02 m; e03 m; e10 m; e11 m; e12 m; e13 m;
        e20 m; e21 m; e22 m; e23 m; e30 m; e31 m; e32 m; e33 m ]
  end.

(** Memory of a constant buffer: an array of 32-bit words. *)
Definition Memory : Type := list float.

Fixpoint store (mem : Memory) (at_ : nat) (ws : list float) : Memory :=
  match ws with
  | [] => mem
  | w :: rest =>
      store (firstn at_ mem ++ w :: skipn (S at_) mem) (S at_) rest
  end.

Definition load (mem : Memory) (at_ : nat) : option float :=
  nth_error mem at_.

(** The words of the buffer that a variable of type [t] at word [at_]
    occupies. *)
Definition fieldWords (mem : Memory) (at_ : nat) (t : FieldType)
  : list float :=
  firstn (words t) (skipn at_ mem).

(** Rows and columns exchanged. *)
Definition transpose (m : CMatrix4x4) : CMatrix4x4 :=
  Matrix4x4 (e00 m) (e10 m) (e20 m) (e30 m)
            (e01 m) (e11 m) (e21 m) (e31 m)
            (e02 m) (e12 m) (e22 m) (e32 m)
            (e03 m) (e13 m) (e23 m) (e33 m).

(** A host value as a shader names it when it reads the words the host
    wrote: a scalar or a vector is the same value, a matrix has its rows and
    columns exchanged. *)
Definition shaderView (v : Value) : Value :=
  match v with
  | VMatrix m => VMatrix (transpose m)
  | _ => v
  end.

(** What a shader reads in a variable of type [t] at word [at_].  The
    cbuffers declare their matrices as plain [float4x4], which HLSL packs
    column-major: each of the four registers of a matrix holds one column,
    so word [4 * c + r] is the element in row [r] and column [c]. *)
Definition loadValue (mem : Memory) (at_ : nat) (t : FieldType)
  : option Value :=
  match t with
  | TFloat =>
      match load mem at_ with Some a => Some (VFloat a) | None => None end
  | TFloat2 =>
      match load mem at_, load mem (at_ + 1) with
      | Some a, Some b => Some (VFloat2 (Float2 a b))
      | _, _ => None
      end
  | TFloat3 =>
      match load mem at_, load mem (at_ + 1), load mem (at_ + 2) with
      | Some a, Some b, Some c => Some (VFloat3 (Float3 a b c))
      | _, _, _ => None
      end
  | TMatrix4x4 =>
      match firstn 16 (skipn at_ mem) with
      | [a0; a1; a2; a3; b0; b1; b2; b3; c0; c1; c2; c3; d0; d1; d2; d3] =>
          Some (VMatrix (Matrix4x4 a0 b0 c0 d0 a1 b1 c1 d1
                                   a2 b2 c2 d2 a3 b3 c3 d3))
      | _ => None
      end
  end.

(** The host object as the sequence of its members. *)
Definition cppMembers (c : CommonH.PerFrameConstants) : list Value :=
  [ VMatrix (CommonH.cameraMatrix c); VMatrix (CommonH.viewMatrix c);
    VMatrix (CommonH.projectionMatrix c);
    VMatrix (CommonH.viewProjectionMatrix c);
    VFloat3 (CommonH.light1Position c); VFloat (CommonH.viewportWidth c);
    VFloat3 (CommonH.light1Colour c); VFloat (CommonH.viewportHeight c);
    VFloat3 (CommonH.light2Position c); VFloat (CommonH.padding1 c);
    VFloat3 (CommonH.light2Colour c); VFloat (CommonH.padding2 c);
    VFloat3 (CommonH.ambientColour c); VFloat (CommonH.specularPower c);
    VFloat3 (CommonH.cameraPosition c); VFloat (CommonH.padding3 c);
    VFloat (CommonH.waterPlaneY c); VFloat (CommonH.waveScale c);
    VFloat2 (CommonH.waterMovement c) ].

(** Size of the host object in words ([sizeof(gPerFrameConstants) / 4]). *)
Definition cppSize : nat :=
  fold_left (fun n t => (n + words t)%nat)
            (map snd cppPerFrameConstants) 0%nat.

Fixpoint storeAll (mem : Memory) (offs : list nat) (vs : list Value)
  : Memory :=
  match offs, vs with
  | o :: offs', v :: vs' => storeAll (store mem o (flatten v)) offs' vs'
  | _, _ => mem
  end.

(** [UpdateConstantBuffer]: the bytes of the host object, as laid out by
    the C++ compiler, are copied to the buffer. *)
Definition encode (c : CommonH.PerFrameConstants) : Memory :=
  storeAll (repeat F32.zero cppSize)
           (cppOffsets 0 (map snd cppPerFrameConstants)) (cppMembers c).

Fixpoint loadAll (mem : Memory) (offs : list nat) (ts : list FieldType)
  : option (list Value) :=
  match offs, ts with
  | o :: offs', t :: ts' =>
      match loadValue mem o t, loadAll mem offs' ts' with
      | Some v, Some vs => Some (v :: vs)
      | _, _ => None
      end
  | [], [] => Some []
  | _, _ => None
  end.

(** What the shaders read: each cbuffer variable at its packed offset. *)
Definition decode (mem : Memory) : option CommonHlsli.PerFrameConstants :=
  match loadAll mem (hlslOffsets 0 (map snd hlslPerFrameConstants))
                (map snd hlslPerFrameConstants) with
  | Some [ VMatrix m0; VMatrix m1; VMatrix m2; VMatrix m3;
           VFloat3 l1p; VFloat vw; VFloat3 l1c; VFloat vh;
           VFloat3 l2p; VFloat p1; VFloat3 l2c; VFloat p2;
           VFloat3 amb; VFloat sp;
           VFloat3 cp; VFloat p3;
           VFloat wy; VFloat ws; VFloat2 wm ] =>
      Some {| CommonHlsli.gCameraMatrix := m0;
              CommonHlsli.gViewMatrix := m1;
              CommonHlsli.gProjectionMatrix := m2;
              CommonHlsli.gViewProjectionMatrix := m3;
              CommonHlsli.gLight1Position := l1p;
              CommonHlsli.gViewportWidth := vw;
              CommonHlsli.gLight1Colour := l1c;
              CommonHlsli.gViewportHeight := vh;
              CommonHlsli.gLight2Position := l2p;
              CommonHlsli.padding1 := p1;
              CommonHlsli.gLight2Colour := l2c;
              CommonHlsli.padding2 := p2;
              CommonHlsli.gAmbientColour := amb;
              CommonHlsli.gSpecularPower := sp;
              CommonHlsli.gCameraPosition := cp;
              CommonHlsli.padding3 := p3;
              CommonHlsli.gWaterPlaneY := wy;
              CommonHlsli.gWaveScale := ws;
              CommonHlsli.gWaterMovement := wm |}
  | _ => None
  end.

(** The cbuffer variable that carries each host member: a scalar or a
    vector as the host wrote it, a matrix with its rows and columns
    exchanged. *)
Definition sameFields (c : CommonH.PerFrameConstants)
    (g : CommonHlsli.PerFrameConstants) : Prop :=
  CommonHlsli.gCameraMatrix g = transpose (CommonH.cameraMatrix c) /\
  CommonHlsli.gViewMatrix g = transpose (CommonH.viewMatrix c) /\
  CommonHlsli.gProjectionMatrix g = transpose (CommonH.projectionMatrix c) /\
  CommonHlsli.gViewProjectionMatrix g
    = transpose (CommonH.viewProjectionMatrix c) /\
  CommonHlsli.gLight1Position g = CommonH.light1Position c /\
  CommonHlsli.gViewportWidth g = CommonH.viewportWidth c /\
  CommonHlsli.gLight1Colour g = CommonH.light1Colour c /\
  CommonHlsli.gViewportHeight g = CommonH.viewportHeight c /\
  CommonHlsli.gLight2Position g = CommonH.light2Position c /\
  CommonHlsli.padding1 g = CommonH.padding1 c /\
  CommonHlsli.gLight2Colour g = CommonH.light2Colour c /\
  CommonHlsli.padding2 g = CommonH.padding2 c /\
  CommonHlsli.gAmbientColour g = CommonH.ambientColour c /\
  CommonHlsli.gSpecularPower g = CommonH.specularPower c /\
  CommonHlsli.gCameraPosition g = CommonH.cameraPosition c /\
  CommonHlsli.padding3 g = CommonH.padding3 c /\
  CommonHlsli.gWaterPlaneY g = CommonH.waterPlaneY c /\
  CommonHlsli.gWaveScale g = CommonH.waveScale c /\
  CommonHlsli.gWaterMovement g = CommonH.waterMovement c.

End Layout.

(* ===================================================================== *)
(** ** Scene.cpp: globals, Direct3D calls, rendering and update *)
(* ===================================================================== *)

Module Scene.
Import CommonH.
Local Open Scope f32_scope.

(** Modelled from the spec: the Camera class (Camera.h is not part of the
    sources at hand).  It "exposes world/view/projection matrices and a
    mutable pose (position + 3 basis axes)"; the axes are rows 0 to 2 of the
    world matrix and the position is row 3 (Scene.cpp: "Position is on
    bottom row (row 3) of matrix so Camera.y is matrix element e31"). *)
Record Camera : Type := {
  WorldMatrix : CMatrix4x4;
  NearClip : float;
  FarClip : float
}.

Definition withWorldMatrix (c : Camera) (m : CMatrix4x4) : Camera :=
  {| WorldMatrix := m; NearClip := NearClip c; FarClip := FarClip c |}.

Definition XAxis (m : CMatrix4x4) : CVector3 := Float3 (e00 m) (e01 m) (e02 m).
Definition YAxis (m : CMatrix4x4) : CVector3 := Float3 (e10 m) (e11 m) (e12 m).
Definition ZAxis (m : CMatrix4x4) : CVector3 := Float3 (e20 m) (e21 m) (e22 m).
Definition Position (m : CMatrix4x4) : CVector3 :=
  Float3 (e30 m) (e31 m) (e32 m).

(** Assignments through the references [XAxis().y], [YAxis().y],
    [ZAxis().y] and [Position().y]. *)
Definition setXAxisY (m : CMatrix4x4) (v : float) : CMatrix4x4 :=
  Matrix4x4 (e00 m) v (e02 m) (e03 m) (e10 m) (e11 m) (e12 m) (e13 m)
            (e20 m) (e21 m) (e22 m) (e23 m) (e30 m) (e31 m) (e32 m) (e33 m).
Definition setYAxisY (m : CMatrix4x4) (v : float) : CMatrix4x4 :=
  Matrix4x4 (e00 m) (e01 m) (e02 m) (e03 m) (e10 m) v (e12 m) (e13 m)
            (e20 m) (e21 m) (e22 m) (e23 m) (e30 m) (e31 m) (e32 m) (e33 m).
Definition setZAxisY (m : CMatrix4x4) (v : float) : CMatrix4x4 :=
  Matrix4x4 (e00 m) (e01 m) (e02 m) (e03 m) (e10 m) (e11 m) (e12 m) (e13 m)
            (e20 m) v (e22 m) (e23 m) (e30 m) (e31 m) (e32 m) (e33 m).
Definition setPositionY (m : CMatrix4x4) (v : float) : CMatrix4x4 :=
  Matrix4x4 (e00 m) (e01 m) (e02 m) (e03 m) (e10 m) (e11 m) (e12 m) (e13 m)
            (e20 m) (e21 m) (e22 m) (e23 m) (e30 m) v (e32 m) (e33 m).

(** The reflection of the camera matrix in the water plane, lines 559 to
    566 of RenderSceneFromCamera: the four assignments in their order. *)
Definition reflect (pose : CMatrix4x4) (planeY : float) : CMatrix4x4 :=
  let m := setXAxisY pose (e01 pose * F32.of_Z (-1)) in
  let m := setYAxisY m (e11 m * F32.of_Z (-1)) in
  let m := setZAxisY m (e21 m * F32.of_Z (-1)) in
  setPositionY m (planeY * F32.of_Z 2 - e31 m).

(** *** Direct3D objects named by the globals of Scene.cpp *)

Inductive Resource : Type :=
| gSkyDiffuseSpecularMap | gGroundDiffuseSpecularMap
| gCrateDiffuseSpecularMap | gTrollDiffuseSpecularMap | gLightDiffuseMap
| gWaterNormalMap | gWaterHeight | gReflection | gRefraction
| gBackBufferTexture.

Inductive ShaderResourceView : Type :=
| gSkyDiffuseSpecularMapSRV | gGroundDiffuseSpecularMapSRV
| gCrateDiffuseSpecularMapSRV | gTrollDiffuseSpecularMapSRV
| gLightDiffuseMapSRV | gWaterNormalMapSRV | gWaterHeightSRV
| gReflectionSRV | gRefractionSRV.

Inductive RenderTargetView : Type :=
| gWaterHeightRenderTarget | gReflectionRenderTarget
| gRefractionRenderTarget | gBackBufferRenderTarget.

(** The texture a view was created on (InitGeometry). *)
Definition srvResource (v : ShaderResourceView) : Resource :=
  match v with
  | gSkyDiffuseSpecularMapSRV => gSkyDiffuseSpecularMap
  | gGroundDiffuseSpecularMapSRV => gGroundDiffuseSpecularMap
  | gCrateDiffuseSpecularMapSRV => gCrateDiffuseSpecularMap
  | gTrollDiffuseSpecularMapSRV => gTrollDiffuseSpecularMap
  | gLightDiffuseMapSRV => gLightDiffuseMap
  | gWaterNormalMapSRV => gWaterNormalMap
  | gWaterHeightSRV => gWaterHeight
  | gReflectionSRV => gReflection
  | gRefractionSRV => gRefraction
  end.

Definition rtvResource (v : RenderTargetView) : Resource :=
  match v with
  | gWaterHeightRenderTarget => gWaterHeight
  | gReflectionRenderTarget => gReflection
  | gRefractionRenderTarget => gRefraction
  | gBackBufferRenderTarget => gBackBufferTexture
  end.

Definition Resource_eqb (a b : Resource) : bool :=
  match a, b with
  | gSkyDiffuseSpecularMap, gSkyDiffuseSpecularMap
  | gGroundDiffuseSpecularMap, gGroundDiffuseSpecularMap
  | gCrateDiffuseSpecularMap, gCrateDiffuseSpecularMap
  | gTrollDiffuseSpecularMap, gTrollDiffuseSpecularMap
  | gLightDiffuseMap, gLightDiffuseMap
  | gWaterNormalMap, gWaterNormalMap
  | gWaterHeight, gWaterHeight
  | gReflection, gReflection
  | gRefraction, gRefraction
  | gBackBufferTexture, gBackBufferTexture => true
  | _, _ => false
  end.

Inductive VertexShader : Type :=
| gBasicTransformVertexShader | gPixelLightingVertexShader
| gBasicTransformWorldPosVertexShader | gWaterSurfaceVertexShader.

Inductive PixelShader : Type :=
| gTintedTexturePixelShader | gPixelLightingPixelShader
| gWaterSurfacePixelShader | gWaterHeightPixelShader
| gReflectedPixelLightingPixelShader | gReflectedTintedTexturePixelShader
| gRefractedPixelLightingPixelShader | gRefractedTintedTexturePixelShader.

Inductive BlendState : Type := gNoBlendingState | gAdditiveBlendingState.
Inductive DepthStencilState : Type :=
| gUseDepthBufferState | gDepthReadOnlyState.
Inductive RasterizerState : Type :=
| gCullBackState | gCullFrontState | gCullNoneState.
Inductive SamplerState : Type :=
| gAnisotropic4xSampler | gBilinearMirrorSampler.

(** The models of the scene; [gLightModel i] is [gLights[i].model]. *)
Inductive Model : Type :=
| gSky | gGround | gTroll | gCrate | gWater | gLightModel (i : nat).

Definition isWater (m : Model) : bool :=
  match m with gWater => true | _ => false end.

(** One constructor per call made on the device context.  [Render] is
    [Model::Render()], which issues the draw call of a model with the
    per-model constants current at the call. *)
Inductive Command : Type :=
| UpdateConstantBuffer (c : PerFrameConstants)
| VSSetConstantBuffers (slot : nat)
| PSSetConstantBuffers (slot : nat)
| PSSetShaderResources (slot : nat) (v : option ShaderResourceView)
| VSSetShaderResources (slot : nat) (v : option ShaderResourceView)
| PSSetSamplers (slot : nat) (s : SamplerState)
| VSSetSamplers (slot : nat) (s : SamplerState)
| OMSetBlendState (b : BlendState)
| OMSetDepthStencilState (d : DepthStencilState)
| RSSetState (r : RasterizerState)
| OMSetRenderTargets (t : RenderTargetView)
| ClearRenderTargetView (t : RenderTargetView) (colour : float4)
| ClearDepthStencilView (depth : float)
| VSSetShader (v : VertexShader)
| PSSetShader (p : PixelShader)
| GSSetShader_nullptr
| Render (m : Model) (objectColour : CVector3).

(** *** The globals the frame code reads and writes *)

Record World : Type := {
  gCamera : Camera;
  gWaterPosition : CVector3;            (* gWater->Position() *)
  gPerFrameConstants : PerFrameConstants;
  objectColour : CVector3;              (* gPerModelConstants.objectColour *)
  waveScaleStatic : float;              (* static float waveScale *)
  waterPosStatic : CVector2             (* static CVector2 waterPos *)
}.

(** Host code: a computation reads and writes the globals and issues
    calls on the device context, which are collected in their order. *)
Definition M (A : Type) : Type := World -> A * World * list Command.

Definition ret {A} (a : A) : M A := fun w => (a, w, []).
Definition bind {A B} (c : M A) (k : A -> M B) : M B :=
  fun w =>
    let '(a, w1, l1) := c w in
    let '(b, w2, l2) := k a w1 in
    (b, w2, l1 ++ l2).

Definition finalWorld {A} (r : A * World * list Command) : World :=
  snd (fst r).
Definition issued {A} (r : A * World * list Command) : list Command :=
  snd r.

Notation "x <- c ;; k" := (bind c (fun x => k))
  (at level 61, c at next level, right associativity).
Notation "c ;; k" := (bind c (fun _ => k))
  (at level 61, right associativity).

Definition get {A} (f : World -> A) : M A := fun w => (f w, w, []).

Definition call (c : Command) : M unit := fun w => (tt, w, [c]).

Definition setCamera (c : Camera) : M unit := fun w =>
  (tt, {| gCamera := c; gWaterPosition := gWaterPosition w;
          gPerFrameConstants := gPerFrameConstants w;
          objectColour := objectColour w;
          waveScaleStatic := waveScaleStatic w;
          waterPosStatic := waterPosStatic w |}, []).

Definition setWaterPosition (p : CVector3) : M unit := fun w =>
  (tt, {| gCamera := gCamera w; gWaterPosition := p;
          gPerFrameConstants := gPerFrameConstants w;
          objectColour := objectColour w;
          waveScaleStatic := waveScaleStatic w;
          waterPosStatic := waterPosStatic w |}, []).

Definition setPerFrameConstants (c : PerFrameConstants) : M unit := fun w =>
  (tt, {| gCamera := gCamera w; gWaterPosition := gWaterPosition w;
          gPerFrameConstants := c;
          objectColour := objectColour w;
          waveScaleStatic := waveScaleStatic w;
          waterPosStatic := waterPosStatic w |}, []).

Definition setObjectColour (c : CVector3) : M unit := fun w =>
  (tt, {| gCamera := gCamera w; gWaterPosition := gWaterPosition w;
          gPerFrameConstants := gPerFrameConstants w;
          objectColour := c;
          waveScaleStatic := waveScaleStatic w;
          waterPosStatic := waterPosStatic w |}, []).

Definition setStatics (scale : float) (pos : CVector2) : M unit := fun w =>
  (tt, {| gCamera := gCamera w; gWaterPosition := gWaterPosition w;
          gPerFrameConstants := gPerFrameConstants w;
          objectColour := objectColour w;
          waveScaleStatic := scale;
          waterPosStatic := pos |}, []).

(** [model->Render()]. *)
Definition render (m : Model) : M unit :=
  c <- get objectColour ;; call (Render m c).

Fixpoint forEach {A} (l : list A) (body : A -> M unit) : M unit :=
  match l with
  | [] => ret tt
  | a :: rest => body a ;; forEach rest body
  end.

Definition NUM_LIGHTS : nat := 2.

(** [gLights[i].colour] as InitScene sets it. *)
Definition gLightsColour (i : nat) : CVector3 :=
  match i with
  | O => Float3 (F32.lit 8 10) (F32.lit 8 10) (F32.of_Z 1)
  | _ => Float3 (F32.of_Z 1) (F32.lit 9 10) (F32.lit 8 10)
  end.

Definition gBackgroundColor : float4 :=
  Float4 (F32.lit 5 10) (F32.lit 5 10) (F32.lit 5 10) (F32.of_Z 1).

Section Rendering.
(** Camera.h: the matrices derived from the pose and the projection
    settings of a camera. *)
Variable ViewMatrix : Camera -> CMatrix4x4.
Variable ProjectionMatrix : Camera -> CMatrix4x4.
Variable ViewProjectionMatrix : Camera -> CMatrix4x4.

Definition RenderLitModels : M unit :=
  call (PSSetShaderResources 0 (Some gGroundDiffuseSpecularMapSRV)) ;;
  render gGround ;;
  call (PSSetShaderResources 0 (Some gTrollDiffuseSpecularMapSRV)) ;;
  render gTroll ;;
  call (PSSetShaderResources 0 (Some gCrateDiffuseSpecularMapSRV)) ;;
  render gCrate.

Definition RenderOtherModels : M unit :=
  setObjectColour (Float3 (F32.of_Z 1) (F32.of_Z 1) (F32.of_Z 1)) ;;
  call (RSSetState gCullNoneState) ;;
  call (PSSetShaderResources 0 (Some gSkyDiffuseSpecularMapSRV)) ;;
  render gSky ;;
  call (PSSetShaderResources 0 (Some gLightDiffuseMapSRV)) ;;
  call (OMSetBlendState gAdditiveBlendingState) ;;
  call (OMSetDepthStencilState gDepthReadOnlyState) ;;
  call (RSSetState gCullNoneState) ;;
  forEach (seq 0 NUM_LIGHTS) (fun i =>
    setObjectColour (gLightsColour i) ;;
    render (gLightModel i)) ;;
  call (OMSetBlendState gNoBlendingState) ;;
  call (OMSetDepthStencilState gUseDepthBufferState) ;;
  call (RSSetState gCullBackState).

Definition SelectCamera : M unit :=
  camera <- get gCamera ;;
  c <- get gPerFrameConstants ;;
  let c' := set_cameraMatrices c (WorldMatrix camera) (ViewMatrix camera)
              (ProjectionMatrix camera) (ViewProjectionMatrix camera) in
  setPerFrameConstants c' ;;
  call (UpdateConstantBuffer c') ;;
  call (VSSetConstantBuffers 0) ;;
  call (PSSetConstantBuffers 0).

Definition RenderSceneFromCamera : M unit :=
  SelectCamera ;;
  (* Prepare common states / textures / samplers *)
  call (PSSetShaderResources 1 (Some gWaterNormalMapSRV)) ;;
  call (VSSetShaderResources 1 (Some gWaterNormalMapSRV)) ;;
  call (PSSetSamplers 0 gAnisotropic4xSampler) ;;
  call (VSSetSamplers 0 gAnisotropic4xSampler) ;;
  call (PSSetSamplers 1 gBilinearMirrorSampler) ;;
  call (OMSetBlendState gNoBlendingState) ;;
  call (OMSetDepthStencilState gUseDepthBufferState) ;;
  call (RSSetState gCullBackState) ;;
  (* Render water height *)
  call (OMSetRenderTargets gWaterHeightRenderTarget) ;;
  call (ClearRenderTargetView gWaterHeightRenderTarget
          (Float4 F32.zero F32.zero F32.zero F32.zero)) ;;
  call (ClearDepthStencilView F32.one) ;;
  call (VSSetShader gWaterSurfaceVertexShader) ;;
  call (PSSetShader gWaterHeightPixelShader) ;;
  call GSSetShader_nullptr ;;
  render gWater ;;
  (* Render refracted scene *)
  call (OMSetRenderTargets gRefractionRenderTarget) ;;
  call (ClearRenderTargetView gRefractionRenderTarget gBackgroundColor) ;;
  call (ClearDepthStencilView F32.one) ;;
  call (PSSetShaderResources 2 (Some gWaterHeightSRV)) ;;
  call (VSSetShader gPixelLightingVertexShader) ;;
  call (PSSetShader gRefractedPixelLightingPixelShader) ;;
  RenderLitModels ;;
  call (VSSetShader gBasicTransformWorldPosVertexShader) ;;
  call (PSSetShader gRefractedTintedTexturePixelShader) ;;
  RenderOtherModels ;;
  (* Render reflected scene *)
  camera <- get gCamera ;;
  let originalMatrix := WorldMatrix camera in
  water <- get gWaterPosition ;;
  setCamera (withWorldMatrix camera
               (reflect (WorldMatrix camera) (y3 water))) ;;
  SelectCamera ;;
  call (RSSetState gCullFrontState) ;;
  call (OMSetRenderTargets gReflectionRenderTarget) ;;
  call (ClearRenderTargetView gReflectionRenderTarget gBackgroundColor) ;;
  call (ClearDepthStencilView F32.one) ;;
  call (VSSetShader gPixelLightingVertexShader) ;;
  call (PSSetShader gReflectedPixelLightingPixelShader) ;;
  RenderLitModels ;;
  call (VSSetShader gBasicTransformWorldPosVertexShader) ;;
  call (PSSetShader gReflectedTintedTexturePixelShader) ;;
  RenderOtherModels ;;
  (* Restore original camera and culling state *)
  camera <- get gCamera ;;
  setCamera (withWorldMatrix camera originalMatrix) ;;
  SelectCamera ;;
  call (RSSetState gCullBackState) ;;
  call (PSSetShaderResources 2 None) ;;
  (* Render main scene *)
  call (OMSetRenderTargets gBackBufferRenderTarget) ;;
  call (ClearDepthStencilView F32.one) ;;
  call (VSSetShader gPixelLightingVertexShader) ;;
  call (PSSetShader gPixelLightingPixelShader) ;;
  RenderLitModels ;;
  call (PSSetShaderResources 3 (Some gRefractionSRV)) ;;
  call (PSSetShaderResources 4 (Some gReflectionSRV)) ;;
  call (VSSetShader gWaterSurfaceVertexShader) ;;
  call (PSSetShader gWaterSurfacePixelShader) ;;
  render gWater ;;
  call (PSSetShaderResources 3 None) ;;
  call (PSSetShaderResources 4 None) ;;
  call (VSSetShader gBasicTransformVertexShader) ;;
  call (PSSetShader gTintedTexturePixelShader) ;;
  RenderOtherModels.
End Rendering.

(** *** UpdateScene: the water controls (lines 731 to 748) *)

Inductive KeyCode : Type := Key_Period | Key_Comma | Key_Plus | Key_Minus.

(** The wave-height control: the static [waveScale] after one update. *)
Definition updateWaveScale (KeyHeld : KeyCode -> bool) (frameTime : float)
    (waveScale : float) : float :=
  let waveScale :=
    if KeyHeld Key_Plus then waveScale + F32.lit 5 10 * frameTime
    else waveScale in
  let waveScale :=
    if KeyHeld Key_Minus then waveScale - F32.lit 5 10 * frameTime
    else waveScale in
  if waveScale <? F32.of_Z 0 then F32.of_Z 0 else waveScale.

Definition UpdateScene (KeyHeld : KeyCode -> bool) (frameTime : float)
  : M unit :=
  (* Control water height *)
  water <- get gWaterPosition ;;
  let planeY := y3 water in
  let planeY :=
    if KeyHeld Key_Period then planeY + F32.of_Z 5 * frameTime
    else planeY in
  let planeY :=
    if KeyHeld Key_Comma then planeY - F32.of_Z 5 * frameTime
    else planeY in
  setWaterPosition (Float3 (x3 water) planeY (z3 water)) ;;
  (* Control wave height *)
  waveScale <- get waveScaleStatic ;;
  let waveScale := updateWaveScale KeyHeld frameTime waveScale in
  (* Move water *)
  waterPos <- get waterPosStatic ;;
  let waterSpeed := F32.of_Z 1 in
  let waterPos :=
    Vec.add2 waterPos
      (Vec.scale2l (frameTime * waterSpeed)
                   (Float2 (F32.lit 1 100) (F32.lit 15 1000))) in
  setStatics waveScale waterPos ;;
  c <- get gPerFrameConstants ;;
  setPerFrameConstants (set_water c planeY waveScale waterPos).

(** The value of the static [waveScale] when the program starts. *)
Definition initialWaveScale : float := F32.lit 6 10.

(** *** The device context: what the logged calls do to the pipeline *)

Record Device : Type := {
  renderTarget : option RenderTargetView;
  psResources : nat -> option ShaderResourceView;
  vsResources : nat -> option ShaderResourceView;
  vertexShader : option VertexShader;
  pixelShader : option PixelShader;
  rasterizer : option RasterizerState
}.

Definition initialDevice : Device :=
  {| renderTarget := None;
     psResources := fun _ => None;
     vsResources := fun _ => None;
     vertexShader := None; pixelShader := None; rasterizer := None |}.

Definition update {A} (f : nat -> A) (k : nat) (v : A) : nat -> A :=
  fun i => if Nat.eqb i k then v else f i.

Definition exec (d : Device) (c : Command) : Device :=
  match c with
  | PSSetShaderResources slot v =>
      {| renderTarget := renderTarget d;
         psResources := update (psResources d) slot v;
         vsResources := vsResources d;
         vertexShader := vertexShader d; pixelShader := pixelShader d;
         rasterizer := rasterizer d |}
  | VSSetShaderResources slot v =>
      {| renderTarget := renderTarget d;
         psResources := psResources d;
         vsResources := update (vsResources d) slot v;
         vertexShader := vertexShader d; pixelShader := pixelShader d;
         rasterizer := rasterizer d |}
  | OMSetRenderTargets t =>
      {| renderTarget := Some t;
         psResources := psResources d; vsResources := vsResources d;
         vertexShader := vertexShader d; pixelShader := pixelShader d;
         rasterizer := rasterizer d |}
  | VSSetShader v =>
      {| renderTarget := renderTarget d;
         psResources := psResources d; vsResources := vsResources d;
         vertexShader := Some v; pixelShader := pixelShader d;
         rasterizer := rasterizer d |}
  | PSSetShader p =>
      {| renderTarget := renderTarget d;
         psResources := psResources d; vsResources := vsResources d;
         vertexShader := vertexShader d; pixelShader := Some p;
         rasterizer := rasterizer d |}
  | RSSetState r =>
      {| renderTarget := renderTarget d;
         psResources := psResources d; vsResources := vsResources d;
         vertexShader := vertexShader d; pixelShader := pixelShader d;
         rasterizer := Some r |}
  | _ => d
  end.

Definition run (d : Device) (cs : list Command) : Device :=
  fold_left exec cs d.

(** The draws of a call sequence, each with the render target that was
    bound when it was issued. *)
Fixpoint draws (d : Device) (cs : list Command)
  : list (option RenderTargetView * Model) :=
  match cs with
  | [] => []
  | Render m col :: rest =>
      (renderTarget d, m) :: draws (exec d (Render m col)) rest
  | c :: rest => draws (exec d c) rest
  end.

Definition RenderTargetView_eqb (a b : RenderTargetView) : bool :=
  Resource_eqb (rtvResource a) (rtvResource b).

(** The models drawn while [t] was the render target. *)
Definition drawnInto (t : RenderTargetView)
    (ds : list (option RenderTargetView * Model)) : list Model :=
  map snd (filter (fun p => match fst p with
                            | Some t' => RenderTargetView_eqb t t'
                            | None => false
                            end) ds).

(** The render targets bound by a call sequence, in order. *)
Fixpoint passes (cs : list Command) : list RenderTargetView :=
  match cs with
  | [] => []
  | OMSetRenderTargets t :: rest => t :: passes rest
  | _ :: rest => passes rest
  end.

(** A texture is at once the render target and an input of a shader
    stage: the hazard Direct3D forbids. *)
Definition hazard (d : Device) : Prop :=
  exists t slot v,
    renderTarget d = Some t /\
    (psResources d slot = Some v \/ vsResources d slot = Some v) /\
    srvResource v = rtvResource t.

Definition isRenderTexture (r : Resource) : bool :=
  match r with
  | gWaterHeight | gReflection | gRefraction | gBackBufferTexture => true
  | _ => false
  end.

(** The state of the device between two frames: no texture that the frame
    renders into is still bound as a shader input. *)
Definition frameStart (d : Device) : Prop :=
  forall slot v,
    psResources d slot = Some v \/ vsResources d slot = Some v ->
    isRenderTexture (srvResource v) = false.

(** No hazard before the first call nor after any call of a sequence. *)
Fixpoint safe (d : Device) (cs : list Command) : Prop :=
  ~ hazard d /\
  match cs with
  | [] => True
  | c :: rest => safe (exec d c) rest
  end.

(** The constant blocks a call sequence sends to the GPU. *)
Fixpoint sent (cs : list Command) : list PerFrameConstants :=
  match cs with
  | [] => []
  | UpdateConstantBuffer c :: rest => c :: sent rest
  | _ :: rest => sent rest
  end.

(** The input of one update step: the keys held and the frame time. *)
Definition Input : Type := ((KeyCode -> bool) * float)%type.

Fixpoint runUpdates (inputs : list Input) (w : World) : World :=
  match inputs with
  | [] => w
  | (keys, frameTime) :: rest =>
      runUpdates rest (finalWorld (UpdateScene keys frameTime w))
  end.

(** A frame time the timer can deliver: a well-formed finite number. *)
Definition goodInput (i : Input) : Prop :=
  F32.valid (snd i) = true /\ F32.is_finite (snd i) = true.

(** The call binds a view of resource [r] as a shader input. *)
Definition bindsResource (r : Resource) (c : Command) : bool :=
  match c with
  | PSSetShaderResources _ (Some v)
  | VSSetShaderResources _ (Some v) => Resource_eqb (srvResource v) r
  | _ => false
  end.

(** The calls one frame issues. *)
Definition frameCalls (ViewMatrix ProjectionMatrix ViewProjectionMatrix
    : Camera -> CMatrix4x4) (w : World) : list Command :=
  issued (RenderSceneFromCamera ViewMatrix ProjectionMatrix
            ViewProjectionMatrix w).

End Scene.

(* ===================================================================== *)
(** ** Concrete scenes *)
(* ===================================================================== *)

Module Examples.

(** A camera that looks along the world axes from a given height. *)
Definition levelPose (height : float) : CMatrix4x4 :=
  Matrix4x4 F32.one F32.zero F32.zero F32.zero
            F32.zero F32.one F32.zero F32.zero
            F32.zero F32.zero F32.one F32.zero
            F32.zero height F32.zero F32.one.

Definition zero3 : float3 := Float3 F32.zero F32.zero F32.zero.

Definition zeroMatrix : CMatrix4x4 :=
  Matrix4x4 F32.zero F32.zero F32.zero F32.zero
            F32.zero F32.zero F32.zero F32.zero
            F32.zero F32.zero F32.zero F32.zero
            F32.zero F32.zero F32.zero F32.zero.

Definition zeroConstants : CommonH.PerFrameConstants :=
  {| CommonH.cameraMatrix := zeroMatrix; CommonH.viewMatrix := zeroMatrix;
     CommonH.projectionMatrix := zeroMatrix;
     CommonH.viewProjectionMatrix := zeroMatrix;
     CommonH.light1Position := zero3; CommonH.viewportWidth := F32.zero;
     CommonH.light1Colour := zero3; CommonH.viewportHeight := F32.zero;
     CommonH.light2Position := zero3; CommonH.padding1 := F32.zero;
     CommonH.light2Colour := zero3; CommonH.padding2 := F32.zero;
     CommonH.ambientColour := zero3; CommonH.specularPower := F32.zero;
     CommonH.cameraPosition := zero3; CommonH.padding3 := F32.zero;
     CommonH.waterPlaneY := F32.zero; CommonH.waveScale := F32.zero;
     CommonH.waterMovement := Float2 F32.zero F32.zero |}.

(** The scene as InitScene leaves it, with a level camera at height 50 and
    the water plane at height 10. *)
Definition startWorld : Scene.World :=
  {| Scene.gCamera :=
       {| Scene.WorldMatrix := levelPose (F32.of_Z 50);
          Scene.NearClip := F32.of_Z 5; Scene.FarClip := F32.of_Z 100000 |};
     Scene.gWaterPosition := Float3 F32.zero (F32.of_Z 10) F32.zero;
     Scene.gPerFrameConstants := zeroConstants;
     Scene.objectColour := zero3;
     Scene.waveScaleStatic := Scene.initialWaveScale;
     Scene.waterPosStatic := Float2 F32.zero F32.zero |}.

(** A camera whose derived matrices are all its world matrix. *)
Definition plainMatrix (c : Scene.Camera) : CMatrix4x4 := Scene.WorldMatrix c.

(** Shader constants of a 1280 by 960 viewport. *)
Definition shaderConstants : CommonHlsli.PerFrameConstants :=
  {| CommonHlsli.gCameraMatrix := zeroMatrix;
     CommonHlsli.gViewMatrix := zeroMatrix;
     CommonHlsli.gProjectionMatrix := zeroMatrix;
     CommonHlsli.gViewProjectionMatrix := zeroMatrix;
     CommonHlsli.gLight1Position := zero3;
     CommonHlsli.gViewportWidth := F32.of_Z 1280;
     CommonHlsli.gLight1Colour := zero3;
     CommonHlsli.gViewportHeight := F32.of_Z 960;
     CommonHlsli.gLight2Position := zero3; CommonHlsli.padding1 := F32.zero;
     CommonHlsli.gLight2Colour := zero3; CommonHlsli.padding2 := F32.zero;
     CommonHlsli.gAmbientColour := zero3;
     CommonHlsli.gSpecularPower := F32.of_Z 256;
     CommonHlsli.gCameraPosition := zero3; CommonHlsli.padding3 := F32.zero;
     CommonHlsli.gWaterPlaneY := F32.of_Z 10;
     CommonHlsli.gWaveScale := F32.lit 6 10;
     CommonHlsli.gWaterMovement := Float2 F32.zero F32.zero |}.

(** A height map of flat water at height 10. *)
Definition flatWater : Texture2D :=
  fun _ => Float4 (F32.of_Z 10) F32.zero F32.zero F32.zero.

(** A lighting function that shades every pixel mid-grey. *)
Definition greyLighting (_ : CommonHlsli.LightingPixelShaderInput) : float4 :=
  Float4 (F32.lit 5 10) (F32.lit 5 10) (F32.lit 5 10) F32.one.

(** A pixel in the middle of the viewport at a given world height. *)
Definition pixelAt (worldY : float) : CommonHlsli.LightingPixelShaderInput :=
  {| CommonHlsli.l_projectedPosition :=
       Float4 (F32.of_Z 640) (F32.of_Z 480) (F32.lit 5 10) F32.one;
     CommonHlsli.l_worldPosition := Float3 F32.zero worldY F32.zero;
     CommonHlsli.l_worldNormal := Float3 F32.zero F32.one F32.zero;
     CommonHlsli.l_uv := Float2 F32.zero F32.zero |}.

(** Only the minus key is held. *)
Definition minusHeld (k : Scene.KeyCode) : bool :=
  match k with Scene.Key_Minus => true | _ => false end.

(** Only the plus key is held. *)
Definition plusHeld (k : Scene.KeyCode) : bool :=
  match k with Scene.Key_Plus => true | _ => false end.

End Examples.

(* ===================================================================== *)
(** ** Rounding: the quantities the proofs about [F32] speak of *)
(* ===================================================================== *)

Module Rounding.

(** Position of the remainder [r] of a division by [b] relative to one
    half: what [new_location] computes. *)
Definition locOf (b r : Z) : location :=
  if r =? 0 then loc_Exact else loc_Inexact (2 * r ?= b).

(** The quotient [a / b] cut to an integer, with its round and sticky
    bits. *)
Definition trunc (a b : Z) : shr_record :=
  shr_record_of_loc (a / b) (locOf b (a mod b)).

(** [a / b] rounded to the nearest integer, ties to even. *)
Definition rne (a b : Z) : Z :=
  round_nearest_even (a / b) (locOf b (a mod b)).

(** The last step of [binary_round_aux]: a rounded mantissa [M] at
    exponent [t] becomes a number (the mantissa may have gained a bit). *)
Definition finish (s : bool) (M t : Z) : float :=
  let '(mrs, e) := shr_fexp F32.prec F32.emax M t loc_Exact in
  match shr_m mrs with
  | Z0 => S754_zero s
  | Zpos m =>
      if e <=? F32.emax - F32.prec then S754_finite s m e
      else S754_infinity s
  | Zneg _ => S754_nan
  end.

(** The cut of a quotient at a canonical exponent: fewer than [prec] + 1
    digits, and a full mantissa above the smallest exponent. *)
Definition canonCut (a B t : Z) : Prop :=
  F32.emin <= t /\ a / B < 2 ^ F32.prec /\
  (F32.emin < t -> 2 ^ (F32.prec - 1) <= a / B).

(** The operands of the rounding that [SFdiv] performs on two finite
    numbers: exponent, scaled numerator and the shift to the canonical
    exponent. *)
Definition divExp (mx : positive) (ex : Z) (my : positive) (ey : Z) : Z :=
  Z.min (fexp F32.prec F32.emax
           (Z.pos (digits2_pos mx) + ex - (Z.pos (digits2_pos my) + ey)))
        (ex - ey).
Definition divNum (mx : positive) (ex : Z) (my : positive) (ey : Z) : Z :=
  Z.pos mx * 2 ^ (ex - ey - divExp mx ex my ey).
Definition divShift (mx : positive) (ex : Z) (my : positive) (ey : Z) : Z :=
  fexp F32.prec F32.emax
    (Zdigits2 (divNum mx ex my ey / Z.pos my) + divExp mx ex my ey)
  - divExp mx ex my ey.

(** Sign of a number that is not a NaN. *)
Definition hasSign (s : bool) (x : float) : bool :=
  match x with
  | S754_zero s' | S754_infinity s' | S754_finite s' _ _ => Bool.eqb s s'
  | S754_nan => false
  end.

End Rounding.

(* ===================================================================== *)
(** ** The device context in full: what each draw of a frame sees *)
(* ===================================================================== *)

Module Pipeline.
Import Scene.

(** What a render target or the depth buffer holds: the value of the last
    clear, if there was one, and the models written to it since. *)
Definition Surface (A : Type) : Type := (option A * list Model)%type.

(** The content of the four render targets. *)
Record Targets : Type := {
  waterHeight : Surface float4;
  reflection : Surface float4;
  refraction : Surface float4;
  backBuffer : Surface float4
}.

Definition surface (ts : Targets) (t : RenderTargetView) : Surface float4 :=
  match t with
  | gWaterHeightRenderTarget => waterHeight ts
  | gReflectionRenderTarget => reflection ts
  | gRefractionRenderTarget => refraction ts
  | gBackBufferRenderTarget => backBuffer ts
  end.

Definition setSurface (ts : Targets) (t : RenderTargetView)
    (v : Surface float4) : Targets :=
  match t with
  | gWaterHeightRenderTarget =>
      {| waterHeight := v; reflection := reflection ts;
         refraction := refraction ts; backBuffer := backBuffer ts |}
  | gReflectionRenderTarget =>
      {| waterHeight := waterHeight ts; reflection := v;
         refraction := refraction ts; backBuffer := backBuffer ts |}
  | gRefractionRenderTarget =>
      {| waterHeight := waterHeight ts; reflection := reflection ts;
         refraction := v; backBuffer := backBuffer ts |}
  | gBackBufferRenderTarget =>
      {| waterHeight := waterHeight ts; reflection := reflection ts;
         refraction := refraction ts; backBuffer := v |}
  end.

(** The bindings of [Scene.Device] together with the rest of what the calls
    of Scene.cpp set on the device context: output-merger states, samplers,
    the geometry stage, the data of [gPerFrameConstantBuffer] and the slots
    it is bound to, and the content of the render targets and of the depth
    buffer. *)
Record State : Type := {
  device : Device;
  blendState : option BlendState;
  depthStencilState : option DepthStencilState;
  psSamplers : nat -> option SamplerState;
  vsSamplers : nat -> option SamplerState;
  geometryShaderOff : bool;
  constantBuffer : option CommonH.PerFrameConstants;
  vsConstantBuffers : nat -> bool;
  psConstantBuffers : nat -> bool;
  colour : Targets;
  depth : Surface float
}.

(** A device context nothing has been set on. *)
Definition initial : State :=
  {| device := initialDevice;
     blendState := None; depthStencilState := None;
     psSamplers := fun _ => None; vsSamplers := fun _ => None;
     geometryShaderOff := false;
     constantBuffer := None;
     vsConstantBuffers := fun _ => false;
     psConstantBuffers := fun _ => false;
     colour :=
       {| waterHeight := (None, []); reflection := (None, []);
          refraction := (None, []); backBuffer := (None, []) |};
     depth := (None, []) |}.

(** A draw writes the depth buffer unless the read-only depth state is
    set (State.cpp, where the states are made, is not among the sources;
    the name and the comment at the call say what the state is for). *)
Definition writesDepth (s : State) : bool :=
  match depthStencilState s with
  | Some gDepthReadOnlyState => false
  | _ => true
  end.

(** A draw adds the model to the bound render target, and to the depth
    buffer when it writes depth. *)
Definition drawInto (s : State) (m : Model) : Targets :=
  match renderTarget (device s) with
  | Some t =>
      setSurface (colour s) t
        (fst (surface (colour s) t), snd (surface (colour s) t) ++ [m])
  | None => colour s
  end.

Definition exec (s : State) (c : Command) : State :=
  {| device := Scene.exec (device s) c;
     blendState :=
       match c with OMSetBlendState b => Some b | _ => blendState s end;
     depthStencilState :=
       match c with
       | OMSetDepthStencilState d => Some d
       | _ => depthStencilState s
       end;
     psSamplers :=
       match c with
       | PSSetSamplers slot v => update (psSamplers s) slot (Some v)
       | _ => psSamplers s
       end;
     vsSamplers :=
       match c with
       | VSSetSamplers slot v => update (vsSamplers s) slot (Some v)
       | _ => vsSamplers s
       end;
     geometryShaderOff :=
       match c with GSSetShader_nullptr => true | _ => geometryShaderOff s end;
     constantBuffer :=
       match c with
       | UpdateConstantBuffer k => Some k
       | _ => constantBuffer s
       end;
     vsConstantBuffers :=
       match c with
       | VSSetConstantBuffers slot => update (vsConstantBuffers s) slot true
       | _ => vsConstantBuffers s
       end;
     psConstantBuffers :=
       match c with
       | PSSetConstantBuffers slot => update (psConstantBuffers s) slot true
       | _ => psConstantBuffers s
       end;
     colour :=
       match c with
       | ClearRenderTargetView t col => setSurface (colour s) t (Some col, [])
       | Render m _ => drawInto s m
       | _ => colour s
       end;
     depth :=
       match c with
       | ClearDepthStencilView v => (Some v, [])
       | Render m _ =>
           if writesDepth s then (fst (depth s), snd (depth s) ++ [m])
           else depth s
       | _ => depth s
       end |}.

Definition run (s : State) (cs : list Command) : State :=
  fold_left exec cs s.

(** A draw call: the model, the tint in the per-model constants, and the
    state of the device context when the call is made. *)
Record Draw : Type := {
  model : Model;
  tint : CVector3;
  context : State
}.

Fixpoint trace (s : State) (cs : list Command) : list Draw :=
  match cs with
  | [] => []
  | Render m col :: rest =>
      {| model := m; tint := col; context := s |}
        :: trace (exec s (Render m col)) rest
  | c :: rest => trace (exec s c) rest
  end.

Definition target (d : Draw) : option RenderTargetView :=
  renderTarget (device (context d)).

(** The draws made while [t] was the render target. *)
Definition into (t : RenderTargetView) (ds : list Draw) : list Draw :=
  filter (fun d => match target d with
                   | Some t' => RenderTargetView_eqb t t'
                   | None => false
                   end) ds.

(** The calls of one of the helper functions of the frame. *)
Definition callsOf (f : M unit) (w : World) : list Command := issued (f w).

Definition shaders (s : State) : option VertexShader * option PixelShader :=
  (vertexShader (device s), pixelShader (device s)).

(** Culling, blending and use of the depth buffer. *)
Definition fixedFunction (s : State)
  : option RasterizerState * option BlendState * option DepthStencilState :=
  (rasterizer (device s), blendState s, depthStencilState s).

(** The texture in a slot of the pixel shader. *)
Definition texture (slot : nat) (s : State) : option ShaderResourceView :=
  psResources (device s) slot.

(** The diffuse map of a model that has one: the water surface has none, it
    is shaded from the normal map and the render textures. *)
Definition diffuseMap (m : Model) : option ShaderResourceView :=
  match m with
  | gSky => Some gSkyDiffuseSpecularMapSRV
  | gGround => Some gGroundDiffuseSpecularMapSRV
  | gTroll => Some gTrollDiffuseSpecularMapSRV
  | gCrate => Some gCrateDiffuseSpecularMapSRV
  | gLightModel _ => Some gLightDiffuseMapSRV
  | gWater => None
  end.

(** The per-frame constants apart from the four camera matrices that
    SelectCamera writes. *)
Definition sceneSettings (c : CommonH.PerFrameConstants)
  : list Layout.Value :=
  skipn 4 (Layout.cppMembers c).

(** The lights are the models drawn without writing depth. *)
Definition isLight (m : Model) : bool :=
  match m with
  | gLightModel _ => true
  | _ => false
  end.

(** The proper prefixes of a list, shortest first. *)
Fixpoint prefixes {A} (l : list A) : list (list A) :=
  match l with
  | [] => []
  | a :: rest => [] :: map (cons a) (prefixes rest)
  end.

End Pipeline.

(* ===================================================================== *)
(** ** Scene.cpp: RenderScene and the whole of UpdateScene *)
(* ===================================================================== *)

Module Program.
Import CommonH.
Local Open Scope f32_scope.

(** [gLights[i].strength] as InitScene sets it. *)
Definition gLightsStrength (i : nat) : float :=
  match i with
  | O => F32.of_Z 20
  | _ => F32.of_Z 1000
  end.

Definition gAmbientColour : CVector3 :=
  Float3 (F32.lit 5 10) (F32.lit 5 10) (F32.lit 5 10).
Definition gSpecularPower : float := F32.of_Z 256.

Definition gLightOrbitRadius : float := F32.of_Z 20.
Definition gLightOrbitSpeed : float := F32.lit 7 10.

(** The keys UpdateScene names. *)
Inductive KeyCode : Type :=
| Key_0 | Key_P | Key_Up | Key_Down | Key_Left | Key_Right
| Key_W | Key_S | Key_A | Key_D | Key_J | Key_L | Key_I | Key_K | Key_None
| Key_Period | Key_Comma | Key_Plus | Key_Minus.

Definition waterKey (k : Scene.KeyCode) : KeyCode :=
  match k with
  | Scene.Key_Period => Key_Period
  | Scene.Key_Comma => Key_Comma
  | Scene.Key_Plus => Key_Plus
  | Scene.Key_Minus => Key_Minus
  end.

(** The globals and function statics of Scene.cpp beside those of
    [Scene.World]. *)
Record Globals : Type := {
  world : Scene.World;
  lightPosition : nat -> CVector3;    (* gLights[i].model->Position() *)
  gViewportWidth : Z;
  gViewportHeight : Z;
  lockFPS : bool;
  lightRotate : float;                (* static float lightRotate *)
  go : bool;                          (* static bool go *)
  totalFrameTime : float;             (* static float totalFrameTime *)
  frameCount : Z                      (* static int frameCount *)
}.

Record D3D11_VIEWPORT : Type := {
  TopLeftX : float; TopLeftY : float;
  Width : float; Height : float;
  MinDepth : float; MaxDepth : float
}.

(** The window title UpdateScene composes: the number printed after
    "Frame Time: " (with two decimals) and the integer printed after
    "FPS: ". *)
Record Title : Type := {
  frameTimeMs : float;
  fps : option Z
}.

(** The calls the two functions make: those of the frame on the device
    context, and the others. *)
Inductive Call : Type :=
| Context (c : Scene.Command)
| RSSetViewports (vp : D3D11_VIEWPORT)
| Present (SyncInterval : Z)
| ModelControl (m : Scene.Model) (frameTime : float)
| SetWindowTextA (title : Title).

(** [int] arithmetic: 32-bit two's complement. *)
Definition wrap32 (z : Z) : Z := (z + 2 ^ 31) mod 2 ^ 32 - 2 ^ 31.

(** [static_cast<int>(x)]: the fraction is discarded; there is no result
    when the integer is not an [int] or [x] is not a number. *)
Definition truncate (x : float) : option Z :=
  match x with
  | S754_zero _ => Some 0%Z
  | S754_finite s m e =>
      let magnitude :=
        if (0 <=? e)%Z then (Z.pos m * 2 ^ e)%Z
        else (Z.pos m / 2 ^ (- e))%Z in
      let v := if s then (- magnitude)%Z else magnitude in
      if ((- 2 ^ 31 <=? v) && (v <? 2 ^ 31))%Z%bool then Some v else None
  | _ => None
  end.

Definition set_sceneSettings (c : PerFrameConstants)
    (l1c l1p l2c l2p amb : CVector3) (spec : float) (camPos : CVector3)
    (vw vh : float) : PerFrameConstants :=
  {| cameraMatrix := cameraMatrix c; viewMatrix := viewMatrix c;
     projectionMatrix := projectionMatrix c;
     viewProjectionMatrix := viewProjectionMatrix c;
     light1Position := l1p; viewportWidth := vw;
     light1Colour := l1c; viewportHeight := vh;
     light2Position := l2p; padding1 := padding1 c;
     light2Colour := l2c; padding2 := padding2 c;
     ambientColour := amb; specularPower := spec;
     cameraPosition := camPos; padding3 := padding3 c;
     waterPlaneY := waterPlaneY c; waveScale := waveScale c;
     waterMovement := waterMovement c |}.

Definition withWorld (g : Globals) (w : Scene.World) : Globals :=
  {| world := w; lightPosition := lightPosition g;
     gViewportWidth := gViewportWidth g; gViewportHeight := gViewportHeight g;
     lockFPS := lockFPS g; lightRotate := lightRotate g; go := go g;
     totalFrameTime := totalFrameTime g; frameCount := frameCount g |}.

Section Functions.
(** Camera.h: the matrices of a camera and its keyboard control. *)
Variable ViewMatrix : Scene.Camera -> CMatrix4x4.
Variable ProjectionMatrix : Scene.Camera -> CMatrix4x4.
Variable ViewProjectionMatrix : Scene.Camera -> CMatrix4x4.
Variable CameraControl :
  float -> (KeyCode -> bool) -> Scene.Camera -> Scene.Camera.
(** <cmath> *)
Variable cos : float -> float.
Variable sin : float -> float.

Definition RenderScene (g : Globals) : Globals * list Call :=
  let w := world g in
  (* Set up the light information in the constant buffer *)
  let c :=
    set_sceneSettings (Scene.gPerFrameConstants w)
      (Vec.scale3r (Scene.gLightsColour 0) (gLightsStrength 0))
      (lightPosition g 0%nat)
      (Vec.scale3r (Scene.gLightsColour 1) (gLightsStrength 1))
      (lightPosition g 1%nat)
      gAmbientColour gSpecularPower
      (Scene.Position (Scene.WorldMatrix (Scene.gCamera w)))
      (F32.of_Z (gViewportWidth g)) (F32.of_Z (gViewportHeight g)) in
  let '(_, w, _) := Scene.setPerFrameConstants c w in
  (* Setup the viewport to the size of the main window *)
  let vp :=
    {| Width := F32.of_Z (gViewportWidth g);
       Height := F32.of_Z (gViewportHeight g);
       MinDepth := F32.zero; MaxDepth := F32.one;
       TopLeftX := F32.of_Z 0; TopLeftY := F32.of_Z 0 |} in
  (* Render the scene from the main camera *)
  let '(_, w, frame) :=
    Scene.RenderSceneFromCamera ViewMatrix ProjectionMatrix
      ViewProjectionMatrix w in
  (withWorld g w,
   RSSetViewports vp :: map Context frame ++
   [Present (if lockFPS g then 1 else 0)%Z]).

Definition UpdateScene (KeyHeld KeyHit : KeyCode -> bool)
    (frameTime : float) (g : Globals) : Globals * list Call :=
  (* Orbit one light *)
  let lights :=
    Scene.update (lightPosition g) 0
      (Float3 (F32.of_Z 40 + cos (lightRotate g) * gLightOrbitRadius)
              (F32.of_Z 20)
              (F32.of_Z (-40) + sin (lightRotate g) * gLightOrbitRadius)) in
  let rotate :=
    if go g then lightRotate g - gLightOrbitSpeed * frameTime
    else lightRotate g in
  let going := if KeyHit Key_0 then negb (go g) else go g in
  (* Control of camera & troll *)
  let w := world g in
  let '(_, w, _) :=
    Scene.setCamera (CameraControl frameTime KeyHeld (Scene.gCamera w)) w in
  let troll := ModelControl Scene.gTroll frameTime in
  (* Control water height, wave height, move water *)
  let '(_, w, _) :=
    Scene.UpdateScene (fun k => KeyHeld (waterKey k)) frameTime w in
  (* Toggle FPS limiting *)
  let lock := if KeyHit Key_P then negb (lockFPS g) else lockFPS g in
  (* Show frame time / FPS in the window title *)
  let fpsUpdateTime := F32.lit 5 10 in
  let total := totalFrameTime g + frameTime in
  let count := wrap32 (frameCount g + 1) in
  let shown := fpsUpdateTime <? total in
  let avgFrameTime := total / F32.of_Z count in
  let title :=
    {| frameTimeMs := avgFrameTime * F32.of_Z 1000;
       fps := truncate (F32.of_Z 1 / avgFrameTime + F32.lit 5 10) |} in
  ({| world := w; lightPosition := lights;
      gViewportWidth := gViewportWidth g;
      gViewportHeight := gViewportHeight g;
      lockFPS := lock; lightRotate := rotate; go := going;
      totalFrameTime := if shown then F32.of_Z 0 else total;
      frameCount := if shown then 0%Z else count |},
   troll :: if shown then [SetWindowTextA title] else []).

End Functions.

(** The calls of the frame among the calls of RenderScene. *)
Fixpoint contextCalls (cs : list Call) : list Scene.Command :=
  match cs with
  | [] => []
  | Context c :: rest => c :: contextCalls rest
  | _ :: rest => contextCalls rest
  end.

(** The titles a call sequence shows. *)
Fixpoint titles (cs : list Call) : list Title :=
  match cs with
  | [] => []
  | SetWindowTextA t :: rest => t :: titles rest
  | _ :: rest => titles rest
  end.

(** The input of one update: keys held, keys hit, frame time. *)
Definition Input : Type :=
  ((KeyCode -> bool) * (KeyCode -> bool) * float)%type.

(** None of the four keys that control the water is held. *)
Definition waterKeysUp (i : Input) : Prop :=
  forall k : Scene.KeyCode, fst (fst i) (waterKey k) = false.

(** The number of updates of a run in which the key was hit. *)
Definition hits (key : KeyCode) (inputs : list Input) : nat :=
  List.length (filter (fun i => snd (fst i) key) inputs).

(** Where UpdateScene puts the orbiting light for an angle. *)
Definition orbit (cos sin : float -> float) (angle : float) : CVector3 :=
  Float3 (F32.of_Z 40 + cos angle * gLightOrbitRadius)
         (F32.of_Z 20)
         (F32.of_Z (-40) + sin angle * gLightOrbitRadius).

(** The key is not held during the update. *)
Definition keyUp (key : KeyCode) (i : Input) : Prop :=
  fst (fst i) key = false.

(** A frame time as a running timer delivers it: a well-formed finite
    number that is not negative. *)
Definition steadyClock (i : Input) : Prop :=
  F32.valid (snd i) = true /\ F32.is_finite (snd i) = true /\
  F32.leb F32.zero (snd i) = true.

(** The frame times of a run added to a total one after the other, as
    [totalFrameTime += frameTime] adds them. *)
Definition accumulated (inputs : list Input) (total : float) : float :=
  fold_left (fun t i => t + snd i) inputs total.

(** No running total of the run exceeds the half second after which the
    title is due. *)
Fixpoint quiet (inputs : list Input) (total : float) : bool :=
  match inputs with
  | [] => true
  | i :: rest =>
      negb (F32.lit 5 10 <? total + snd i) && quiet rest (total + snd i)
  end.

Section Runs.
Variable CameraControl :
  float -> (KeyCode -> bool) -> Scene.Camera -> Scene.Camera.
Variable cos : float -> float.
Variable sin : float -> float.

(** A run of updates: the state reached and the calls made. *)
Fixpoint runUpdates (inputs : list Input) (g : Globals)
  : Globals * list Call :=
  match inputs with
  | [] => (g, [])
  | (held, hit, frameTime) :: rest =>
      let '(g1, cs1) :=
        UpdateScene CameraControl cos sin held hit frameTime g in
      let '(g2, cs2) := runUpdates rest g1 in
      (g2, cs1 ++ cs2)
  end.
End Runs.

(** The program as it starts: the scene of [Examples.startWorld] in a
    window of 1280 by 960, the statics at their initial values. *)
Definition startGlobals : Globals :=
  {| world := Examples.startWorld;
     lightPosition := fun i =>
       match i with
       | O => Float3 (F32.of_Z 40) (F32.of_Z 20) (F32.of_Z (-40))
       | _ => Float3 (F32.of_Z 25) (F32.of_Z 800) (F32.of_Z (-950))
       end;
     gViewportWidth := 1280; gViewportHeight := 960;
     lockFPS := true;
     lightRotate := F32.of_Z 0; go := true;
     totalFrameTime := F32.of_Z 0; frameCount := 0 |}.

(** No key is down. *)
Definition noKey (_ : KeyCode) : bool := false.

(** A camera that ignores the keyboard. *)
Definition fixedCamera (_ : float) (_ : KeyCode -> bool) (c : Scene.Camera)
  : Scene.Camera := c.

End Program.

(* ===================================================================== *)
(** ** Common.h and Common.hlsli: the per-model constant block *)
(* ===================================================================== *)

Module ModelLayout.
Import Layout.

Definition MAX_BONES : nat := 64.

(** An array member: one field per element. *)
Definition array (name : string) (t : FieldType) (n : nat) : list Field :=
  repeat (name, t) n.

(** The members of [struct PerModelConstants] (Common.h), in order. *)
Definition cppPerModelConstants : list Field :=
  [ ("worldMatrix", TMatrix4x4); ("objectColour", TFloat3);
    ("padding4", TFloat) ]%string
  ++ array "boneMatrices" TMatrix4x4 MAX_BONES.

(** The variables of [cbuffer PerModelConstants] (Common.hlsli), in order. *)
Definition hlslPerModelConstants : list Field :=
  [ ("gWorldMatrix", TMatrix4x4); ("gObjectColour", TFloat3);
    ("padding4", TFloat) ]%string
  ++ array "gBoneMatrices" TMatrix4x4 MAX_BONES.

(** struct PerModelConstants *)
Record PerModelConstants : Type := {
  worldMatrix : CMatrix4x4;
  objectColour : CVector3;
  padding4 : float;
  boneMatrices : list CMatrix4x4      (* CMatrix4x4 boneMatrices[MAX_BONES] *)
}.

(** The host object as the sequence of its members. *)
Definition cppMembers (c : PerModelConstants) : list Value :=
  [ VMatrix (worldMatrix c); VFloat3 (objectColour c); VFloat (padding4 c) ]
  ++ map VMatrix (boneMatrices c).

(** The number of 32-bit words that members of the given types take. *)
Definition size (ts : list FieldType) : nat :=
  fold_right (fun t n => (words t + n)%nat) 0%nat ts.

(** [sizeof] of a structure of the given members, in bytes. *)
Definition sizeof (fs : list Field) : Z :=
  4 * Z.of_nat (fold_left (fun n t => (n + words t)%nat) (map snd fs) 0%nat).

(** What a structure of the given field types holds, as the host lays it
    out, and what the shader reads at its own offsets. *)
Definition write (vs : list Value) : Memory :=
  let ts := map typeOf vs in
  storeAll (repeat F32.zero (fold_left (fun n t => (n + words t)%nat) ts 0%nat))
           (cppOffsets 0 ts) vs.

Definition read (ts : list FieldType) (mem : Memory) : option (list Value) :=
  loadAll mem (hlslOffsets 0 ts) ts.

End ModelLayout.

(* ===================================================================== *)
(** ** Scene.cpp: InitGeometry, InitScene and ReleaseResources *)
(* ===================================================================== *)

Module Setup.
Import Scene.
Local Open Scope string_scope.
Local Open Scope list_scope.

Inductive Mesh : Type :=
| gSkyMesh | gGroundMesh | gTrollMesh | gCrateMesh | gLightMesh | gWaterMesh.

Inductive Buffer : Type :=
| gPerFrameConstantBuffer | gPerModelConstantBuffer.

(** The pointer variables of Scene.cpp.  Each is assigned at most once, so
    an object is named by the variable that holds it. *)
Inductive Pointer : Type :=
| MeshPointer (m : Mesh)
| ModelPointer (m : Model)
| CameraPointer
| ResourcePointer (r : Resource)
| ShaderViewPointer (v : ShaderResourceView)
| TargetViewPointer (t : RenderTargetView)
| BufferPointer (b : Buffer).

Definition code (p : Pointer) : nat * nat :=
  match p with
  | MeshPointer m =>
      (0, match m with
          | gSkyMesh => 0 | gGroundMesh => 1 | gTrollMesh => 2
          | gCrateMesh => 3 | gLightMesh => 4 | gWaterMesh => 5
          end)
  | ModelPointer m =>
      (1, match m with
          | gSky => 0 | gGround => 1 | gTroll => 2 | gCrate => 3
          | gWater => 4 | gLightModel i => 5 + i
          end)
  | CameraPointer => (2, 0)
  | ResourcePointer r =>
      (3, match r with
          | gSkyDiffuseSpecularMap => 0 | gGroundDiffuseSpecularMap => 1
          | gCrateDiffuseSpecularMap => 2 | gTrollDiffuseSpecularMap => 3
          | gLightDiffuseMap => 4 | gWaterNormalMap => 5 | gWaterHeight => 6
          | gReflection => 7 | gRefraction => 8 | gBackBufferTexture => 9
          end)
  | ShaderViewPointer v =>
      (4, match v with
          | gSkyDiffuseSpecularMapSRV => 0 | gGroundDiffuseSpecularMapSRV => 1
          | gCrateDiffuseSpecularMapSRV => 2
          | gTrollDiffuseSpecularMapSRV => 3
          | gLightDiffuseMapSRV => 4 | gWaterNormalMapSRV => 5
          | gWaterHeightSRV => 6 | gReflectionSRV => 7 | gRefractionSRV => 8
          end)
  | TargetViewPointer t =>
      (5, match t with
          | gWaterHeightRenderTarget => 0 | gReflectionRenderTarget => 1
          | gRefractionRenderTarget => 2 | gBackBufferRenderTarget => 3
          end)
  | BufferPointer b =>
      (6, match b with
          | gPerFrameConstantBuffer => 0 | gPerModelConstantBuffer => 1
          end)
  end%nat.

Definition Pointer_eqb (p q : Pointer) : bool :=
  Nat.eqb (fst (code p)) (fst (code q)) &&
  Nat.eqb (snd (code p)) (snd (code q)).

(** d3d11.h *)
Inductive DXGI_FORMAT : Type :=
| DXGI_FORMAT_UNKNOWN | DXGI_FORMAT_R8G8B8A8_UNORM | DXGI_FORMAT_R32_FLOAT.
Inductive D3D11_USAGE : Type := D3D11_USAGE_DEFAULT.
Inductive D3D11_SRV_DIMENSION : Type :=
| D3D11_SRV_DIMENSION_UNKNOWN | D3D11_SRV_DIMENSION_TEXTURE2D.
Definition D3D11_BIND_SHADER_RESOURCE : Z := 8.
Definition D3D11_BIND_RENDER_TARGET : Z := 32.

Record D3D11_TEXTURE2D_DESC : Type := {
  Width : Z; Height : Z; MipLevels : Z; ArraySize : Z;
  Format : DXGI_FORMAT;
  SampleDesc_Count : Z; SampleDesc_Quality : Z;
  Usage : D3D11_USAGE;
  BindFlags : Z; CPUAccessFlags : Z; MiscFlags : Z
}.

Record D3D11_SHADER_RESOURCE_VIEW_DESC : Type := {
  ViewFormat : DXGI_FORMAT;
  ViewDimension : D3D11_SRV_DIMENSION;
  Texture2D_MostDetailedMip : Z;
  Texture2D_MipLevels : Z
}.

Definition withFormat (d : D3D11_TEXTURE2D_DESC) (f : DXGI_FORMAT)
  : D3D11_TEXTURE2D_DESC :=
  {| Width := Width d; Height := Height d; MipLevels := MipLevels d;
     ArraySize := ArraySize d; Format := f;
     SampleDesc_Count := SampleDesc_Count d;
     SampleDesc_Quality := SampleDesc_Quality d; Usage := Usage d;
     BindFlags := BindFlags d; CPUAccessFlags := CPUAccessFlags d;
     MiscFlags := MiscFlags d |}.

Definition withViewFormat (d : D3D11_SHADER_RESOURCE_VIEW_DESC)
    (f : DXGI_FORMAT) : D3D11_SHADER_RESOURCE_VIEW_DESC :=
  {| ViewFormat := f; ViewDimension := ViewDimension d;
     Texture2D_MostDetailedMip := Texture2D_MostDetailedMip d;
     Texture2D_MipLevels := Texture2D_MipLevels d |}.

(** What a mesh is built from. *)
Inductive MeshSource : Type :=
| MeshFile (name : string)
| Grid (minPt maxPt : CVector3) (subDivX subDivZ : Z) (normals : bool).

(** What LoadTexture did: it loaded the file and filled both pointers, or
    it failed, having filled the one or the other pointer or neither
    (GraphicsHelpers.cpp is not part of the sources at hand). *)
Inductive TextureLoad : Type :=
| Loaded
| NotLoaded (resourceFilled viewFilled : bool).

(** The calls the three functions make, with what came of them ([ok]: the
    call succeeded). *)
Inductive Event : Type :=
| NewMesh (m : Mesh) (source : MeshSource) (ok : bool)
| LoadTexture (file : string) (r : Resource) (v : ShaderResourceView)
    (result : TextureLoad)
| CreateStates (ok : bool)
| CreateTexture2D (desc : D3D11_TEXTURE2D_DESC) (r : Resource) (ok : bool)
| CreateRenderTargetView (r : Resource) (t : RenderTargetView) (ok : bool)
| CreateShaderResourceView (r : Resource)
    (desc : D3D11_SHADER_RESOURCE_VIEW_DESC) (v : ShaderResourceView)
    (ok : bool)
| LoadShaders (ok : bool)
| CreateConstantBuffer (size : Z) (b : Buffer) (ok : bool)
| NewModel (m : Model) (mesh : Mesh)
| NewCamera
| SetLight (i : nat) (colour : CVector3) (strength : float)
| SetPosition (m : Model) (p : CVector3)
| SetRotation (m : Model) (r : CVector3)
| SetScale (m : Model) (s : float)
| CameraSetPosition (p : CVector3)
| CameraSetRotation (r : CVector3)
| SetNearClip (n : float)
| SetFarClip (f : float)
| ReleaseStates
| ReleaseShaders
| Release (p : Pointer)
| Delete (p : Pointer).

(** The objects an event brings to life, and those it disposes of. *)
Definition created (e : Event) : list Pointer :=
  match e with
  | NewMesh m _ true => [MeshPointer m]
  | LoadTexture _ r v Loaded => [ResourcePointer r; ShaderViewPointer v]
  | LoadTexture _ r v (NotLoaded a b) =>
      (if a then [ResourcePointer r] else []) ++
      (if b then [ShaderViewPointer v] else [])
  | CreateTexture2D _ r true => [ResourcePointer r]
  | CreateRenderTargetView _ t true => [TargetViewPointer t]
  | CreateShaderResourceView _ _ v true => [ShaderViewPointer v]
  | CreateConstantBuffer _ b true => [BufferPointer b]
  | NewModel m _ => [ModelPointer m]
  | NewCamera => [CameraPointer]
  | _ => []
  end.

Definition disposed (e : Event) : list Pointer :=
  match e with
  | Release p | Delete p => [p]
  | _ => []
  end.

Definition count (p : Pointer) (ps : list Pointer) : nat :=
  List.length (filter (Pointer_eqb p) ps).

(** What the calls made by InitGeometry answer. *)
Record Environment : Type := {
  meshThrows : Mesh -> option string;
  textureLoad : Resource -> TextureLoad;
  statesCreated : bool;
  texture2DCreated : Resource -> bool;
  targetViewCreated : RenderTargetView -> bool;
  shaderViewCreated : ShaderResourceView -> bool;
  shadersLoaded : bool;
  constantBufferCreated : Buffer -> bool
}.

(** The globals: the pointer variables that hold an object (the others are
    null), and the last error message. *)
Record Program : Type := {
  live : list Pointer;
  gLastError : string
}.

(** The program before InitGeometry: every pointer is null. *)
Definition start : Program :=
  {| live := []; gLastError := "" |}.

Definition holds (s : Program) (p : Pointer) : bool :=
  existsb (Pointer_eqb p) (live s).

(** [p = object] when [b] is true, [p = nullptr] when it is false. *)
Definition assign (p : Pointer) (b : bool) (s : Program) : Program :=
  {| live :=
       if b then p :: live s
       else filter (fun q => negb (Pointer_eqb p q)) (live s);
     gLastError := gLastError s |}.

(** A statement runs to its end, returns from the function, or throws. *)
Inductive Outcome (A : Type) : Type :=
| Done (a : A)
| Returned (b : bool)
| Thrown (what : string).
Arguments Done {A} a.
Arguments Returned {A} b.
Arguments Thrown {A} what.

Definition Run (A : Type) : Type :=
  Program -> Outcome A * Program * list Event.

Definition ret {A} (a : A) : Run A := fun s => (Done a, s, []).

Definition bind {A B} (c : Run A) (k : A -> Run B) : Run B :=
  fun s =>
    let '(o, s1, l1) := c s in
    match o with
    | Done a => let '(o2, s2, l2) := k a s1 in (o2, s2, l1 ++ l2)
    | Returned b => (Returned b, s1, l1)
    | Thrown w => (Thrown w, s1, l1)
    end.

Declare Scope setup_scope.
Delimit Scope setup_scope with setup.
Notation "x <- c ;; k" := (bind c (fun x => k))
  (at level 61, c at next level, right associativity) : setup_scope.
Notation "c ;; k" := (bind c (fun _ => k))
  (at level 61, right associativity) : setup_scope.
Local Open Scope setup_scope.

Definition return_ {A} (b : bool) : Run A := fun s => (Returned b, s, []).

Definition emit (e : Event) : Run unit := fun s => (Done tt, s, [e]).

Definition setLastError (msg : string) : Run unit :=
  fun s => (Done tt, {| live := live s; gLastError := msg |}, []).

Definition store (p : Pointer) : Run unit :=
  fun s => (Done tt, assign p true s, []).

Definition isLive (p : Pointer) : Run bool :=
  fun s => (Done (holds s p), s, []).

(** [try { body } catch (std::runtime_error e) { handler }] *)
Definition try_catch {A} (body : Run A) (handler : string -> Run A) : Run A :=
  fun s =>
    let '(o, s1, l1) := body s in
    match o with
    | Thrown w => let '(o2, s2, l2) := handler w s1 in (o2, s2, l1 ++ l2)
    | _ => (o, s1, l1)
    end.

(** [if (condition) { gLastError = message; return false; }] *)
Definition failIf (condition : bool) (message : string) : Run unit :=
  if condition then setLastError message ;; return_ false else ret tt.

(** [a || b || ...]: the operands are evaluated until one is true. *)
Fixpoint anyOf (operands : list (Run bool)) : Run bool :=
  match operands with
  | [] => ret false
  | c :: rest => b <- c ;; if b then ret true else anyOf rest
  end.

Fixpoint forEach {A} (l : list A) (body : A -> Run unit) : Run unit :=
  match l with
  | [] => ret tt
  | a :: rest => body a ;; forEach rest body
  end.

Section Functions.
Variable env : Environment.
Variables gViewportWidth gViewportHeight : Z.
(** MathHelpers.h and <cmath> *)
Variable ToRadians : float -> float.
Variable pow : float -> float -> float.

(** [p = new Mesh(...)] *)
Definition newMesh (m : Mesh) (source : MeshSource) : Run unit :=
  match meshThrows env m with
  | Some what =>
      emit (NewMesh m source false) ;; (fun s => (Thrown what, s, []))
  | None => emit (NewMesh m source true) ;; store (MeshPointer m)
  end.

(** [!LoadTexture(file, &r, &v)] *)
Definition notLoadTexture (file : string) (r : Resource)
    (v : ShaderResourceView) : Run bool :=
  emit (LoadTexture file r v (textureLoad env r)) ;;
  match textureLoad env r with
  | Loaded =>
      store (ResourcePointer r) ;; store (ShaderViewPointer v) ;; ret false
  | NotLoaded a b =>
      (if a then store (ResourcePointer r) else ret tt) ;;
      (if b then store (ShaderViewPointer v) else ret tt) ;;
      ret true
  end.

(** [FAILED(gD3DDevice->CreateTexture2D(&desc, NULL, &r))] and the like *)
Definition failedCreateTexture2D (desc : D3D11_TEXTURE2D_DESC)
    (r : Resource) : Run bool :=
  emit (CreateTexture2D desc r (texture2DCreated env r)) ;;
  if texture2DCreated env r then store (ResourcePointer r) ;; ret false
  else ret true.

Definition failedCreateRenderTargetView (r : Resource)
    (t : RenderTargetView) : Run bool :=
  emit (CreateRenderTargetView r t (targetViewCreated env t)) ;;
  if targetViewCreated env t then store (TargetViewPointer t) ;; ret false
  else ret true.

Definition failedCreateShaderResourceView (r : Resource)
    (desc : D3D11_SHADER_RESOURCE_VIEW_DESC) (v : ShaderResourceView)
  : Run bool :=
  emit (CreateShaderResourceView r desc v (shaderViewCreated env v)) ;;
  if shaderViewCreated env v then store (ShaderViewPointer v) ;; ret false
  else ret true.

(** [b = CreateConstantBuffer(size)]: the pointer, or nullptr on failure
    (Shader.h). *)
Definition createConstantBuffer (size : Z) (b : Buffer) : Run unit :=
  emit (CreateConstantBuffer size b (constantBufferCreated env b)) ;;
  fun s =>
    (Done tt, assign (BufferPointer b) (constantBufferCreated env b) s, []).

Definition InitGeometry : Run unit :=
  (* Load meshes *)
  try_catch
    (newMesh gSkyMesh (MeshFile "Skybox.x") ;;
     newMesh gGroundMesh (MeshFile "Hills.x") ;;
     newMesh gTrollMesh (MeshFile "Troll.x") ;;
     newMesh gCrateMesh (MeshFile "CargoContainer.x") ;;
     newMesh gLightMesh (MeshFile "Light.x") ;;
     newMesh gWaterMesh
       (Grid (Float3 (F32.of_Z (-200)) (F32.of_Z 0) (F32.of_Z (-200)))
             (Float3 (F32.of_Z 200) (F32.of_Z 0) (F32.of_Z 200))
             400 400 true))
    (fun what => setLastError what ;; return_ false) ;;
  (* Load / prepare textures & GPU states *)
  failed <- anyOf
    [ notLoadTexture "CubeMapB.jpg"
        gSkyDiffuseSpecularMap gSkyDiffuseSpecularMapSRV;
      notLoadTexture "GrassDiffuseSpecular.dds"
        gGroundDiffuseSpecularMap gGroundDiffuseSpecularMapSRV;
      notLoadTexture "TrollDiffuseSpecular.dds"
        gTrollDiffuseSpecularMap gTrollDiffuseSpecularMapSRV;
      notLoadTexture "CargoA.dds"
        gCrateDiffuseSpecularMap gCrateDiffuseSpecularMapSRV;
      notLoadTexture "Flare.jpg" gLightDiffuseMap gLightDiffuseMapSRV;
      notLoadTexture "WaterNormalHeight.png"
        gWaterNormalMap gWaterNormalMapSRV ] ;;
  failIf failed "Error loading textures" ;;
  emit (CreateStates (statesCreated env)) ;;
  failIf (negb (statesCreated env)) "Error creating states" ;;
  (* Create textures needed for water rendering *)
  let textureDesc :=
    {| Width := gViewportWidth; Height := gViewportHeight;
       MipLevels := 1; ArraySize := 1;
       Format := DXGI_FORMAT_R8G8B8A8_UNORM;
       SampleDesc_Count := 1; SampleDesc_Quality := 0;
       Usage := D3D11_USAGE_DEFAULT;
       BindFlags :=
         Z.lor D3D11_BIND_RENDER_TARGET D3D11_BIND_SHADER_RESOURCE;
       CPUAccessFlags := 0; MiscFlags := 0 |} in
  failed <- failedCreateTexture2D textureDesc gReflection ;;
  failIf failed "Error creating reflection texture" ;;
  failed <- failedCreateRenderTargetView gReflection gReflectionRenderTarget ;;
  failIf failed "Error creating reflection render target view" ;;
  let srDesc :=
    {| ViewFormat := Format textureDesc;
       ViewDimension := D3D11_SRV_DIMENSION_TEXTURE2D;
       Texture2D_MostDetailedMip := 0; Texture2D_MipLevels := 1 |} in
  failed <- failedCreateShaderResourceView gReflection srDesc gReflectionSRV ;;
  failIf failed "Error creating reflection shader resource view" ;;
  (* Same again for refraction texture *)
  failed <- failedCreateTexture2D textureDesc gRefraction ;;
  failIf failed "Error creating refraction texture" ;;
  failed <- failedCreateRenderTargetView gRefraction gRefractionRenderTarget ;;
  failIf failed "Error creating refraction render target view" ;;
  failed <- failedCreateShaderResourceView gRefraction srDesc gRefractionSRV ;;
  failIf failed "Error creating refraction shader resource view" ;;
  (* Same again for the water height texture *)
  let srDesc := withViewFormat srDesc DXGI_FORMAT_R32_FLOAT in
  let textureDesc := withFormat textureDesc (ViewFormat srDesc) in
  failed <- failedCreateTexture2D textureDesc gWaterHeight ;;
  failIf failed "Error creating water height texture" ;;
  failed <- failedCreateRenderTargetView gWaterHeight
              gWaterHeightRenderTarget ;;
  failIf failed "Error creating water height render target view" ;;
  failed <- failedCreateShaderResourceView gWaterHeight srDesc
              gWaterHeightSRV ;;
  failIf failed "Error creating water height shader resource view" ;;
  (* Prepare shaders and constant buffers to communicate with them *)
  emit (LoadShaders (shadersLoaded env)) ;;
  failIf (negb (shadersLoaded env)) "Error loading shaders" ;;
  createConstantBuffer (ModelLayout.sizeof Layout.cppPerFrameConstants)
    gPerFrameConstantBuffer ;;
  createConstantBuffer
    (ModelLayout.sizeof ModelLayout.cppPerModelConstants)
    gPerModelConstantBuffer ;;
  frameBuffer <- isLive (BufferPointer gPerFrameConstantBuffer) ;;
  modelBuffer <- isLive (BufferPointer gPerModelConstantBuffer) ;;
  failIf (negb frameBuffer || negb modelBuffer)
    "Error creating constant buffers" ;;
  return_ true.

(** [p = new Model(mesh)] *)
Definition newModel (m : Model) (mesh : Mesh) : Run unit :=
  emit (NewModel m mesh) ;; store (ModelPointer m).

Definition vector (x y z : Z) : CVector3 :=
  Float3 (F32.of_Z x) (F32.of_Z y) (F32.of_Z z).

Definition InitScene : Run unit :=
  (* Set up scene *)
  newModel gSky gSkyMesh ;;
  newModel gGround gGroundMesh ;;
  newModel gTroll gTrollMesh ;;
  newModel gCrate gCrateMesh ;;
  newModel gWater gWaterMesh ;;
  (* Initial positions *)
  emit (SetPosition gTroll (vector 45 0 45)) ;;
  emit (SetScale gTroll (F32.of_Z 10)) ;;
  emit (SetPosition gCrate (vector 65 0 (-170))) ;;
  emit (SetRotation gCrate
          (Float3 (F32.of_Z 0) (ToRadians (F32.of_Z 40)) (F32.of_Z 0))) ;;
  emit (SetScale gCrate (F32.of_Z 12)) ;;
  emit (SetRotation gSky
          (Float3 (F32.of_Z 0) (ToRadians (F32.of_Z 90)) (F32.of_Z 0))) ;;
  emit (SetScale gSky (F32.of_Z 10)) ;;
  emit (SetPosition gWater (vector 0 10 0)) ;;
  (* Light set-up *)
  forEach (seq 0 NUM_LIGHTS) (fun i => newModel (gLightModel i) gLightMesh) ;;
  emit (SetLight 0 (Float3 (F32.lit 8 10) (F32.lit 8 10) (F32.of_Z 1))
                   (F32.of_Z 20)) ;;
  emit (SetPosition (gLightModel 0) (vector 40 20 (-40))) ;;
  emit (SetScale (gLightModel 0)
          (pow (Program.gLightsStrength 0) (F32.lit 5 10))) ;;
  emit (SetLight 1 (Float3 (F32.of_Z 1) (F32.lit 9 10) (F32.lit 8 10))
                   (F32.of_Z 1000)) ;;
  emit (SetPosition (gLightModel 1) (vector 25 800 (-950))) ;;
  emit (SetScale (gLightModel 1)
          (pow (Program.gLightsStrength 1) (F32.lit 5 10))) ;;
  (* Set up camera *)
  emit NewCamera ;; store CameraPointer ;;
  emit (CameraSetPosition (vector (-80) 50 200)) ;;
  emit (CameraSetRotation
          (Float3 (ToRadians (F32.of_Z 16)) (ToRadians (F32.of_Z 145))
                  (F32.of_Z 0))) ;;
  emit (SetNearClip (F32.of_Z 5)) ;;
  emit (SetFarClip (F32.of_Z 100000)) ;;
  return_ true.

End Functions.

(** [if (p) p->Release();] *)
Definition release (p : Pointer) : Run unit :=
  held <- isLive p ;;
  if held then emit (Release p) else ret tt.

(** [delete p; p = nullptr;] (deleting a null pointer does nothing) *)
Definition delete (p : Pointer) : Run unit :=
  held <- isLive p ;;
  (if held then emit (Delete p) else ret tt) ;;
  (fun s => (Done tt, assign p false s, [])).

Definition ReleaseResources : Run unit :=
  emit ReleaseStates ;;
  release (TargetViewPointer gRefractionRenderTarget) ;;
  release (ShaderViewPointer gRefractionSRV) ;;
  release (ResourcePointer gRefraction) ;;
  release (TargetViewPointer gReflectionRenderTarget) ;;
  release (ShaderViewPointer gReflectionSRV) ;;
  release (ResourcePointer gReflection) ;;
  release (TargetViewPointer gWaterHeightRenderTarget) ;;
  release (ShaderViewPointer gWaterHeightSRV) ;;
  release (ResourcePointer gWaterHeight) ;;
  release (ShaderViewPointer gWaterNormalMapSRV) ;;
  release (ResourcePointer gWaterNormalMap) ;;
  release (ShaderViewPointer gLightDiffuseMapSRV) ;;
  release (ResourcePointer gLightDiffuseMap) ;;
  release (ShaderViewPointer gCrateDiffuseSpecularMapSRV) ;;
  release (ResourcePointer gCrateDiffuseSpecularMap) ;;
  release (ShaderViewPointer gTrollDiffuseSpecularMapSRV) ;;
  release (ResourcePointer gTrollDiffuseSpecularMap) ;;
  release (ShaderViewPointer gGroundDiffuseSpecularMapSRV) ;;
  release (ResourcePointer gGroundDiffuseSpecularMap) ;;
  release (ShaderViewPointer gSkyDiffuseSpecularMapSRV) ;;
  release (ResourcePointer gSkyDiffuseSpecularMap) ;;
  release (BufferPointer gPerModelConstantBuffer) ;;
  release (BufferPointer gPerFrameConstantBuffer) ;;
  emit ReleaseShaders ;;
  forEach (seq 0 NUM_LIGHTS) (fun i => delete (ModelPointer (gLightModel i))) ;;
  delete CameraPointer ;;
  delete (ModelPointer gWater) ;;
  delete (ModelPointer gCrate) ;;
  delete (ModelPointer gTroll) ;;
  delete (ModelPointer gGround) ;;
  delete (ModelPointer gSky) ;;
  delete (MeshPointer gWaterMesh) ;;
  delete (MeshPointer gLightMesh) ;;
  delete (MeshPointer gCrateMesh) ;;
  delete (MeshPointer gTrollMesh) ;;
  delete (MeshPointer gGroundMesh) ;;
  delete (MeshPointer gSkyMesh).

Section Session.
Variable env : Environment.
Variables gViewportWidth gViewportHeight : Z.
Variable ToRadians : float -> float.
Variable pow : float -> float -> float.

(** What follows InitGeometry in a session: InitScene when InitGeometry
    returned true, and ReleaseResources at the end in either case.  The
    result is the events of the set-up, the events of the release, and the
    program after it. *)
Definition conclude (init : Outcome unit * Program * list Event)
  : list Event * list Event * Program :=
  let '(o1, s1, l1) := init in
  let '(_, s2, l2) :=
    match o1 with
    | Returned true => InitScene ToRadians pow s1
    | _ => ret tt s1
    end in
  let '(_, s3, l3) := ReleaseResources s2 in
  (l1 ++ l2, l3, s3).

(** The three functions in the order of a session, from the start of the
    program. *)
Definition session : list Event * list Event * Program :=
  conclude (InitGeometry env gViewportWidth gViewportHeight start).
End Session.

(** The value a [bool] function returns. *)
Definition result {A} (r : Outcome A * Program * list Event) : option bool :=
  match fst (fst r) with
  | Returned b => Some b
  | _ => None
  end.

Definition after {A} (r : Outcome A * Program * list Event) : Program :=
  snd (fst r).

Definition events {A} (r : Outcome A * Program * list Event) : list Event :=
  snd r.

(** The steps of InitGeometry that can fail, in the order in which it takes
    them, each with the message it leaves in [gLastError]. *)
Inductive Step : Type :=
| LoadMesh (m : Mesh)
| LoadMap (r : Resource)
| States
| Texture (r : Resource)
| TargetView (t : RenderTargetView)
| ShaderView (v : ShaderResourceView)
| Shaders
| ConstantBuffers.

(** The message a step leaves in [gLastError] when it fails: for a mesh
    the message of the exception, for the others a fixed text. *)
Definition failure (env : Environment) (s : Step) : option string :=
  let unless (ok : bool) (message : string) :=
    if ok then None else Some message in
  match s with
  | LoadMesh m => meshThrows env m
  | LoadMap r =>
      match textureLoad env r with
      | Loaded => None
      | NotLoaded _ _ => Some "Error loading textures"
      end
  | States => unless (statesCreated env) "Error creating states"
  | Texture r =>
      unless (texture2DCreated env r)
        match r with
        | gReflection => "Error creating reflection texture"
        | gRefraction => "Error creating refraction texture"
        | _ => "Error creating water height texture"
        end
  | TargetView t =>
      unless (targetViewCreated env t)
        match t with
        | gReflectionRenderTarget =>
            "Error creating reflection render target view"
        | gRefractionRenderTarget =>
            "Error creating refraction render target view"
        | _ => "Error creating water height render target view"
        end
  | ShaderView v =>
      unless (shaderViewCreated env v)
        match v with
        | gReflectionSRV => "Error creating reflection shader resource view"
        | gRefractionSRV => "Error creating refraction shader resource view"
        | _ => "Error creating water height shader resource view"
        end
  | Shaders => unless (shadersLoaded env) "Error loading shaders"
  | ConstantBuffers =>
      unless (constantBufferCreated env gPerFrameConstantBuffer &&
              constantBufferCreated env gPerModelConstantBuffer)
        "Error creating constant buffers"
  end.

Definition steps : list Step :=
  [ LoadMesh gSkyMesh; LoadMesh gGroundMesh; LoadMesh gTrollMesh;
    LoadMesh gCrateMesh; LoadMesh gLightMesh; LoadMesh gWaterMesh;
    LoadMap gSkyDiffuseSpecularMap; LoadMap gGroundDiffuseSpecularMap;
    LoadMap gTrollDiffuseSpecularMap; LoadMap gCrateDiffuseSpecularMap;
    LoadMap gLightDiffuseMap; LoadMap gWaterNormalMap;
    States;
    Texture gReflection; TargetView gReflectionRenderTarget;
    ShaderView gReflectionSRV;
    Texture gRefraction; TargetView gRefractionRenderTarget;
    ShaderView gRefractionSRV;
    Texture gWaterHeight; TargetView gWaterHeightRenderTarget;
    ShaderView gWaterHeightSRV;
    Shaders; ConstantBuffers ].

(** The message of the first step that fails, if one does. *)
Fixpoint firstFailure (env : Environment) (todo : list Step)
  : option string :=
  match todo with
  | [] => None
  | s :: rest =>
      match failure env s with
      | Some message => Some message
      | None => firstFailure env rest
      end
  end.

(** The pixel format of a render texture: a 32-bit float for the water
    height, 8-bit RGBA for the others. *)
Definition renderFormat (r : Resource) : DXGI_FORMAT :=
  match r with
  | gWaterHeight => DXGI_FORMAT_R32_FLOAT
  | _ => DXGI_FORMAT_R8G8B8A8_UNORM
  end.

(** What a creation call must satisfy for the frame code to work: a view
    is created on the resource that [srvResource] or [rtvResource] gives
    it; a render texture has the size of the viewport, one mip level, the
    format of its use and can be bound as render target and as shader
    resource; its shader view has the same format; the size of a constant
    buffer is a multiple of 16 bytes. *)
Definition consistent (width height : Z) (e : Event) : Prop :=
  match e with
  | LoadTexture _ r v _ => srvResource v = r
  | CreateTexture2D d r _ =>
      Width d = width /\ Height d = height /\ MipLevels d = 1 /\
      ArraySize d = 1 /\ Format d = renderFormat r /\
      Z.land (BindFlags d) D3D11_BIND_RENDER_TARGET
        = D3D11_BIND_RENDER_TARGET /\
      Z.land (BindFlags d) D3D11_BIND_SHADER_RESOURCE
        = D3D11_BIND_SHADER_RESOURCE
  | CreateRenderTargetView r t _ => rtvResource t = r
  | CreateShaderResourceView r d v _ =>
      srvResource v = r /\ ViewFormat d = renderFormat r /\
      ViewDimension d = D3D11_SRV_DIMENSION_TEXTURE2D /\
      Texture2D_MostDetailedMip d = 0 /\ Texture2D_MipLevels d = 1
  | CreateConstantBuffer size _ _ => size mod 16 = 0
  | _ => True
  end.

Definition isDelete (e : Event) : bool :=
  match e with
  | Delete _ => true
  | _ => false
  end.

(** An environment in which every call succeeds. *)
Definition allSucceed : Environment :=
  {| meshThrows := fun _ => None;
     textureLoad := fun _ => Loaded;
     statesCreated := true;
     texture2DCreated := fun _ => true;
     targetViewCreated := fun _ => true;
     shaderViewCreated := fun _ => true;
     shadersLoaded := true;
     constantBufferCreated := fun _ => true |}.

(** The pointers the frame code dereferences. *)
Definition usedByFrame : list Pointer :=
  map ShaderViewPointer
    [ gSkyDiffuseSpecularMapSRV; gGroundDiffuseSpecularMapSRV;
      gCrateDiffuseSpecularMapSRV; gTrollDiffuseSpecularMapSRV;
      gLightDiffuseMapSRV; gWaterNormalMapSRV; gWaterHeightSRV;
      gReflectionSRV; gRefractionSRV ] ++
  map TargetViewPointer
    [ gWaterHeightRenderTarget; gReflectionRenderTarget;
      gRefractionRenderTarget ] ++
  [ BufferPointer gPerFrameConstantBuffer ].

End Setup.

(* ===================================================================== *)
(** ** More concrete inputs of the shaders *)
(* ===================================================================== *)

Module Cases.

(** The constants of [Examples.shaderConstants] with the wave scale at the
    zero that UpdateScene clamps it to. *)
Definition stillConstants : CommonHlsli.PerFrameConstants :=
  {| CommonHlsli.gCameraMatrix := Examples.zeroMatrix;
     CommonHlsli.gViewMatrix := Examples.zeroMatrix;
     CommonHlsli.gProjectionMatrix := Examples.zeroMatrix;
     CommonHlsli.gViewProjectionMatrix := Examples.zeroMatrix;
     CommonHlsli.gLight1Position := Examples.zero3;
     CommonHlsli.gViewportWidth := F32.of_Z 1280;
     CommonHlsli.gLight1Colour := Examples.zero3;
     CommonHlsli.gViewportHeight := F32.of_Z 960;
     CommonHlsli.gLight2Position := Examples.zero3;
     CommonHlsli.padding1 := F32.zero;
     CommonHlsli.gLight2Colour := Examples.zero3;
     CommonHlsli.padding2 := F32.zero;
     CommonHlsli.gAmbientColour := Examples.zero3;
     CommonHlsli.gSpecularPower := F32.of_Z 256;
     CommonHlsli.gCameraPosition := Examples.zero3;
     CommonHlsli.padding3 := F32.zero;
     CommonHlsli.gWaterPlaneY := F32.of_Z 10;
     CommonHlsli.gWaveScale := F32.of_Z 0;
     CommonHlsli.gWaterMovement := Float2 F32.zero F32.zero |}.

(** A vertex of the water grid at height 3. *)
Definition gridVertex : CommonHlsli.BasicVertex :=
  {| CommonHlsli.position := Float3 F32.one (F32.of_Z 3) F32.one;
     CommonHlsli.normal := Float3 F32.zero F32.one F32.zero;
     CommonHlsli.uv := Float2 F32.zero F32.zero |}.

(** A height map that holds no number. *)
Definition voidWater : Texture2D :=
  fun _ => Float4 S754_nan S754_nan S754_nan S754_nan.

(** Two normal numbers, 1.5 * 2^-126 and 1.75 * 2^-126, whose difference is
    a denormal number. *)
Definition tinyLow : float := S754_finite false 12582912 (-149).
Definition tinyHigh : float := S754_finite false 14680064 (-149).

(** The smallest denormal number, 2^-149. *)
Definition tinyStep : float := S754_finite false 1 (-149).

(** A height map of flat water at the height [tinyLow]. *)
Definition tinyWater : Texture2D :=
  fun _ => Float4 tinyLow F32.zero F32.zero F32.zero.

End Cases.

(* ===================================================================== *)
(** ** Proof tools *)
(* ===================================================================== *)

(** Runs the frame code on a symbolic world, leaving arithmetic alone. *)
Ltac run_frame :=
  cbv -[F32.of_Z F32.lit F32.mul F32.sub F32.add F32.div F32.zero F32.one
        F32.leb Scene.reflect Scene.gLightsColour Scene.gBackgroundColor].

(** The same, keeping the slot tables and the hazard predicate folded. *)
Ltac run_device :=
  cbv -[F32.of_Z F32.lit F32.mul F32.sub F32.add F32.div F32.zero F32.one
        F32.leb Scene.reflect Scene.gLightsColour Scene.gBackgroundColor
        Scene.update Nat.eqb Scene.hazard Scene.srvResource
        Scene.rtvResource Scene.isRenderTexture].

(* ===================================================================== *)
(** * Facts about single-precision rounding *)
(* ===================================================================== *)

Module RoundingFacts.
Import Rounding.

Local Abbreviation prec := F32.prec.
Local Abbreviation emax := F32.emax.
Local Abbreviation emin := F32.emin.

Lemma iter_pos_nat {A} (f : A -> A) p x :
  iter_pos f p x = Nat.iter (Pos.to_nat p) f x.
Proof.
  revert x. induction p as [p IH|p IH|]; intro x; cbn [iter_pos].
  - rewrite !IH, Pos2Nat.inj_xI, <- Nat.iter_add, <- Nat.iter_succ_r. f_equal. lia.
  - rewrite !IH, Pos2Nat.inj_xO, <- Nat.iter_add. f_equal. lia.
  - reflexivity.
Qed.

Lemma new_location_locOf b r : 0 <= r < b -> new_location b r = locOf b r.
Proof.
  intros H. unfold new_location, new_location_even, new_location_odd, locOf.
  destruct (Z.even b) eqn:Eb; destruct (r =? 0) eqn:Er; try reflexivity.
  f_equal. 
  assert (Hodd : Z.odd b = true) by (rewrite <- Z.negb_even, Eb; reflexivity).
  apply Z.odd_spec in Hodd. destruct Hodd as [k Hk].
  destruct (2 * r + 1 ?= b) eqn:C; destruct (2 * r ?= b) eqn:C2; try reflexivity;
   rewrite ?Z.compare_eq_iff, ?Z.compare_lt_iff, ?Z.compare_gt_iff in *; lia.
Qed.

(** One right shift of a cut quotient is the cut of the quotient by twice
    the divisor: the round bit is the bit shifted out, the sticky bit
    remembers the rest. *)
Lemma shr_1_trunc a b : 0 <= a -> 0 < b -> shr_1 (trunc a b) = trunc a (2 * b).
Proof.
  intros Ha Hb. unfold trunc.
  assert (Hq := Z.div_mod a b ltac:(lia)).
  assert (Hr := Z.mod_pos_bound a b Hb).
  assert (Hq0 : 0 <= a / b) by (apply Z.div_pos; lia).
  set (q := a / b) in *. set (r := a mod b) in *.
  assert (Hd : a / (2 * b) = q / 2 /\ a mod (2 * b) = (q mod 2) * b + r).
  { assert (Hq2 := Z.div_mod q 2 ltac:(lia)).
    assert (Hr2 := Z.mod_pos_bound q 2 ltac:(lia)).
    assert (E : a = (2 * b) * (q / 2) + ((q mod 2) * b + r)) by nia.
    split.
    - symmetry. apply Z.div_unique with ((q mod 2) * b + r); [ left; nia | exact E ].
    - symmetry. apply Z.mod_unique with (q / 2); [ left; nia | exact E ]. }
  destruct Hd as [Hd1 Hd2]. rewrite Hd1, Hd2. clearbody q r. clear Hd1 Hd2 Hq.
  unfold locOf.
  destruct q as [|[p|p|]|p]; try lia.
  - (* q = 0 *) cbn [Z.div Z.modulo]. change (0 / 2) with 0. change (0 mod 2) with 0.
    rewrite Z.mul_0_l, Z.add_0_l.
    destruct (r =? 0) eqn:Er; [reflexivity|].
    assert (Hc : (2 * r ?= 2 * b) = Lt) by (apply Z.compare_lt_iff; lia). rewrite Hc.
    destruct (2 * r ?= b); reflexivity.
  - (* q = 2p+1 *)
    replace (Z.pos p~1 / 2) with (Z.pos p) by (apply Z.div_unique with 1; lia).
    replace (Z.pos p~1 mod 2) with 1 by (apply Z.mod_unique with (Z.pos p); lia).
    rewrite Z.mul_1_l.
    assert (Hne : (b + r =? 0) = false) by (apply Z.eqb_neq; lia). rewrite Hne.
    destruct (r =? 0) eqn:Er.
    + apply Z.eqb_eq in Er. subst r.
      assert (Hc : (2 * (b + 0) ?= 2 * b) = Eq) by (apply Z.compare_eq_iff; lia). rewrite Hc.
      reflexivity.
    + apply Z.eqb_neq in Er.
      assert (Hc : (2 * (b + r) ?= 2 * b) = Gt) by (apply Z.compare_gt_iff; lia). rewrite Hc.
      destruct (2 * r ?= b); reflexivity.
  - replace (Z.pos p~0 / 2) with (Z.pos p) by (apply Z.div_unique with 0; lia).
    replace (Z.pos p~0 mod 2) with 0 by (apply Z.mod_unique with (Z.pos p); lia).
    rewrite Z.mul_0_l, Z.add_0_l.
    destruct (r =? 0) eqn:Er; [reflexivity|]. apply Z.eqb_neq in Er.
    assert (Hc : (2 * r ?= 2 * b) = Lt) by (apply Z.compare_lt_iff; lia). rewrite Hc.
    destruct (2 * r ?= b); reflexivity.
  - change (1 / 2) with 0. change (1 mod 2) with 1. rewrite Z.mul_1_l.
    assert (Hne : (b + r =? 0) = false) by (apply Z.eqb_neq; lia). rewrite Hne.
    destruct (r =? 0) eqn:Er.
    + apply Z.eqb_eq in Er. subst r.
      assert (Hc : (2 * (b + 0) ?= 2 * b) = Eq) by (apply Z.compare_eq_iff; lia). rewrite Hc.
      reflexivity.
    + apply Z.eqb_neq in Er.
      assert (Hc : (2 * (b + r) ?= 2 * b) = Gt) by (apply Z.compare_gt_iff; lia). rewrite Hc.
      destruct (2 * r ?= b); reflexivity.
Qed.

Lemma iter_shr_1_trunc n a b : 0 <= a -> 0 < b ->
  Nat.iter n shr_1 (trunc a b) = trunc a (b * 2 ^ Z.of_nat n).
Proof.
  intros Ha Hb. induction n as [|n IH].
  - cbn. rewrite Z.mul_1_r. reflexivity.
  - rewrite Nat.iter_succ, IH, shr_1_trunc by (try apply Z.mul_pos_pos; lia).
    f_equal. rewrite Nat2Z.inj_succ, Z.pow_succ_r by lia. ring.
Qed.

Lemma shr_trunc a b e n : 0 <= a -> 0 < b -> 0 <= n ->
  shr (trunc a b) e n = (trunc a (b * 2 ^ n), e + n).
Proof.
  intros Ha Hb Hn. unfold shr. destruct n as [|p|p]; try lia.
  - rewrite Z.pow_0_r, Z.mul_1_r, Z.add_0_r. reflexivity.
  - rewrite iter_pos_nat, iter_shr_1_trunc, positive_nat_Z by assumption. reflexivity.
Qed.

Lemma digits2_pos_bounds p :
  2 ^ (Z.pos (digits2_pos p) - 1) <= Z.pos p < 2 ^ Z.pos (digits2_pos p).
Proof.
  induction p as [p IH|p IH|]; cbn [digits2_pos].
  - rewrite Pos2Z.inj_succ, Pos2Z.inj_xI.
    replace (Z.succ (Z.pos (digits2_pos p)) - 1) with (Z.succ (Z.pos (digits2_pos p) - 1)) by lia.
    rewrite !Z.pow_succ_r; lia.
  - rewrite Pos2Z.inj_succ. change (Z.pos p~0) with (2 * Z.pos p).
    replace (Z.succ (Z.pos (digits2_pos p)) - 1) with (Z.succ (Z.pos (digits2_pos p) - 1)) by lia.
    rewrite !Z.pow_succ_r; lia.
  - cbn. lia.
Qed.

Lemma Zdigits2_nonneg m : 0 <= Zdigits2 m.
Proof. destruct m; cbn; lia. Qed.

Lemma Zdigits2_bounds m : 0 < m ->
  2 ^ (Zdigits2 m - 1) <= m < 2 ^ Zdigits2 m.
Proof. destruct m as [|p|p]; try lia. intros _. apply digits2_pos_bounds. Qed.

Lemma Zdigits2_upper m : 0 <= m -> m < 2 ^ Zdigits2 m.
Proof.
  intros H. destruct (Z.eq_dec m 0) as [->|Hn]; [cbn; lia|].
  apply Zdigits2_bounds. lia.
Qed.

Lemma Zdigits2_le m k : 0 <= k -> 0 <= m < 2 ^ k -> Zdigits2 m <= k.
Proof.
  intros Hk [H0 H1]. destruct (Z.eq_dec m 0) as [->|Hn]; [cbn; lia|].
  destruct (Z_le_gt_dec (Zdigits2 m) k) as [|Hgt]; [assumption|].
  assert (Hb := Zdigits2_bounds m ltac:(lia)).
  assert (2 ^ k <= 2 ^ (Zdigits2 m - 1)) by (apply Z.pow_le_mono_r; lia). lia.
Qed.

Lemma Zdigits2_ge m k : 2 ^ (k - 1) <= m -> 0 < k -> k <= Zdigits2 m.
Proof.
  intros H Hk.
  assert (0 < 2 ^ (k - 1)) by (apply Z.pow_pos_nonneg; lia).
  destruct (Z_le_gt_dec k (Zdigits2 m)) as [|Hgt]; [assumption|].
  assert (Hb := Zdigits2_upper m ltac:(lia)).
  assert (2 ^ Zdigits2 m <= 2 ^ (k - 1)).
  { apply Z.pow_le_mono_r; [lia|]. lia. }
  lia.
Qed.

Lemma shr_m_of_loc m l : shr_m (shr_record_of_loc m l) = m.
Proof. destruct l as [|[]]; reflexivity. Qed.

Lemma loc_of_shr_of_loc m l : loc_of_shr_record (shr_record_of_loc m l) = l.
Proof. destruct l as [|[]]; reflexivity. Qed.

Lemma binary_round_aux_finish s m e l :
  binary_round_aux prec emax s m e l =
  let '(mrs, e') := shr_fexp prec emax m e l in
  finish s (round_nearest_even (shr_m mrs) (loc_of_shr_record mrs)) e'.
Proof. reflexivity. Qed.

(** Rounding a quotient: the mantissa is first cut at the canonical exponent. *)
Lemma binary_round_aux_quotient s a b e :
  0 <= a -> 0 < b ->
  let n := fexp prec emax (Zdigits2 (a / b) + e) - e in
  0 <= n ->
  binary_round_aux prec emax s (a / b) e (locOf b (a mod b)) =
  finish s (rne a (b * 2 ^ n)) (e + n).
Proof.
  intros Ha Hb n Hn. rewrite binary_round_aux_finish. unfold shr_fexp at 1.
  fold n. change (shr_record_of_loc (a / b) (locOf b (a mod b))) with (trunc a b).
  rewrite shr_trunc by assumption. unfold trunc, rne.
  rewrite shr_m_of_loc, loc_of_shr_of_loc. reflexivity.
Qed.

Lemma finish_zero s t : finish s 0 t = S754_zero s.
Proof.
  unfold finish, shr_fexp, shr. cbn [shr_record_of_loc Zdigits2].
  destruct (fexp prec emax (0 + t) - t) as [|p|p]; try reflexivity.
  rewrite iter_pos_nat.
  assert (H : forall n, Nat.iter n shr_1 {| shr_m := 0; shr_r := false; shr_s := false |}
                 = {| shr_m := 0; shr_r := false; shr_s := false |}).
  { induction n as [|n IH]; [reflexivity|]. rewrite Nat.iter_succ, IH. reflexivity. }
  rewrite H. reflexivity.
Qed.

Lemma finish_small s M t : 0 < M < 2 ^ prec -> 3 - emax - prec <= t ->
  finish s M t =
  if t <=? emax - prec then S754_finite s (Z.to_pos M) t else S754_infinity s.
Proof.
  intros HM Ht. unfold finish, shr_fexp, shr.
  assert (Hd : Zdigits2 M <= prec) by (apply Zdigits2_le; [unfold prec; lia | lia]).
  assert (Hn : fexp prec emax (Zdigits2 M + t) - t <= 0).
  { unfold fexp, SpecFloat.emin. lia. }
  destruct (fexp prec emax (Zdigits2 M + t) - t) as [|p|p]; try lia;
    cbn [shr_record_of_loc shr_m]; destruct M; try lia; reflexivity.
Qed.

Lemma finish_carry s t : 3 - emax - prec <= t ->
  finish s (2 ^ prec) t =
  if t + 1 <=? emax - prec then S754_finite s (Z.to_pos (2 ^ (prec - 1))) (t + 1)
  else S754_infinity s.
Proof.
  intros Ht. unfold finish, shr_fexp.
  replace (fexp prec emax (Zdigits2 (2 ^ prec) + t) - t) with 1.
  2:{ change (Zdigits2 (2 ^ prec)) with 25. unfold fexp, SpecFloat.emin, prec, emax in *. lia. }
  reflexivity.
Qed.

Lemma round_nearest_even_bounds q l :
  q <= round_nearest_even q l <= q + 1.
Proof. destruct l as [|[]]; cbn; try destruct (Z.even q); lia. Qed.

Lemma rne_bounds a b : a / b <= rne a b <= a / b + 1.
Proof. apply round_nearest_even_bounds. Qed.

Lemma div_le_cross a1 b1 a2 b2 :
  0 <= a1 -> 0 < b1 -> 0 < b2 -> a1 * b2 <= a2 * b1 -> a1 / b1 <= a2 / b2.
Proof.
  intros Ha Hb1 Hb2 H.
  apply Z.div_le_lower_bound; [assumption|].
  assert (Hq := Z.mul_div_le a1 b1 Hb1).
  assert (0 <= a1 / b1) by (apply Z.div_pos; lia).
  nia.
Qed.

Lemma rne_mono a1 b1 a2 b2 :
  0 <= a1 -> 0 < b1 -> 0 < b2 -> a1 * b2 <= a2 * b1 -> rne a1 b1 <= rne a2 b2.
Proof.
  intros Ha Hb1 Hb2 H.
  assert (Hq := div_le_cross a1 b1 a2 b2 Ha Hb1 Hb2 H).
  assert (B1 := rne_bounds a1 b1). assert (B2 := rne_bounds a2 b2).
  destruct (Z.eq_dec (a1 / b1) (a2 / b2)) as [E|NE]; [|lia].
  clear B1 B2 Hq. unfold rne. rewrite <- E.
  assert (D1 := Z.div_mod a1 b1 ltac:(lia)). assert (D2 := Z.div_mod a2 b2 ltac:(lia)).
  assert (R1 := Z.mod_pos_bound a1 b1 Hb1). assert (R2 := Z.mod_pos_bound a2 b2 Hb2).
  rewrite <- E in D2.
  set (q := a1 / b1) in *. set (r1 := a1 mod b1) in *. set (r2 := a2 mod b2) in *.
  assert (Hr : r1 * b2 <= r2 * b1) by nia.
  unfold locOf.
  destruct (r1 =? 0) eqn:E1; destruct (r2 =? 0) eqn:E2;
    rewrite ?Z.eqb_eq, ?Z.eqb_neq in *.
  - cbn. lia.
  - apply round_nearest_even_bounds.
  - exfalso. nia.
  - destruct (2 * r1 ?= b1) eqn:C1; destruct (2 * r2 ?= b2) eqn:C2;
      rewrite ?Z.compare_eq_iff, ?Z.compare_lt_iff, ?Z.compare_gt_iff in *;
      cbn [round_nearest_even]; try destruct (Z.even q); try lia; exfalso; nia.
Qed.

Lemma SFleb_finite_pos m1 e1 m2 e2 :
  SFleb (S754_finite false m1 e1) (S754_finite false m2 e2) = true <->
  e1 < e2 \/ (e1 = e2 /\ Z.pos m1 <= Z.pos m2).
Proof.
  unfold SFleb, SFcompare. rewrite Pos.compare_cont_spec. cbn [Pos.switch_Eq].
  destruct (Z.compare_spec e1 e2); destruct (Pos.compare_spec m1 m2);
    (split; [intros HH | intros [HH|[HH1 HH2]]]);
    try discriminate; try reflexivity; try lia.
Qed.

Lemma finish_cases s M t : emin <= t -> 0 <= M <= 2 ^ prec ->
  (M = 0 /\ finish s M t = S754_zero s) \/
  (0 < M < 2 ^ prec /\ t <= emax - prec /\
     finish s M t = S754_finite s (Z.to_pos M) t) \/
  (M = 2 ^ prec /\ t + 1 <= emax - prec /\
     finish s M t = S754_finite s (Z.to_pos (2 ^ (prec - 1))) (t + 1)) \/
  (0 < M < 2 ^ prec /\ emax - prec < t /\ finish s M t = S754_infinity s) \/
  (M = 2 ^ prec /\ emax - prec < t + 1 /\ finish s M t = S754_infinity s).
Proof.
  intros Ht HM. unfold emin in Ht.
  destruct (Z.eq_dec M 0) as [->|H0].
  { left. split; [reflexivity|apply finish_zero]. }
  destruct (Z.eq_dec M (2 ^ prec)) as [->|H1].
  { rewrite finish_carry by assumption.
    destruct (t + 1 <=? emax - prec) eqn:E; [apply Z.leb_le in E|apply Z.leb_gt in E].
    - right. right. left. repeat split; lia.
    - right. right. right. right. repeat split; lia. }
  rewrite finish_small by lia.
  destruct (t <=? emax - prec) eqn:E; [apply Z.leb_le in E|apply Z.leb_gt in E].
  - right. left. repeat split; lia.
  - right. right. right. left. repeat split; lia.
Qed.

Lemma finish_mono_same t M1 M2 :
  emin <= t -> 0 <= M1 -> M1 <= M2 -> M2 <= 2 ^ prec ->
  SFleb (finish false M1 t) (finish false M2 t) = true.
Proof.
  intros Ht H0 H12 H2.
  assert (HP : 2 ^ prec = 16777216) by reflexivity.
  assert (HP' : 2 ^ (prec - 1) = 8388608) by reflexivity.
  destruct (finish_cases false M1 t Ht ltac:(lia))
    as [[A1 ->]|[[A1 [B1 ->]]|[[A1 [B1 ->]]|[[A1 [B1 ->]]|[A1 [B1 ->]]]]]];
  destruct (finish_cases false M2 t Ht ltac:(lia))
    as [[A2 ->]|[[A2 [B2 ->]]|[[A2 [B2 ->]]|[[A2 [B2 ->]]|[A2 [B2 ->]]]]]];
  try reflexivity; try lia;
  try (apply SFleb_finite_pos; rewrite ?HP' in *; rewrite ?Z2Pos.id by lia; lia).
Qed.

Lemma finish_mono_lt t1 t2 M1 M2 :
  emin <= t1 -> t1 < t2 -> 0 <= M1 <= 2 ^ prec -> 2 ^ (prec - 1) <= M2 <= 2 ^ prec ->
  SFleb (finish false M1 t1) (finish false M2 t2) = true.
Proof.
  intros Ht H12 H1 H2.
  assert (HP : 2 ^ prec = 16777216) by reflexivity.
  assert (HP' : 2 ^ (prec - 1) = 8388608) by reflexivity.
  assert (Ht2 : emin <= t2) by lia.
  destruct (finish_cases false M1 t1 Ht ltac:(lia))
    as [[A1 ->]|[[A1 [B1 ->]]|[[A1 [B1 ->]]|[[A1 [B1 ->]]|[A1 [B1 ->]]]]]];
  destruct (finish_cases false M2 t2 Ht2 ltac:(lia))
    as [[A2 ->]|[[A2 [B2 ->]]|[[A2 [B2 ->]]|[[A2 [B2 ->]]|[A2 [B2 ->]]]]]];
  try reflexivity; try lia;
  try (apply SFleb_finite_pos; rewrite ?HP' in *; rewrite ?Z2Pos.id by lia; lia).
Qed.

(** Rounding is monotone: of two canonical cuts, the one of the smaller
    value rounds to the smaller number.  The values [a1 / B1 * 2 ^ t1] and
    [a2 / B2 * 2 ^ t2] are compared after clearing the exponents. *)
Lemma finish_rne_le a1 B1 t1 a2 B2 t2 k1 k2 :
  0 <= a1 -> 0 <= a2 -> 0 < B1 -> 0 < B2 ->
  canonCut a1 B1 t1 -> canonCut a2 B2 t2 ->
  0 <= k1 -> 0 <= k2 -> k1 - k2 = t1 - t2 ->
  a1 * B2 * 2 ^ k1 <= a2 * B1 * 2 ^ k2 ->
  SFleb (finish false (rne a1 B1) t1) (finish false (rne a2 B2) t2) = true.
Proof.
  intros Ha1 Ha2 HB1 HB2 (Ht1 & U1 & L1) (Ht2 & U2 & L2) Hk1 Hk2 Hk H.
  assert (R1 := rne_bounds a1 B1). assert (R2 := rne_bounds a2 B2).
  assert (Q1 : 0 <= a1 / B1) by (apply Z.div_pos; lia).
  assert (Q2 : 0 <= a2 / B2) by (apply Z.div_pos; lia).
  destruct (Z.lt_total t1 t2) as [Hlt|[Heq|Hgt]].
  - apply finish_mono_lt; try lia.
  - subst t2. assert (k1 = k2) by lia. subst k2.
    assert (0 < 2 ^ k1) by (apply Z.pow_pos_nonneg; lia).
    assert (H' : a1 * B2 <= a2 * B1) by nia.
    apply finish_mono_same; try lia.
    apply rne_mono; assumption.
  - exfalso. specialize (L1 ltac:(lia)).
    (* a1 >= 2^(prec-1) B1 and a2 < 2^prec B2 *)
    assert (A1 : 2 ^ (prec - 1) * B1 <= a1).
    { assert (X := Z.mul_div_le a1 B1 HB1). nia. }
    assert (A2 : a2 < 2 ^ prec * B2).
    { assert (X := Z.mul_succ_div_gt a2 B2 HB2). nia. }
    assert (Hk' : k1 = k2 + (t1 - t2)) by lia. rewrite Hk' in H.
    rewrite Z.pow_add_r in H by lia.
    assert (0 < 2 ^ k2) by (apply Z.pow_pos_nonneg; lia).
    assert (2 <= 2 ^ (t1 - t2)).
    { change 2 with (2 ^ 1) at 1. apply Z.pow_le_mono_r; lia. }
    change (2 ^ prec) with (2 * 2 ^ (prec - 1)) in A2.
    assert (HP : 0 < 2 ^ (prec - 1)) by reflexivity.
    set (P := 2 ^ (prec - 1)) in *. set (K := 2 ^ k2) in *. set (T := 2 ^ (t1 - t2)) in *.
    clearbody P K T.
    assert (HBK : 0 < B2 * K) by (apply Z.mul_pos_pos; lia).
    assert (HBK' : 0 < B1 * K) by (apply Z.mul_pos_pos; lia).
    assert (X1 : P * B1 * (B2 * K) <= a1 * (B2 * K))
      by (apply Z.mul_le_mono_nonneg_r; lia).
    assert (X2 : a1 * (B2 * K) * 2 <= a1 * (B2 * K) * T).
    { apply Z.mul_le_mono_nonneg_l; [|lia]. apply Z.mul_nonneg_nonneg; lia. }
    assert (X3 : a2 * (B1 * K) < 2 * P * B2 * (B1 * K))
      by (apply Z.mul_lt_mono_pos_r; lia).
    nia.
Qed.

Lemma fexp_ge_emin e : emin <= fexp prec emax e.
Proof. unfold fexp, F32.emin, SpecFloat.emin. lia. Qed.

Lemma fexp_mono e1 e2 : e1 <= e2 -> fexp prec emax e1 <= fexp prec emax e2.
Proof. unfold fexp. lia. Qed.

Lemma fexp_eq e : fexp prec emax e = Z.max (e - prec) emin.
Proof. reflexivity. Qed.

(** What [binary_round_aux] returns for the quotient [a / b] at exponent
    [e]: the quotient is cut at the canonical exponent, rounded to nearest
    even, and finished. *)
Lemma round_quotient s a b e :
  0 <= a -> 0 < b ->
  let n := fexp prec emax (Zdigits2 (a / b) + e) - e in
  0 <= n ->
  binary_round_aux prec emax s (a / b) e (locOf b (a mod b)) =
    finish s (rne a (b * 2 ^ n)) (e + n) /\
  canonCut a (b * 2 ^ n) (e + n).
Proof.
  intros Ha Hb n Hn. split; [apply binary_round_aux_quotient; assumption|].
  assert (Hq : 0 <= a / b) by (apply Z.div_pos; lia).
  assert (Hp : 0 < 2 ^ n) by (apply Z.pow_pos_nonneg; lia).
  assert (Hdd : a / (b * 2 ^ n) = a / b / 2 ^ n) by (rewrite Z.div_div; lia).
  unfold canonCut. rewrite Hdd. set (q := a / b) in *.
  assert (Hup := Zdigits2_upper q Hq).
  assert (Hd0 := Zdigits2_nonneg q).
  assert (Hn' : n = Z.max (Zdigits2 q + e - prec) emin - e) by reflexivity.
  repeat split.
  - lia.
  - apply Z.div_lt_upper_bound; [assumption|].
    rewrite <- Z.pow_add_r by (unfold prec; lia).
    apply Z.lt_le_trans with (1 := Hup). apply Z.pow_le_mono_r; lia.
  - intros Hgt.
    assert (En : n = Zdigits2 q - prec) by lia.
    assert (Hqpos : 0 < q).
    { destruct (Z.eq_dec q 0) as [E0|]; [|lia]. rewrite E0 in En. cbn in En. unfold prec in *. lia. }
    assert (Hlo := Zdigits2_bounds q Hqpos).
    apply Z.div_le_lower_bound; [assumption|].
    rewrite <- Z.pow_add_r by (unfold prec; lia).
    replace (n + (prec - 1)) with (Zdigits2 q - 1) by lia. lia.
Qed.

Lemma SFdiv_core_binary_eq mx ex my ey :
  SFdiv_core_binary prec emax (Z.pos mx) ex (Z.pos my) ey =
  (divNum mx ex my ey / Z.pos my, divExp mx ex my ey,
   locOf (Z.pos my) (divNum mx ex my ey mod Z.pos my)).
Proof.
  unfold SFdiv_core_binary. cbn [Zdigits2]. fold (divExp mx ex my ey).
  assert (Hs : 0 <= ex - ey - divExp mx ex my ey) by (unfold divExp; lia).
  assert (Hm : match ex - ey - divExp mx ex my ey with
               | 0 => Z.pos mx
               | Z.pos _ => Z.shiftl (Z.pos mx) (ex - ey - divExp mx ex my ey)
               | Z.neg _ => 0
               end = divNum mx ex my ey).
  { unfold divNum. remember (ex - ey - divExp mx ex my ey) as s eqn:E.
    destruct s as [|p|p]; [rewrite Z.pow_0_r; lia| |lia].
    rewrite Z.shiftl_mul_pow2 by lia. reflexivity. }
  rewrite Hm. set (a := divNum mx ex my ey).
  assert (Ha : 0 < a) by (unfold a, divNum; apply Z.mul_pos_pos; [lia|apply Z.pow_pos_nonneg; lia]).
  unfold Z.div, Z.modulo. destruct (Z.div_eucl a (Z.pos my)) as [q r] eqn:E.
  rewrite new_location_locOf; [reflexivity|].
  assert (X := Z.mod_pos_bound a (Z.pos my) ltac:(lia)).
  unfold Z.modulo in X. rewrite E in X. exact X.
Qed.

Lemma divShift_nonneg mx ex my ey : 0 <= divShift mx ex my ey.
Proof.
  unfold divShift. set (e' := divExp mx ex my ey). set (a := divNum mx ex my ey).
  set (d1 := Z.pos (digits2_pos mx)). set (d2 := Z.pos (digits2_pos my)).
  set (s := ex - ey - e').
  assert (He' : e' <= fexp prec emax (d1 + ex - (d2 + ey))) by (unfold e', divExp; fold d1 d2; lia).
  assert (Hs : 0 <= s) by (unfold s, e', divExp; lia).
  assert (B1 := digits2_pos_bounds mx). assert (B2 := digits2_pos_bounds my). fold d1 in B1. fold d2 in B2.
  assert (Hps : 0 < 2 ^ s) by (apply Z.pow_pos_nonneg; lia).
  assert (Ha : a = Z.pos mx * 2 ^ s) by reflexivity.
  assert (Hq0 : 0 <= a / Z.pos my) by (apply Z.div_pos; nia).
  destruct (Z.eq_dec (a / Z.pos my) 0) as [E0|N0].
  - (* the quotient is below one: the exponent is already the least one *)
    rewrite E0. cbn [Zdigits2]. rewrite Z.add_0_l.
    assert (Hlt : a < Z.pos my).
    { apply Z.div_small_iff in E0; lia. }
    assert (Hd : d1 + s <= d2).
    { destruct (Z_le_gt_dec (d1 + s) d2) as [|G]; [assumption|exfalso].
      assert (2 ^ d2 <= 2 ^ (d1 - 1 + s)) by (apply Z.pow_le_mono_r; lia).
      rewrite Z.pow_add_r in H by lia. nia. }
    rewrite fexp_eq in *. unfold emin, prec, emax in *. lia.
  - assert (Hd : d1 + s - d2 <= Zdigits2 (a / Z.pos my)).
    { destruct (Z_le_gt_dec (d1 + s - d2) 0) as [L|G].
      - assert (X := Zdigits2_nonneg (a / Z.pos my)). lia.
      - apply Zdigits2_ge; [|lia].
        apply Z.div_le_lower_bound; [lia|].
        apply Z.le_trans with (2 ^ d2 * 2 ^ (d1 + s - d2 - 1)).
        + apply Z.mul_le_mono_nonneg_r; [apply Z.pow_nonneg; lia|lia].
        + rewrite <- Z.pow_add_r by lia.
          replace (d2 + (d1 + s - d2 - 1)) with ((d1 - 1) + s) by lia.
          rewrite Z.pow_add_r by lia. rewrite Ha. apply Z.mul_le_mono_nonneg_r; lia. }
    assert (M := fexp_mono (d1 + ex - (d2 + ey)) (Zdigits2 (a / Z.pos my) + e') ltac:(lia)).
    lia.
Qed.

(** [SFdiv] on finite numbers: the quotient of [divNum] by the divisor
    mantissa, cut at a canonical exponent and rounded to nearest even. *)
Lemma SFdiv_finite sx mx ex sy my ey :
  let a := divNum mx ex my ey in
  let B := Z.pos my * 2 ^ divShift mx ex my ey in
  let t := divExp mx ex my ey + divShift mx ex my ey in
  SFdiv prec emax (S754_finite sx mx ex) (S754_finite sy my ey) =
    finish (xorb sx sy) (rne a B) t /\ canonCut a B t.
Proof.
  intros a B t. cbn [SFdiv]. rewrite SFdiv_core_binary_eq.
  assert (Ha : 0 <= divNum mx ex my ey).
  { unfold divNum. apply Z.mul_nonneg_nonneg; [lia|apply Z.pow_nonneg; lia]. }
  exact (round_quotient (xorb sx sy) (divNum mx ex my ey) (Z.pos my)
           (divExp mx ex my ey) Ha ltac:(lia) (divShift_nonneg mx ex my ey)).
Qed.

Lemma valid_finite_bounds s m e :
  valid_binary prec emax (S754_finite s m e) = true ->
  emin <= e <= emax - prec /\ Z.pos m < 2 ^ prec /\
  (emin < e -> 2 ^ (prec - 1) <= Z.pos m).
Proof.
  cbn [valid_binary]. unfold bounded, canonical_mantissa.
  rewrite andb_true_iff, Z.eqb_eq, Z.leb_le, fexp_eq. intros [Hc He].
  assert (B := digits2_pos_bounds m). set (d := Z.pos (digits2_pos m)) in *.
  assert (Hd : d <= prec) by lia.
  repeat split; try lia.
  - apply Z.lt_le_trans with (2 ^ d); [lia|]. apply Z.pow_le_mono_r; lia.
  - intros Hgt. assert (d = prec) by lia. subst d. rewrite <- H. lia.
Qed.

(** Order of two valid positive numbers as the order of their values. *)
Lemma leb_value m1 e1 m2 e2 :
  valid_binary prec emax (S754_finite false m1 e1) = true ->
  valid_binary prec emax (S754_finite false m2 e2) = true ->
  SFleb (S754_finite false m1 e1) (S754_finite false m2 e2) = true ->
  Z.pos m1 * 2 ^ (e1 - Z.min e1 e2) <= Z.pos m2 * 2 ^ (e2 - Z.min e1 e2).
Proof.
  intros V1 V2 H. apply SFleb_finite_pos in H.
  destruct (valid_finite_bounds _ _ _ V1) as (E1 & U1 & L1).
  destruct (valid_finite_bounds _ _ _ V2) as (E2 & U2 & L2).
  destruct H as [Hlt|[-> Hle]].
  - rewrite Z.min_l by lia. rewrite Z.sub_diag, Z.pow_0_r, Z.mul_1_r.
    specialize (L2 ltac:(lia)).
    assert (2 ^ 1 <= 2 ^ (e2 - e1)) by (apply Z.pow_le_mono_r; lia).
    change (2 ^ 1) with 2 in H. change (2 ^ prec) with (2 * 2 ^ (prec - 1)) in U1.
    nia.
  - rewrite Z.min_id, Z.sub_diag, Z.pow_0_r. lia.
Qed.

(** Division by a positive finite number is monotone on the positive
    well-formed numbers. *)
Lemma SFdiv_mono_pos m1 e1 m2 e2 mc ec :
  valid_binary prec emax (S754_finite false m1 e1) = true ->
  valid_binary prec emax (S754_finite false m2 e2) = true ->
  SFleb (S754_finite false m1 e1) (S754_finite false m2 e2) = true ->
  SFleb (SFdiv prec emax (S754_finite false m1 e1) (S754_finite false mc ec))
        (SFdiv prec emax (S754_finite false m2 e2) (S754_finite false mc ec)) = true.
Proof.
  intros V1 V2 H. assert (HV := leb_value _ _ _ _ V1 V2 H).
  destruct (SFdiv_finite false m1 e1 false mc ec) as [-> C1].
  destruct (SFdiv_finite false m2 e2 false mc ec) as [-> C2].
  cbn [xorb].
  assert (N1 := divShift_nonneg m1 e1 mc ec). assert (N2 := divShift_nonneg m2 e2 mc ec).
  set (n1 := divShift m1 e1 mc ec) in *. set (n2 := divShift m2 e2 mc ec) in *.
  set (x1 := divExp m1 e1 mc ec) in *. set (x2 := divExp m2 e2 mc ec) in *.
  assert (S1 : 0 <= e1 - ec - x1) by (unfold x1, divExp; lia).
  assert (S2 : 0 <= e2 - ec - x2) by (unfold x2, divExp; lia).
  set (t0 := Z.min (x1 + n1) (x2 + n2)).
  assert (P1 : 0 < 2 ^ n1) by (apply Z.pow_pos_nonneg; lia).
  assert (P2 : 0 < 2 ^ n2) by (apply Z.pow_pos_nonneg; lia).
  assert (A1 : 0 <= divNum m1 e1 mc ec)
    by (unfold divNum; apply Z.mul_nonneg_nonneg; [lia|apply Z.pow_nonneg; lia]).
  assert (A2 : 0 <= divNum m2 e2 mc ec)
    by (unfold divNum; apply Z.mul_nonneg_nonneg; [lia|apply Z.pow_nonneg; lia]).
  apply finish_rne_le with (k1 := x1 + n1 - t0) (k2 := x2 + n2 - t0);
    try assumption; try lia.
  unfold divNum. fold x1 x2.
  set (e0 := Z.min e1 e2) in *.
  (* both sides carry the common factor [mc * 2 ^ w] *)
  set (w := (e1 - ec - x1) + n2 + (x1 + n1 - t0) - (e1 - e0)).
  assert (Hw : 0 <= w) by (unfold w, t0, e0; lia).
  assert (L : Z.pos m1 * 2 ^ (e1 - ec - x1) * (Z.pos mc * 2 ^ n2) * 2 ^ (x1 + n1 - t0)
              = Z.pos m1 * 2 ^ (e1 - e0) * (Z.pos mc * 2 ^ w)).
  { replace (2 ^ w) with (2 ^ (e1 - ec - x1 + n2 + (x1 + n1 - t0) - (e1 - e0))) by reflexivity.
    assert (E : 2 ^ (e1 - ec - x1) * 2 ^ n2 * 2 ^ (x1 + n1 - t0)
                = 2 ^ (e1 - e0) * 2 ^ (e1 - ec - x1 + n2 + (x1 + n1 - t0) - (e1 - e0))).
    { rewrite <- !Z.pow_add_r by (unfold t0, e0; lia). f_equal. lia. }
    nia. }
  assert (R : Z.pos m2 * 2 ^ (e2 - ec - x2) * (Z.pos mc * 2 ^ n1) * 2 ^ (x2 + n2 - t0)
              = Z.pos m2 * 2 ^ (e2 - e0) * (Z.pos mc * 2 ^ w)).
  { assert (E : 2 ^ (e2 - ec - x2) * 2 ^ n1 * 2 ^ (x2 + n2 - t0)
                = 2 ^ (e2 - e0) * 2 ^ w).
    { rewrite <- !Z.pow_add_r by (unfold w, t0, e0; lia). f_equal. unfold w. lia. }
    nia. }
  rewrite L, R. apply Z.mul_le_mono_nonneg_r; [|exact HV].
  apply Z.mul_nonneg_nonneg; [lia|apply Z.pow_nonneg; lia].
Qed.

Lemma shr_1_nonneg r : 0 <= shr_m r -> 0 <= shr_m (shr_1 r).
Proof. destruct r as [[|[p|p|]|p] r s]; cbn; lia. Qed.

Lemma shr_nonneg r e n : 0 <= shr_m r -> 0 <= shr_m (fst (shr r e n)).
Proof.
  intros H. unfold shr. destruct n as [|p|p]; cbn [fst]; try assumption.
  rewrite iter_pos_nat. induction (Pos.to_nat p) as [|k IH]; [assumption|].
  rewrite Nat.iter_succ. apply shr_1_nonneg, IH.
Qed.

Lemma finish_hasSign s M t : 0 <= M -> hasSign s (finish s M t) = true.
Proof.
  intros HM. unfold finish, shr_fexp.
  assert (H := shr_nonneg (shr_record_of_loc M loc_Exact) t
                 (fexp prec emax (Zdigits2 M + t) - t) HM).
  destruct (shr (shr_record_of_loc M loc_Exact) t
              (fexp prec emax (Zdigits2 M + t) - t)) as [mrs e].
  cbn [fst] in H. destruct (shr_m mrs); try lia.
  - cbn. apply eqb_reflx.
  - destruct (e <=? emax - prec); cbn; apply eqb_reflx.
Qed.

Lemma binary_round_aux_hasSign s m e l :
  0 <= m -> hasSign s (binary_round_aux prec emax s m e l) = true.
Proof.
  intros Hm. rewrite binary_round_aux_finish. unfold shr_fexp.
  assert (H := shr_nonneg (shr_record_of_loc m l) e
                 (fexp prec emax (Zdigits2 m + e) - e)).
  rewrite shr_m_of_loc in H. specialize (H Hm).
  destruct (shr (shr_record_of_loc m l) e (fexp prec emax (Zdigits2 m + e) - e)) as [mrs e'].
  cbn [fst] in H. apply finish_hasSign.
  assert (B := round_nearest_even_bounds (shr_m mrs) (loc_of_shr_record mrs)). lia.
Qed.

Lemma SFdiv_hasSign sx mx ex sy my ey :
  hasSign (xorb sx sy) (SFdiv prec emax (S754_finite sx mx ex) (S754_finite sy my ey)) = true.
Proof.
  cbn [SFdiv]. rewrite SFdiv_core_binary_eq. apply binary_round_aux_hasSign.
  apply Z.div_pos; [|lia]. unfold divNum. apply Z.mul_nonneg_nonneg; [lia|apply Z.pow_nonneg; lia].
Qed.

Lemma zero_eq : F32.zero = S754_zero false.
Proof. reflexivity. Qed.
Lemma one_eq : F32.one = S754_finite false 8388608 (-23).
Proof. reflexivity. Qed.

Lemma SFltb_finite_pos m1 e1 m2 e2 :
  SFltb (S754_finite false m1 e1) (S754_finite false m2 e2) = true <->
  e1 < e2 \/ (e1 = e2 /\ Z.pos m1 < Z.pos m2).
Proof.
  unfold SFltb, SFcompare. rewrite Pos.compare_cont_spec. cbn [Pos.switch_Eq].
  destruct (Z.compare_spec e1 e2); destruct (Pos.compare_spec m1 m2);
    (split; [intros HH | intros [HH|[HH1 HH2]]]);
    try discriminate; try reflexivity; try lia.
Qed.

(** [saturate] case by case. *)
Lemma saturate_zero s : Hlsl.saturate (S754_zero s) = S754_zero s.
Proof. destruct s; reflexivity. Qed.
Lemma saturate_nan : Hlsl.saturate S754_nan = S754_zero false.
Proof. reflexivity. Qed.
Lemma saturate_inf s :
  Hlsl.saturate (S754_infinity s) = if s then S754_zero false else F32.one.
Proof. destruct s; reflexivity. Qed.
Lemma saturate_neg m e : Hlsl.saturate (S754_finite true m e) = S754_zero false.
Proof. reflexivity. Qed.
Lemma saturate_pos m e :
  Hlsl.saturate (S754_finite false m e) =
  if SFltb F32.one (S754_finite false m e) then F32.one else S754_finite false m e.
Proof. reflexivity. Qed.

Lemma saturate_nonneg x s : SFleb (S754_zero s) (Hlsl.saturate x) = true.
Proof.
  destruct x as [s'|[]| |[] m e]; try rewrite saturate_pos;
    try destruct (SFltb _ _); destruct s; reflexivity.
Qed.

Lemma saturate_le_one x : SFleb (Hlsl.saturate x) F32.one = true.
Proof.
  destruct x as [s'|[]| |[] m e]; try reflexivity.
  rewrite saturate_pos. destruct (SFltb _ _) eqn:E; [reflexivity|].
  rewrite one_eq in *. apply SFleb_finite_pos.
  destruct (Z_lt_ge_dec e (-23)) as [|G]; [lia|].
  destruct (Z.eq_dec e (-23)) as [->|N].
  - destruct (Z_le_gt_dec (Z.pos m) 8388608); [lia|].
    assert (X : SFltb (S754_finite false 8388608 (-23)) (S754_finite false m (-23)) = true)
      by (apply SFltb_finite_pos; lia). congruence.
  - assert (X : SFltb (S754_finite false 8388608 (-23)) (S754_finite false m e) = true)
      by (apply SFltb_finite_pos; lia). congruence.
Qed.

Lemma saturate_ge_one x : SFleb F32.one x = true -> Hlsl.saturate x = F32.one.
Proof.
  destruct x as [s'|[]| |[] m e]; try discriminate; try reflexivity.
  intros H. rewrite saturate_pos. destruct (SFltb _ _) eqn:E; [reflexivity|].
  rewrite one_eq in *. apply SFleb_finite_pos in H.
  destruct H as [H|[H1 H2]].
  - assert (X : SFltb (S754_finite false 8388608 (-23)) (S754_finite false m e) = true)
      by (apply SFltb_finite_pos; lia). congruence.
  - subst e. destruct (Z.eq_dec (Z.pos m) 8388608) as [Em|Nm].
    + injection Em as ->. reflexivity.
    + assert (X : SFltb (S754_finite false 8388608 (-23)) (S754_finite false m (-23)) = true)
        by (apply SFltb_finite_pos; lia). congruence.
Qed.

Lemma saturate_mono_nonneg u v :
  hasSign false u = true -> hasSign false v = true ->
  SFleb u v = true -> SFleb (Hlsl.saturate u) (Hlsl.saturate v) = true.
Proof.
  intros Hu Hv H.
  destruct u as [su|su| |su mu eu]; try discriminate; destruct su; try discriminate.
  - rewrite saturate_zero. apply saturate_nonneg.
  - destruct v as [sv|sv| |sv mv ev]; try discriminate; destruct sv; try discriminate.
    reflexivity.
  - destruct v as [sv|sv| |sv mv ev]; try discriminate; destruct sv; try discriminate.
    + rewrite (saturate_inf false). apply saturate_le_one.
    + rewrite !saturate_pos.
      destruct (SFltb F32.one (S754_finite false mv ev)) eqn:Ev.
      * destruct (SFltb F32.one (S754_finite false mu eu)) eqn:Eu; [reflexivity|].
        assert (X := saturate_le_one (S754_finite false mu eu)).
        rewrite saturate_pos, Eu in X. exact X.
      * destruct (SFltb F32.one (S754_finite false mu eu)) eqn:Eu; [|exact H].
        exfalso. rewrite one_eq in *.
        apply SFltb_finite_pos in Eu. apply SFleb_finite_pos in H.
        assert (X : SFltb (S754_finite false 8388608 (-23)) (S754_finite false mv ev) = true)
          by (apply SFltb_finite_pos; lia). congruence.
Qed.

(** Dividing by a positive finite number and clamping is monotone. *)
Lemma saturate_div_mono d1 d2 mc ec :
  F32.valid d1 = true -> F32.valid d2 = true -> SFleb d1 d2 = true ->
  SFleb (Hlsl.saturate (F32.div d1 (S754_finite false mc ec)))
        (Hlsl.saturate (F32.div d2 (S754_finite false mc ec))) = true.
Proof.
  intros V1 V2 H. unfold F32.div.
  destruct d1 as [s1|s1| |s1 m1 e1]; try discriminate.
  - (* a zero numerator *)
    cbn [SFdiv]. rewrite saturate_zero. apply saturate_nonneg.
  - destruct s1.
    + cbn [SFdiv xorb]. rewrite (saturate_inf true). apply saturate_nonneg.
    + destruct d2 as [s2|s2| |s2 m2 e2]; try discriminate; destruct s2; try discriminate.
      reflexivity.
  - destruct s1.
    + (* a negative numerator gives a quotient that is clamped to zero *)
      assert (S := SFdiv_hasSign true m1 e1 false mc ec). cbn [xorb] in S.
      destruct (SFdiv prec emax (S754_finite true m1 e1) (S754_finite false mc ec))
        as [s|s| |s m e] eqn:E; try discriminate; destruct s; try discriminate.
      * rewrite saturate_zero. apply saturate_nonneg.
      * rewrite (saturate_inf true). apply saturate_nonneg.
      * rewrite saturate_neg. apply saturate_nonneg.
    + destruct d2 as [s2|s2| |s2 m2 e2]; try discriminate; destruct s2; try discriminate.
      * cbn [SFdiv xorb]. rewrite (saturate_inf false). apply saturate_le_one.
      * apply saturate_mono_nonneg.
        -- apply (SFdiv_hasSign false m1 e1 false mc ec).
        -- apply (SFdiv_hasSign false m2 e2 false mc ec).
        -- apply SFdiv_mono_pos; assumption.
Qed.

Lemma round_exact s a e :
  0 <= a ->
  let n := fexp prec emax (Zdigits2 a + e) - e in
  0 <= n ->
  binary_round_aux prec emax s a e loc_Exact = finish s (rne a (2 ^ n)) (e + n) /\
  canonCut a (2 ^ n) (e + n).
Proof.
  intros Ha n Hn.
  assert (H := round_quotient s a 1 e Ha ltac:(lia)).
  rewrite Z.div_1_r, Z.mod_1_r in H. cbv zeta in H. fold n in H.
  rewrite Z.mul_1_l in H. exact (H Hn).
Qed.

Lemma Zdigits2_mul_pow2 m k : 0 < m -> 0 <= k ->
  Zdigits2 (m * 2 ^ k) = Zdigits2 m + k.
Proof.
  intros Hm Hk. assert (B := Zdigits2_bounds m Hm).
  assert (D := Zdigits2_nonneg m).
  assert (P : 0 < 2 ^ k) by (apply Z.pow_pos_nonneg; lia).
  assert (D1 : 1 <= Zdigits2 m) by (destruct m; cbn in *; lia).
  apply Z.le_antisymm.
  - apply Zdigits2_le; [lia|]. rewrite Z.pow_add_r by lia. nia.
  - apply Zdigits2_ge; [|lia].
    replace (Zdigits2 m + k - 1) with (Zdigits2 m - 1 + k) by lia.
    rewrite Z.pow_add_r by lia. nia.
Qed.

Lemma valid_canonical s m e :
  valid_binary prec emax (S754_finite s m e) = true ->
  fexp prec emax (Zdigits2 (Z.pos m) + e) = e /\ e <= emax - prec.
Proof.
  cbn [valid_binary]. unfold bounded, canonical_mantissa.
  rewrite andb_true_iff, Z.eqb_eq, Z.leb_le. cbn [Zdigits2]. tauto.
Qed.

(** Multiplying a well-formed number by -1 is exact: it only flips the
    sign. *)
Lemma SFmul_minus_one x :
  F32.valid x = true -> F32.mul x (F32.of_Z (-1)) = F32.opp x.
Proof.
  intros V. change (F32.of_Z (-1)) with (S754_finite true 8388608 (-23)).
  destruct x as [s|s| |s m e]; try reflexivity; try (destruct s; reflexivity).
  unfold F32.mul, F32.opp. cbn [SFmul SFopp].
  destruct (valid_canonical s m e V) as [Hc He].
  destruct (valid_finite_bounds s m e V) as (E1 & U1 & _).
  change (Z.pos (m * 8388608)) with (Z.pos m * 2 ^ 23).
  assert (Hd : Zdigits2 (Z.pos m * 2 ^ 23) = Zdigits2 (Z.pos m) + 23)
    by (apply Zdigits2_mul_pow2; lia).
  assert (Hn : fexp prec emax (Zdigits2 (Z.pos m * 2 ^ 23) + (e + -23)) - (e + -23) = 23).
  { rewrite Hd. replace (Zdigits2 (Z.pos m) + 23 + (e + -23)) with (Zdigits2 (Z.pos m) + e) by lia.
    rewrite Hc. lia. }
  destruct (round_exact (xorb s true) (Z.pos m * 2 ^ 23) (e + -23) ltac:(lia)) as [R _].
  { rewrite Hn. lia. }
  rewrite R, Hn. unfold rne.
  rewrite Z.div_mul, Z_mod_mult by lia. cbn [locOf Z.eqb round_nearest_even].
  replace (e + -23 + 23) with e by lia.
  rewrite finish_small by (unfold emin in E1; lia).
  apply Z.leb_le in He. rewrite He. rewrite xorb_true_r. reflexivity.
Qed.

Lemma SFmul_half_finite x :
  F32.valid x = true -> F32.is_finite x = true ->
  F32.is_finite (F32.mul (F32.lit 5 10) x) = true.
Proof.
  intros V F. change (F32.lit 5 10) with (S754_finite false 8388608 (-24)).
  destruct x as [s|s| |s m e]; try discriminate; [reflexivity|].
  unfold F32.mul. cbn [SFmul].
  destruct (valid_canonical s m e V) as [Hc He].
  destruct (valid_finite_bounds s m e V) as (E1 & U1 & _).
  change (Z.pos (8388608 * m)) with (2 ^ 23 * Z.pos m). rewrite (Z.mul_comm (2 ^ 23)).
  assert (Hd : Zdigits2 (Z.pos m * 2 ^ 23) = Zdigits2 (Z.pos m) + 23)
    by (apply Zdigits2_mul_pow2; lia).
  assert (Dm : 1 <= Zdigits2 (Z.pos m) <= prec).
  { split; [cbn; lia|]. apply Zdigits2_le; unfold prec in *; lia. }
  set (n := fexp prec emax (Zdigits2 (Z.pos m * 2 ^ 23) + (-24 + e)) - (-24 + e)).
  assert (Hn : 0 <= n /\ -24 + e + n <= emax - prec - 1).
  { unfold n. rewrite Hd, fexp_eq. unfold emin, prec, emax in *. lia. }
  destruct (round_exact (xorb false s) (Z.pos m * 2 ^ 23) (-24 + e) ltac:(lia)) as [R C].
  { fold n. lia. }
  fold n in R, C. rewrite R.
  destruct C as (Ct & Cu & _).
  assert (B := rne_bounds (Z.pos m * 2 ^ 23) (2 ^ n)).
  assert (Q : 0 <= Z.pos m * 2 ^ 23 / 2 ^ n).
  { apply Z.div_pos; [lia|apply Z.pow_pos_nonneg; lia]. }
  destruct (finish_cases (xorb false s) (rne (Z.pos m * 2 ^ 23) (2 ^ n)) (-24 + e + n) Ct ltac:(lia))
    as [[A ->]|[[A [B' ->]]|[[A [B' ->]]|[[A [B' ->]]|[A [B' ->]]]]]]; try reflexivity; lia.
Qed.

Lemma binary_normalize_not_nan m e sz :
  F32.is_nan (binary_normalize prec emax m e sz) = false.
Proof.
  unfold binary_normalize, binary_round. destruct m as [|p|p]; [reflexivity| |].
  - destruct (shl_align p e _) as [mz ez].
    assert (H := binary_round_aux_hasSign false (Z.pos mz) ez loc_Exact ltac:(lia)).
    destruct (binary_round_aux _ _ _ _ _ _); try discriminate; reflexivity.
  - destruct (shl_align p e _) as [mz ez].
    assert (H := binary_round_aux_hasSign true (Z.pos mz) ez loc_Exact ltac:(lia)).
    destruct (binary_round_aux _ _ _ _ _ _); try discriminate; reflexivity.
Qed.

Lemma add_not_nan x y :
  F32.is_nan x = false -> F32.is_finite y = true -> F32.is_nan (F32.add x y) = false.
Proof.
  intros Hx Hy. unfold F32.add.
  destruct x as [sx|sx| |sx mx ex]; try discriminate;
  destruct y as [sy|sy| |sy my ey]; try discriminate;
  try reflexivity; try (destruct sx, sy; reflexivity).
  cbn [SFadd]. apply binary_normalize_not_nan.
Qed.

Lemma sub_not_nan x y :
  F32.is_nan x = false -> F32.is_finite y = true -> F32.is_nan (F32.sub x y) = false.
Proof.
  intros Hx Hy. unfold F32.sub.
  destruct x as [sx|sx| |sx mx ex]; try discriminate;
  destruct y as [sy|sy| |sy my ey]; try discriminate;
  try reflexivity; try (destruct sx, sy; reflexivity).
  cbn [SFsub]. apply binary_normalize_not_nan.
Qed.

Lemma clamp_nonneg w :
  F32.is_nan w = false ->
  let r := if F32.ltb w (F32.of_Z 0) then F32.of_Z 0 else w in
  F32.is_nan r = false /\ F32.leb (F32.of_Z 0) r = true.
Proof.
  intros H. change (F32.of_Z 0) with (S754_zero false).
  destruct w as [s|s| |s m e]; try discriminate; destruct s; cbn; auto.
Qed.

Lemma updateWaveScale_nonneg K ft w :
  F32.valid ft = true -> F32.is_finite ft = true -> F32.is_nan w = false ->
  F32.is_nan (Scene.updateWaveScale K ft w) = false /\
  F32.leb (F32.of_Z 0) (Scene.updateWaveScale K ft w) = true.
Proof.
  intros V F N. unfold Scene.updateWaveScale.
  assert (D := SFmul_half_finite ft V F).
  apply clamp_nonneg.
  destruct (K Scene.Key_Minus); destruct (K Scene.Key_Plus);
    repeat (first [apply sub_not_nan | apply add_not_nan]); assumption.
Qed.

(** The alpha channel: a quotient of a depth that is not negative is
    neither negative nor a NaN, so clamping from below is the identity. *)
Lemma saturate_min_of_nonneg d mc ec :
  F32.leb F32.zero d = true ->
  Hlsl.saturate (F32.div d (S754_finite false mc ec)) =
  Hlsl.min (F32.div d (S754_finite false mc ec)) F32.one.
Proof.
  intros H. unfold Hlsl.saturate. f_equal.
  unfold F32.div. rewrite zero_eq in *.
  destruct d as [s|s| |s m e]; try discriminate.
  - destruct s; reflexivity.
  - destruct s; [discriminate|reflexivity].
  - destruct s; [discriminate|].
    assert (S := SFdiv_hasSign false m e false mc ec). cbn [xorb] in S.
      destruct (SFdiv prec emax _ _) as [s|s| |s m' e']; try discriminate;
      destruct s; try discriminate; reflexivity.
Qed.

Lemma leb_zero_not_ltb d : F32.leb F32.zero d = true -> F32.ltb d F32.zero = false.
Proof.
  rewrite zero_eq. destruct d as [s|s| |s m e]; try discriminate;
    destruct s; try discriminate; reflexivity.
Qed.

End RoundingFacts.

(* ===================================================================== *)
(** * The water update keeps the wave scale well-formed *)
(* ===================================================================== *)

Lemma UpdateScene_waveScale keys ft w :
  let w' := Scene.finalWorld (Scene.UpdateScene keys ft w) in
  Scene.waveScaleStatic w' =
    Scene.updateWaveScale keys ft (Scene.waveScaleStatic w) /\
  CommonH.waveScale (Scene.gPerFrameConstants w') = Scene.waveScaleStatic w'.
Proof. split; reflexivity. Qed.

Lemma runUpdates_waveScale inputs : forall w,
  Forall Scene.goodInput inputs ->
  F32.is_nan (Scene.waveScaleStatic w) = false ->
  F32.is_nan (Scene.waveScaleStatic (Scene.runUpdates inputs w)) = false /\
  (inputs <> [] ->
   F32.leb (F32.of_Z 0)
     (CommonH.waveScale (Scene.gPerFrameConstants (Scene.runUpdates inputs w)))
   = true).
Proof.
  induction inputs as [|[keys ft] rest IH]; intros w HF HN.
  - split; [exact HN|]. intros C. contradiction.
  - inversion HF as [|i l [Hv Hf] HF' Ei]; subst. cbn [snd] in Hv, Hf.
    cbn [Scene.runUpdates].
    destruct (UpdateScene_waveScale keys ft w) as [Es Ec].
    destruct (RoundingFacts.updateWaveScale_nonneg keys ft
                (Scene.waveScaleStatic w) Hv Hf HN) as [N1 L1].
    set (w1 := Scene.finalWorld (Scene.UpdateScene keys ft w)) in *.
    rewrite <- Es in N1, L1.
    destruct (IH w1 HF' N1) as [N2 L2]. split; [exact N2|].
    intros _. destruct rest as [|i rest'].
    + cbn [Scene.runUpdates]. rewrite Ec. exact L1.
    + apply L2. discriminate.
Qed.

(** A call sequence that is safe from a device state is free of hazards
    after each of its prefixes. *)
Lemma safe_prefix cs : forall d, Scene.safe d cs ->
  forall pre post, cs = pre ++ post -> ~ Scene.hazard (Scene.run d pre).
Proof.
  induction cs as [|c cs IH]; intros d [H0 H] pre post E.
  - destruct pre; [exact H0|discriminate].
  - destruct pre as [|c' pre]; [exact H0|].
    injection E as -> E. cbn [Scene.run fold_left]. apply (IH _ H pre post E).
Qed.

Lemma initialDevice_frameStart : Scene.frameStart Scene.initialDevice.
Proof. intros slot v [E|E]; discriminate E. Qed.

(* ===================================================================== *)
(** * The shaders *)
(* ===================================================================== *)

(** The wave amplitude is 400 / 32 = 12.5 world units. *)
Example MaxWaveHeight_value : CommonHlsli.MaxWaveHeight = F32.lit 125 10.
Proof. reflexivity. Qed.

(** Where the height map is 1 in all four octaves, a wave scale of 1 lifts
    the vertex by (0.25 * 4 - 0.5) * 12.5 = 6.25. *)
Example yOffset_of_full_height :
  WaveHeightField.yOffset (fun _ => Float4 F32.zero F32.zero F32.zero F32.one)
    (Float2 (F32.lit 3 10) (F32.lit 7 10)) (Float2 F32.zero F32.zero)
    (F32.of_Z 1)
  = F32.lit 625 100.
Proof. reflexivity. Qed.

(** A pixel one unit above flat water is discarded. *)
Example pixel_above_water_discarded :
  RefractedPixelLighting_ps.main Examples.flatWater Examples.shaderConstants
    Examples.greyLighting (Examples.pixelAt (F32.of_Z 11)) = None.
Proof. reflexivity. Qed.

(** Half a unit of depth darkens red by 0.5 / 9, and 1.7f is not 17 / 10:
    the literal is the nearest binary32 number. *)
Example literals_are_rounded :
  F32.lit 17 10 = S754_finite false 14260634 (-23) /\
  x3 (RefractedPixelLighting_ps.depthDarken (F32.lit 5 10))
    = F32.div (F32.lit 5 10) (F32.of_Z 9).
Proof. split; reflexivity. Qed.

(** C1. The Y offset that the water-surface vertex shader adds to a vertex is
    the wave height field: the alpha channel of the height/normal texture
    sampled at the scales 0.5, 1, 2, 4, each paired with the scroll speed
    0.5, 1, 1.7, 2.6; the four heights summed, multiplied by 0.25, reduced
    by 0.5, multiplied by MaxWaveHeight and by the wave scale.  It holds for
    every texture, UV coordinate, movement offset and wave scale. *)
Theorem wave_displacement_is_height_field :
  forall (NormalHeightMap : Texture2D) (cb : CommonHlsli.PerFrameConstants)
         (input : CommonHlsli.BasicVertex),
    WaveHeightField.octaves =
      [ {| WaveHeightField.scale := CommonHlsli.WaterSize1;
           WaveHeightField.speed := CommonHlsli.WaterSpeed1 |};
        {| WaveHeightField.scale := CommonHlsli.WaterSize2;
           WaveHeightField.speed := CommonHlsli.WaterSpeed2 |};
        {| WaveHeightField.scale := CommonHlsli.WaterSize3;
           WaveHeightField.speed := CommonHlsli.WaterSpeed3 |};
        {| WaveHeightField.scale := CommonHlsli.WaterSize4;
           WaveHeightField.speed := CommonHlsli.WaterSpeed4 |} ] /\
    WaveHeightField.maxWaveHeight = CommonHlsli.MaxWaveHeight /\
    WaterSurface_vs.displacedModelPosition NormalHeightMap cb input =
      Float4 (x3 (CommonHlsli.position input))
             (F32.add (y3 (CommonHlsli.position input))
                (WaveHeightField.yOffset NormalHeightMap
                   (CommonHlsli.uv input) (CommonHlsli.gWaterMovement cb)
                   (CommonHlsli.gWaveScale cb)))
             (z3 (CommonHlsli.position input)) F32.one.
Proof. intros. repeat split. Qed.

(** C2. In the refraction pixel shader the depth of a pixel is the sampled
    water height minus the world Y of the pixel; the pixel is discarded (no
    colour is written) exactly when that depth is negative, and a pixel whose
    depth is at least zero always has a colour written. *)
Theorem refraction_discard_iff_negative_depth :
  forall (WaterHeightMap : Texture2D) (cb : CommonHlsli.PerFrameConstants)
         (PixelLighting : CommonHlsli.LightingPixelShaderInput -> float4)
         (input : CommonHlsli.LightingPixelShaderInput),
    let depth :=
      RefractedPixelLighting_ps.objectDepth WaterHeightMap cb input in
    let written :=
      RefractedPixelLighting_ps.main WaterHeightMap cb PixelLighting input in
    depth =
      F32.sub
        (x4 (WaterHeightMap
               (Float2 (F32.div (x4 (CommonHlsli.l_projectedPosition input))
                                (CommonHlsli.gViewportWidth cb))
                       (F32.div (y4 (CommonHlsli.l_projectedPosition input))
                                (CommonHlsli.gViewportHeight cb)))))
        (y3 (CommonHlsli.l_worldPosition input)) /\
    (written = None <-> F32.ltb depth F32.zero = true) /\
    (F32.leb F32.zero depth = true -> exists colour, written = Some colour).
Proof.
  intros W cb PL input depth written. split; [reflexivity|].
  unfold written, RefractedPixelLighting_ps.main, Hlsl.clip. fold depth.
  split.
  - destruct (F32.ltb depth F32.zero); split; intros H;
      try reflexivity; discriminate.
  - intros H. rewrite (RoundingFacts.leb_zero_not_ltb depth H).
    eexists. reflexivity.
Qed.

(** A pixel five units under flat water at height 10 is written. *)
Lemma refraction_discard_witness :
  F32.leb F32.zero
    (RefractedPixelLighting_ps.objectDepth Examples.flatWater
       Examples.shaderConstants (Examples.pixelAt (F32.of_Z 5))) = true /\
  exists colour,
    RefractedPixelLighting_ps.main Examples.flatWater Examples.shaderConstants
      Examples.greyLighting (Examples.pixelAt (F32.of_Z 5)) = Some colour.
Proof.
  split; [reflexivity|].
  destruct (refraction_discard_iff_negative_depth Examples.flatWater
              Examples.shaderConstants Examples.greyLighting
              (Examples.pixelAt (F32.of_Z 5))) as (_ & _ & H).
  exact (H eq_refl).
Defined.

(** C3. The darken factor of the refraction shader,
    saturate(depth / WaterExtinction), does not decrease when the depth
    grows, in each colour channel; a channel is exactly 1 as soon as
    depth / extinction of that channel is at least 1; and at depth 5 with
    the extinction (9, 7, 3) the factors are 0.556, 0.714 and 1.0 to three
    decimals. *)
Theorem depth_darken_monotone_and_saturating :
  (forall d1 d2, F32.valid d1 = true -> F32.valid d2 = true ->
     F32.leb d1 d2 = true ->
     Vec.leb3 (RefractedPixelLighting_ps.depthDarken d1)
              (RefractedPixelLighting_ps.depthDarken d2) = true) /\
  (forall d,
     (F32.leb F32.one (F32.div d (x3 CommonHlsli.WaterExtinction)) = true ->
        x3 (RefractedPixelLighting_ps.depthDarken d) = F32.one) /\
     (F32.leb F32.one (F32.div d (y3 CommonHlsli.WaterExtinction)) = true ->
        y3 (RefractedPixelLighting_ps.depthDarken d) = F32.one) /\
     (F32.leb F32.one (F32.div d (z3 CommonHlsli.WaterExtinction)) = true ->
        z3 (RefractedPixelLighting_ps.depthDarken d) = F32.one)) /\
  CommonHlsli.WaterExtinction =
    Float3 (F32.of_Z 9) (F32.of_Z 7) (F32.of_Z 3) /\
  (let f := RefractedPixelLighting_ps.depthDarken (F32.of_Z 5) in
   F32.leb (F32.lit 5555 10000) (x3 f) = true /\
   F32.leb (x3 f) (F32.lit 5565 10000) = true /\
   F32.leb (F32.lit 7135 10000) (y3 f) = true /\
   F32.leb (y3 f) (F32.lit 7145 10000) = true /\
   z3 f = F32.one).
Proof.
  split; [|split; [|split; [reflexivity|]]].
  - intros d1 d2 V1 V2 H.
    unfold Vec.leb3, RefractedPixelLighting_ps.depthDarken.
    cbn [Hlsl.saturate3 Vec.sdiv3 x3 y3 z3 CommonHlsli.WaterExtinction].
    change (F32.of_Z 9) with (S754_finite false 9437184 (-20)).
    change (F32.of_Z 7) with (S754_finite false 14680064 (-21)).
    change (F32.of_Z 3) with (S754_finite false 12582912 (-22)).
    rewrite !andb_true_iff.
    repeat split; apply RoundingFacts.saturate_div_mono; assumption.
  - intros d. repeat split; intros H;
      apply RoundingFacts.saturate_ge_one; exact H.
  - vm_compute. repeat split.
Qed.

(** From depth 1 to depth 5 no channel of the darken factor decreases. *)
Lemma depth_darken_witness :
  F32.valid (F32.of_Z 1) = true /\ F32.valid (F32.of_Z 5) = true /\
  F32.leb (F32.of_Z 1) (F32.of_Z 5) = true /\
  Vec.leb3 (RefractedPixelLighting_ps.depthDarken (F32.of_Z 1))
           (RefractedPixelLighting_ps.depthDarken (F32.of_Z 5)) = true.
Proof.
  split; [reflexivity|]. split; [reflexivity|]. split; [reflexivity|].
  exact (proj1 depth_darken_monotone_and_saturating (F32.of_Z 1) (F32.of_Z 5)
           eq_refl eq_refl eq_refl).
Defined.

(** C4, as stated, fails for a pixel under a height map that holds no
    number: its depth is a NaN, it is not discarded, and the alpha written
    is 0 where min(depth / MaxDistortionDistance, 1) is 1. *)
Lemma refraction_alpha_of_nan_depth_is_not_min :
  exists colour,
    RefractedPixelLighting_ps.main Cases.voidWater Examples.shaderConstants
      Examples.greyLighting (Examples.pixelAt (F32.of_Z 5)) = Some colour /\
    w4 colour = F32.zero /\
    Hlsl.min
      (F32.div
         (RefractedPixelLighting_ps.objectDepth Cases.voidWater
            Examples.shaderConstants (Examples.pixelAt (F32.of_Z 5)))
         CommonHlsli.MaxDistortionDistance)
      F32.one = F32.one /\
    w4 colour <>
      Hlsl.min
        (F32.div
           (RefractedPixelLighting_ps.objectDepth Cases.voidWater
              Examples.shaderConstants (Examples.pixelAt (F32.of_Z 5)))
           CommonHlsli.MaxDistortionDistance)
        F32.one.
Proof.
  eexists. split; [reflexivity|]. split; [reflexivity|].
  split; [reflexivity|]. vm_compute. discriminate.
Qed.

(** C4, amended. For every refraction pixel that is not discarded the alpha
    written lies between 0 and 1.  If the depth of the pixel is not a NaN,
    the depth is at least zero and the alpha is
    min(depth / MaxDistortionDistance, 1) with MaxDistortionDistance = 40:
    0 at the water surface and 1 at every depth of 40 or more.  If the
    depth is a NaN, the alpha is 0, while min(depth / MaxDistortionDistance,
    1) is 1. *)
Theorem refraction_alpha_is_clamped_depth_ratio :
  forall (WaterHeightMap : Texture2D) (cb : CommonHlsli.PerFrameConstants)
         (PixelLighting : CommonHlsli.LightingPixelShaderInput -> float4)
         (input : CommonHlsli.LightingPixelShaderInput) (colour : float4),
    RefractedPixelLighting_ps.main WaterHeightMap cb PixelLighting input
      = Some colour ->
    let depth :=
      RefractedPixelLighting_ps.objectDepth WaterHeightMap cb input in
    let ratio := F32.div depth CommonHlsli.MaxDistortionDistance in
    CommonHlsli.MaxDistortionDistance = F32.of_Z 40 /\
    F32.leb F32.zero (w4 colour) = true /\
    F32.leb (w4 colour) F32.one = true /\
    (F32.is_nan depth = false ->
     F32.leb F32.zero depth = true /\
     w4 colour = Hlsl.min ratio F32.one /\
     (F32.eqb depth F32.zero = true ->
      F32.eqb (w4 colour) F32.zero = true) /\
     (F32.valid depth = true -> F32.leb (F32.of_Z 40) depth = true ->
      w4 colour = F32.one)) /\
    (F32.is_nan depth = true ->
     w4 colour = F32.zero /\ Hlsl.min ratio F32.one = F32.one).
Proof.
  intros W cb PL input colour Hm depth ratio. unfold ratio.
  unfold RefractedPixelLighting_ps.main, Hlsl.clip in Hm. fold depth in Hm.
  destruct (F32.ltb depth F32.zero) eqn:C; [discriminate Hm|].
  assert (Hw := f_equal (fun written : option float4 =>
                           match written with
                           | Some c => w4 c
                           | None => F32.zero
                           end) Hm).
  cbv beta iota in Hw. cbn [w4] in Hw. rewrite <- Hw. clear Hm Hw.
  split; [reflexivity|].
  split; [apply RoundingFacts.saturate_nonneg|].
  split; [apply RoundingFacts.saturate_le_one|].
  change CommonHlsli.MaxDistortionDistance
    with (S754_finite false 10485760 (-18)).
  split.
  - intros N.
    assert (H : F32.leb F32.zero depth = true).
    { rewrite RoundingFacts.zero_eq in *.
      destruct depth as [s|s| |s m e]; try discriminate N;
        destruct s; try discriminate C; reflexivity. }
    split; [exact H|].
    split; [apply RoundingFacts.saturate_min_of_nonneg; exact H|]. split.
    + intros E. destruct depth as [s|s| |s m e]; try destruct s;
        try discriminate E; reflexivity.
    + intros V H40. apply RoundingFacts.saturate_ge_one.
      change (F32.of_Z 40) with (S754_finite false 10485760 (-18)) in H40.
      destruct depth as [s|s| |s m e]; try discriminate;
        destruct s; try discriminate.
      * reflexivity.
      * change F32.one with
          (F32.div (S754_finite false 10485760 (-18))
                   (S754_finite false 10485760 (-18))).
        apply RoundingFacts.SFdiv_mono_pos; [reflexivity|exact V|exact H40].
  - intros N. destruct depth; try discriminate N. split; reflexivity.
Qed.

(** Five units under flat water the alpha written is 5 / 40 = 0.125. *)
Lemma refraction_alpha_witness :
  exists colour,
    RefractedPixelLighting_ps.main Examples.flatWater Examples.shaderConstants
      Examples.greyLighting (Examples.pixelAt (F32.of_Z 5)) = Some colour /\
    w4 colour = F32.lit 125 1000.
Proof.
  destruct (RefractedPixelLighting_ps.main Examples.flatWater
              Examples.shaderConstants Examples.greyLighting
              (Examples.pixelAt (F32.of_Z 5))) as [colour|] eqn:E;
    [|vm_compute in E; discriminate E].
  exists colour. split; [reflexivity|].
  destruct (refraction_alpha_is_clamped_depth_ratio Examples.flatWater
              Examples.shaderConstants Examples.greyLighting
              (Examples.pixelAt (F32.of_Z 5)) colour E)
    as (_ & _ & _ & HN & _).
  destruct (HN eq_refl) as (_ & Ha & _). rewrite Ha. reflexivity.
Defined.

(* ===================================================================== *)
(** * The reflection camera *)
(* ===================================================================== *)

(** C5, as stated, fails: a level camera at height 1.7 mirrored twice in the
    plane at height 10 does not come back to its pose (its height becomes
    20 - (20 - 1.7), which single precision rounds to 1.7000008). *)
Lemma reflect_twice_moves_low_camera :
  Scene.reflect
    (Scene.reflect (Examples.levelPose (F32.lit 17 10)) (F32.of_Z 10))
    (F32.of_Z 10)
  <> Examples.levelPose (F32.lit 17 10).
Proof. vm_compute. discriminate. Qed.

(** The mirrored pose, entry by entry. *)
Lemma reflect_entries pose planeY :
  Scene.reflect pose planeY =
  Matrix4x4
    (e00 pose) (F32.mul (e01 pose) (F32.of_Z (-1))) (e02 pose) (e03 pose)
    (e10 pose) (F32.mul (e11 pose) (F32.of_Z (-1))) (e12 pose) (e13 pose)
    (e20 pose) (F32.mul (e21 pose) (F32.of_Z (-1))) (e22 pose) (e23 pose)
    (e30 pose) (F32.sub (F32.mul planeY (F32.of_Z 2)) (e31 pose))
    (e32 pose) (e33 pose).
Proof. reflexivity. Qed.

(** C5, amended. Mirroring a camera pose twice in the same plane restores
    the Y components of the three basis axes and touches no other entry but
    the height of the position, for every pose whose axis components are
    well-formed numbers and every plane height; the height becomes
    planeY * 2 - (planeY * 2 - y) as single precision evaluates it. *)
Theorem reflect_twice_restores_all_but_height :
  forall (pose : CMatrix4x4) (planeY : float),
    F32.valid (e01 pose) = true -> F32.valid (e11 pose) = true ->
    F32.valid (e21 pose) = true ->
    Scene.reflect (Scene.reflect pose planeY) planeY =
    Scene.setPositionY pose
      (F32.sub (F32.mul planeY (F32.of_Z 2))
               (F32.sub (F32.mul planeY (F32.of_Z 2)) (e31 pose))).
Proof.
  intros pose planeY V0 V1 V2.
  rewrite (reflect_entries (Scene.reflect pose planeY)),
    (reflect_entries pose).
  cbn [e00 e01 e02 e03 e10 e11 e12 e13 e20 e21 e22 e23 e30 e31 e32 e33].
  assert (I : forall x, F32.valid x = true ->
                F32.mul (F32.mul x (F32.of_Z (-1))) (F32.of_Z (-1)) = x).
  { intros x V. rewrite (RoundingFacts.SFmul_minus_one x V).
    rewrite RoundingFacts.SFmul_minus_one by (destruct x; exact V).
    destruct x as [[]|[]| |[] m e]; reflexivity. }
  rewrite !I by assumption. reflexivity.
Qed.

(** The camera of the start scene (height 50, plane at 10) does come back:
    there 20 - (20 - 50) is computed without rounding. *)
Lemma reflect_twice_witness :
  F32.valid (e01 (Examples.levelPose (F32.of_Z 50))) = true /\
  F32.valid (e11 (Examples.levelPose (F32.of_Z 50))) = true /\
  F32.valid (e21 (Examples.levelPose (F32.of_Z 50))) = true /\
  Scene.reflect
    (Scene.reflect (Examples.levelPose (F32.of_Z 50)) (F32.of_Z 10))
    (F32.of_Z 10)
  = Examples.levelPose (F32.of_Z 50).
Proof.
  split; [reflexivity|]. split; [reflexivity|]. split; [reflexivity|].
  rewrite (reflect_twice_restores_all_but_height
             (Examples.levelPose (F32.of_Z 50)) (F32.of_Z 10)
             eq_refl eq_refl eq_refl).
  reflexivity.
Defined.

(* ===================================================================== *)
(** * The frame *)
(* ===================================================================== *)

Section Frames.

Variables ViewMatrix ProjectionMatrix ViewProjectionMatrix
  : Scene.Camera -> CMatrix4x4.

(** C6. For every world the frame starts in, the camera after
    RenderSceneFromCamera is the camera before it, field for field: the
    world matrix saved before the mirroring is put back after the reflection
    pass and nothing else of the camera is written.  The camera matrices
    sent to the GPU are the original one, the mirrored one for the
    reflection pass, and the original one again. *)
Theorem camera_restored_after_reflection_pass :
  forall w : Scene.World,
    Scene.gCamera
      (Scene.finalWorld
         (Scene.RenderSceneFromCamera ViewMatrix ProjectionMatrix
            ViewProjectionMatrix w))
      = Scene.gCamera w /\
    map CommonH.cameraMatrix
      (Scene.sent (Scene.frameCalls ViewMatrix ProjectionMatrix
                     ViewProjectionMatrix w)) =
      [ Scene.WorldMatrix (Scene.gCamera w);
        Scene.reflect (Scene.WorldMatrix (Scene.gCamera w))
                      (y3 (Scene.gWaterPosition w));
        Scene.WorldMatrix (Scene.gCamera w) ].
Proof. intros w. split; run_frame; reflexivity. Qed.

(** C7. After every update step the wave scale placed in the constant block
    is at least zero, whatever keys are held in each step and for whatever
    (finite) frame times, starting from the initial scale 0.6; the constant
    blocks that the next frame sends to the GPU carry that value. *)
Theorem wave_scale_never_negative :
  forall (inputs : list Scene.Input) (w : Scene.World),
    Scene.waveScaleStatic w = Scene.initialWaveScale ->
    inputs <> [] ->
    Forall Scene.goodInput inputs ->
    let w' := Scene.runUpdates inputs w in
    F32.leb (F32.of_Z 0)
      (CommonH.waveScale (Scene.gPerFrameConstants w')) = true /\
    Forall (fun c => F32.leb (F32.of_Z 0) (CommonH.waveScale c) = true)
           (Scene.sent (Scene.frameCalls ViewMatrix ProjectionMatrix
                          ViewProjectionMatrix w')).
Proof.
  intros inputs w Hi Hne HF w'.
  assert (HN : F32.is_nan (Scene.waveScaleStatic w) = false)
    by (rewrite Hi; reflexivity).
  destruct (runUpdates_waveScale inputs w HF HN) as [_ L].
  specialize (L Hne). fold w' in L.
  split; [exact L|].
  run_frame. repeat constructor; exact L.
Qed.

(** C8. In every frame that starts with no render texture bound as a shader
    input, the passes run in the order height, refraction, reflection,
    composite; the height buffer is bound as a texture (pixel-shader slot 2)
    after every draw of the height pass and before any draw of the
    refraction pass; slot 2 is empty when the frame ends; after no call of
    the frame is a texture both the render target and a shader input; and
    the next frame starts in the same way. *)
Theorem frame_pass_order_and_bindings :
  forall (w : Scene.World) (d : Scene.Device),
    Scene.frameStart d ->
    let cs := Scene.frameCalls ViewMatrix ProjectionMatrix
                ViewProjectionMatrix w in
    Scene.passes cs =
      [Scene.gWaterHeightRenderTarget; Scene.gRefractionRenderTarget;
       Scene.gReflectionRenderTarget; Scene.gBackBufferRenderTarget] /\
    (exists pre post,
       cs = pre ++
            Scene.PSSetShaderResources 2 (Some Scene.gWaterHeightSRV) :: post /\
       existsb (Scene.bindsResource Scene.gWaterHeight) pre = false /\
       Scene.drawnInto Scene.gWaterHeightRenderTarget (Scene.draws d pre) =
         Scene.drawnInto Scene.gWaterHeightRenderTarget (Scene.draws d cs) /\
       Scene.drawnInto Scene.gWaterHeightRenderTarget (Scene.draws d pre) =
         [Scene.gWater] /\
       Scene.drawnInto Scene.gRefractionRenderTarget (Scene.draws d pre) = []) /\
    Scene.psResources (Scene.run d cs) 2 = None /\
    (forall pre post, cs = pre ++ post -> ~ Scene.hazard (Scene.run d pre)) /\
    Scene.frameStart (Scene.run d cs).
Proof.
  intros w d HS cs. split; [run_frame; reflexivity|]. split.
  { exists (firstn 21 cs), (skipn 22 cs). repeat split; run_frame; reflexivity. }
  split; [run_frame; reflexivity|]. split.
  - apply safe_prefix. unfold cs. run_device.
    repeat split; intros (t & slot & v & Ht & Hs & Hr).
    all: cbn [Scene.renderTarget Scene.psResources Scene.vsResources] in Ht, Hs.
    all: unfold Scene.update in Hs.
    all: repeat match type of Hs with
          | context [Nat.eqb ?s ?k] => destruct (Nat.eqb s k)
          end.
    all: try (injection Ht as <-).
    all: destruct Hs as [Hs|Hs]; try discriminate Hs;
         try (injection Hs as <-); try discriminate Hr.
    all: try (destruct t; discriminate Hr).
    all: first [ assert (X := HS slot v (or_introl Hs))
               | assert (X := HS slot v (or_intror Hs)) ];
         destruct v;
         first [ discriminate Hr | discriminate X
               | destruct t; first [discriminate Hr | discriminate X] ].
  - unfold cs. intros slot v. run_device. intros Hs.
    unfold Scene.update in Hs.
    repeat match type of Hs with
          | context [Nat.eqb ?s ?k] => destruct (Nat.eqb s k)
          end;
    destruct Hs as [Hs|Hs]; try discriminate Hs;
    try (injection Hs as <-); try reflexivity;
    apply (HS slot v); auto.
Qed.

(** C10. In every frame the water mesh is drawn into the height buffer and
    into the back buffer only; the refraction and the reflection buffers
    receive the ground, the troll, the crate, the sky and the two lights and
    nothing else; every draw has one of the four targets bound. *)
Theorem water_drawn_only_in_height_and_composite :
  forall (w : Scene.World) (d : Scene.Device),
    let ds := Scene.draws d (Scene.frameCalls ViewMatrix ProjectionMatrix
                               ViewProjectionMatrix w) in
    Scene.drawnInto Scene.gWaterHeightRenderTarget ds = [Scene.gWater] /\
    Scene.drawnInto Scene.gRefractionRenderTarget ds =
      [Scene.gGround; Scene.gTroll; Scene.gCrate; Scene.gSky;
       Scene.gLightModel 0; Scene.gLightModel 1] /\
    Scene.drawnInto Scene.gReflectionRenderTarget ds =
      [Scene.gGround; Scene.gTroll; Scene.gCrate; Scene.gSky;
       Scene.gLightModel 0; Scene.gLightModel 1] /\
    Scene.drawnInto Scene.gBackBufferRenderTarget ds =
      [Scene.gGround; Scene.gTroll; Scene.gCrate; Scene.gWater; Scene.gSky;
       Scene.gLightModel 0; Scene.gLightModel 1] /\
    List.length ds = 20%nat /\
    forallb (fun p => match fst p with Some _ => true | None => false end) ds
      = true.
Proof. intros w d. repeat split; run_frame; reflexivity. Qed.

End Frames.

(** Holding minus for 100 seconds and then plus for a sixtieth of a second
    leaves a wave scale that is not negative. *)
Lemma wave_scale_witness :
  Scene.waveScaleStatic Examples.startWorld = Scene.initialWaveScale /\
  [(Examples.minusHeld, F32.of_Z 100); (Examples.plusHeld, F32.lit 1 60)]
    <> [] /\
  Forall Scene.goodInput
    [(Examples.minusHeld, F32.of_Z 100); (Examples.plusHeld, F32.lit 1 60)] /\
  F32.leb (F32.of_Z 0)
    (CommonH.waveScale
       (Scene.gPerFrameConstants
          (Scene.runUpdates
             [(Examples.minusHeld, F32.of_Z 100);
              (Examples.plusHeld, F32.lit 1 60)]
             Examples.startWorld))) = true.
Proof.
  assert (H1 : [(Examples.minusHeld, F32.of_Z 100);
                (Examples.plusHeld, F32.lit 1 60)] <> [])
    by discriminate.
  assert (H2 : Forall Scene.goodInput
                 [(Examples.minusHeld, F32.of_Z 100);
                  (Examples.plusHeld, F32.lit 1 60)])
    by (repeat constructor).
  split; [reflexivity|]. split; [exact H1|]. split; [exact H2|].
  exact (proj1 (wave_scale_never_negative Examples.plainMatrix
                  Examples.plainMatrix Examples.plainMatrix _
                  Examples.startWorld eq_refl H1 H2)).
Defined.

(** The first frame of the start scene on a fresh device. *)
Lemma frame_pass_order_witness :
  Scene.frameStart Scene.initialDevice /\
  Scene.passes
    (Scene.frameCalls Examples.plainMatrix Examples.plainMatrix
       Examples.plainMatrix Examples.startWorld) =
    [Scene.gWaterHeightRenderTarget; Scene.gRefractionRenderTarget;
     Scene.gReflectionRenderTarget; Scene.gBackBufferRenderTarget] /\
  Scene.frameStart
    (Scene.run Scene.initialDevice
       (Scene.frameCalls Examples.plainMatrix Examples.plainMatrix
          Examples.plainMatrix Examples.startWorld)).
Proof.
  split; [exact initialDevice_frameStart|].
  destruct (frame_pass_order_and_bindings Examples.plainMatrix
              Examples.plainMatrix Examples.plainMatrix Examples.startWorld
              Scene.initialDevice initialDevice_frameStart)
    as (P1 & _ & _ & _ & P5).
  split; [exact P1|exact P5].
Defined.

(* ===================================================================== *)
(** * The constant block *)
(* ===================================================================== *)

(** C9, as stated, fails for the matrix fields.  A host block whose camera
    matrix is the pose of a level camera at height 10: the shader reads the
    10 in row 1, column 3 of gCameraMatrix, not in row 3, column 1 where the
    host has it. *)
Lemma shader_matrix_is_not_host_matrix :
  exists g,
    Layout.decode
      (Layout.encode
         (CommonH.set_cameraMatrices Examples.zeroConstants
            (Examples.levelPose (F32.of_Z 10)) Examples.zeroMatrix
            Examples.zeroMatrix Examples.zeroMatrix)) = Some g /\
    e13 (CommonHlsli.gCameraMatrix g) = F32.of_Z 10 /\
    e31 (CommonHlsli.gCameraMatrix g) = F32.zero /\
    CommonHlsli.gCameraMatrix g <> Examples.levelPose (F32.of_Z 10).
Proof.
  eexists. split; [vm_compute; reflexivity|].
  split; [reflexivity|]. split; [reflexivity|].
  vm_compute. discriminate.
Qed.

(** C9, amended. The host structure PerFrameConstants and the shader cbuffer
    PerFrameConstants have the same fields in the same order (the padding
    fields included), each at the same offset under the packing rules of its
    side; so the words of every field of the block written by the host are
    the words of the corresponding cbuffer variable, and the shaders read
    every scalar and vector field unchanged and every matrix field with its
    rows and columns exchanged. *)
Theorem per_frame_constants_layout_roundtrip :
  map (fun f => (Layout.hlslName (fst f), snd f)) Layout.cppPerFrameConstants
    = Layout.hlslPerFrameConstants /\
  Layout.cppOffsets 0 (map snd Layout.cppPerFrameConstants)
    = Layout.hlslOffsets 0 (map snd Layout.hlslPerFrameConstants) /\
  Layout.cppOffsets 0 (map snd Layout.cppPerFrameConstants)
    = [0; 16; 32; 48; 64; 67; 68; 71; 72; 75; 76; 79; 80; 83; 84; 87;
       88; 89; 90]%nat /\
  (forall c : CommonH.PerFrameConstants,
     map (fun place =>
            Layout.fieldWords (Layout.encode c) (fst place) (snd place))
         (combine
            (Layout.hlslOffsets 0 (map snd Layout.hlslPerFrameConstants))
            (map snd Layout.hlslPerFrameConstants))
       = map Layout.flatten (Layout.cppMembers c) /\
     exists g, Layout.decode (Layout.encode c) = Some g /\
               Layout.sameFields c g).
Proof.
  split; [reflexivity|]. split; [reflexivity|]. split; [reflexivity|].
  intros c. split; [cbv -[F32.zero]; reflexivity|].
  eexists. split.
  - cbv -[F32.zero]. reflexivity.
  - cbv. repeat split; reflexivity.
Qed.

(** The padding fields carry the agreement: without [padding1] the second
    light colour sits at word 75 on the host and at word 76 in the shader. *)
Example layouts_differ_without_padding :
  Layout.cppOffsets 72 [Layout.TFloat3; Layout.TFloat3] = [72; 75]%nat /\
  Layout.hlslOffsets 72 [Layout.TFloat3; Layout.TFloat3] = [72; 76]%nat.
Proof. split; reflexivity. Qed.

(* ===================================================================== *)
(** * The draws of a frame and the state they are made in *)
(* ===================================================================== *)

Section FrameDraws.

Variables ViewMatrix ProjectionMatrix ViewProjectionMatrix
  : Scene.Camera -> CMatrix4x4.

Abbreviation frame w :=
  (Scene.frameCalls ViewMatrix ProjectionMatrix ViewProjectionMatrix w)
  (only parsing).

(** Every draw of a frame is made with the vertex and pixel shader of its
    pass, whatever the device context held before the frame: the water with
    the water-surface vertex shader in both of its draws (height pixel
    shader into the height map, surface pixel shader into the back buffer),
    the lit models with the pixel-lighting vertex shader and the refracted,
    reflected or plain lighting pixel shader, the sky and the lights with
    the tinted-texture shaders of the pass. *)
Theorem frame_draws_use_shaders_of_their_pass :
  forall (w : Scene.World) (s : Pipeline.State),
    let ds := Pipeline.trace s (frame w) in
    let row m v p := (m, (Some v, Some p)) in
    let shaded :=
      map (fun d => (Pipeline.model d,
                     Pipeline.shaders (Pipeline.context d))) in
    shaded (Pipeline.into Scene.gWaterHeightRenderTarget ds) =
      [ row Scene.gWater Scene.gWaterSurfaceVertexShader
            Scene.gWaterHeightPixelShader ] /\
    shaded (Pipeline.into Scene.gRefractionRenderTarget ds) =
      map (fun m => row m Scene.gPixelLightingVertexShader
                          Scene.gRefractedPixelLightingPixelShader)
          [Scene.gGround; Scene.gTroll; Scene.gCrate] ++
      map (fun m => row m Scene.gBasicTransformWorldPosVertexShader
                          Scene.gRefractedTintedTexturePixelShader)
          [Scene.gSky; Scene.gLightModel 0; Scene.gLightModel 1] /\
    shaded (Pipeline.into Scene.gReflectionRenderTarget ds) =
      map (fun m => row m Scene.gPixelLightingVertexShader
                          Scene.gReflectedPixelLightingPixelShader)
          [Scene.gGround; Scene.gTroll; Scene.gCrate] ++
      map (fun m => row m Scene.gBasicTransformWorldPosVertexShader
                          Scene.gReflectedTintedTexturePixelShader)
          [Scene.gSky; Scene.gLightModel 0; Scene.gLightModel 1] /\
    shaded (Pipeline.into Scene.gBackBufferRenderTarget ds) =
      map (fun m => row m Scene.gPixelLightingVertexShader
                          Scene.gPixelLightingPixelShader)
          [Scene.gGround; Scene.gTroll; Scene.gCrate] ++
      [ row Scene.gWater Scene.gWaterSurfaceVertexShader
            Scene.gWaterSurfacePixelShader ] ++
      map (fun m => row m Scene.gBasicTransformVertexShader
                          Scene.gTintedTexturePixelShader)
          [Scene.gSky; Scene.gLightModel 0; Scene.gLightModel 1] /\
    Forall (fun d => Pipeline.geometryShaderOff (Pipeline.context d) = true)
           ds.
Proof.
  intros w s ds row shaded. unfold ds, shaded, row.
  split; [run_frame; reflexivity|]. split; [run_frame; reflexivity|].
  split; [run_frame; reflexivity|]. split; [run_frame; reflexivity|].
  run_frame. repeat constructor.
Qed.

(** Culling, blending and depth writes at every draw: the lit models are
    drawn with back-face culling except in the reflection pass, where the
    mirrored camera needs front-face culling; the water with back-face
    culling; the sky and the lights with culling off; the lights, and only
    they, with additive blending and a read-only depth buffer. *)
Theorem frame_draws_culling_and_blending :
  forall (w : Scene.World) (s : Pipeline.State),
    let ds := Pipeline.trace s (frame w) in
    let solid m cull :=
      (m, (Some cull, Some Scene.gNoBlendingState,
           Some Scene.gUseDepthBufferState)) in
    let glow m :=
      (m, (Some Scene.gCullNoneState, Some Scene.gAdditiveBlendingState,
           Some Scene.gDepthReadOnlyState)) in
    let others :=
      [ solid Scene.gSky Scene.gCullNoneState;
        glow (Scene.gLightModel 0); glow (Scene.gLightModel 1) ] in
    let lit cull :=
      map (fun m => solid m cull)
          [Scene.gGround; Scene.gTroll; Scene.gCrate] in
    let states :=
      map (fun d => (Pipeline.model d,
                     Pipeline.fixedFunction (Pipeline.context d))) in
    states (Pipeline.into Scene.gWaterHeightRenderTarget ds) =
      [ solid Scene.gWater Scene.gCullBackState ] /\
    states (Pipeline.into Scene.gRefractionRenderTarget ds) =
      lit Scene.gCullBackState ++ others /\
    states (Pipeline.into Scene.gReflectionRenderTarget ds) =
      lit Scene.gCullFrontState ++ others /\
    states (Pipeline.into Scene.gBackBufferRenderTarget ds) =
      lit Scene.gCullBackState ++
      [ solid Scene.gWater Scene.gCullBackState ] ++ others /\
    Pipeline.fixedFunction (Pipeline.run s (frame w)) =
      (Some Scene.gCullBackState, Some Scene.gNoBlendingState,
       Some Scene.gUseDepthBufferState).
Proof.
  intros w s ds solid glow others lit states.
  unfold ds, states, lit, others, glow, solid.
  split; [run_frame; reflexivity|]. split; [run_frame; reflexivity|].
  split; [run_frame; reflexivity|]. split; [run_frame; reflexivity|].
  run_frame. reflexivity.
Qed.

(** Every textured model is drawn with its own diffuse map in slot 0 of
    the pixel shader; the water normal map is in slot 1 of the pixel and of
    the vertex shader at every draw, with the anisotropic sampler in slot 0
    of both stages and the mirroring sampler in slot 1; the sky is tinted
    white and each light with its own colour, in every pass. *)
Theorem frame_draws_textures_and_tints :
  forall (w : Scene.World) (s : Pipeline.State),
    Forall (fun d =>
      (Pipeline.model d <> Scene.gWater ->
       Pipeline.texture 0 (Pipeline.context d)
         = Pipeline.diffuseMap (Pipeline.model d)) /\
      Pipeline.texture 1 (Pipeline.context d) = Some Scene.gWaterNormalMapSRV /\
      Scene.vsResources (Pipeline.device (Pipeline.context d)) 1
        = Some Scene.gWaterNormalMapSRV /\
      Pipeline.psSamplers (Pipeline.context d) 0
        = Some Scene.gAnisotropic4xSampler /\
      Pipeline.vsSamplers (Pipeline.context d) 0
        = Some Scene.gAnisotropic4xSampler /\
      Pipeline.psSamplers (Pipeline.context d) 1
        = Some Scene.gBilinearMirrorSampler /\
      match Pipeline.model d with
      | Scene.gSky =>
          Pipeline.tint d = Float3 (F32.of_Z 1) (F32.of_Z 1) (F32.of_Z 1)
      | Scene.gLightModel i => Pipeline.tint d = Scene.gLightsColour i
      | _ => True
      end)
      (Pipeline.trace s (frame w)).
Proof.
  intros w s. run_frame.
  repeat constructor; try reflexivity; intros C; exfalso; apply C; reflexivity.
Qed.

(** The render textures as shader inputs: the water height map is in slot 2
    at every draw into the refraction and the reflection texture and slot 2
    is empty at every draw into the back buffer; the refraction and the
    reflection texture are in slots 3 and 4 when the water surface is drawn
    into the back buffer and the slots are empty again at the draws after
    it.  In a frame that starts with no render texture bound as a shader
    input, no other draw has the refraction or the reflection texture in any
    slot of the pixel shader. *)
Theorem frame_draws_render_texture_inputs :
  forall (w : Scene.World) (s : Pipeline.State),
    Scene.frameStart (Pipeline.device s) ->
    let ds := Pipeline.trace s (frame w) in
    map (fun d => Pipeline.texture 2 (Pipeline.context d))
        (Pipeline.into Scene.gRefractionRenderTarget ds)
      = repeat (Some Scene.gWaterHeightSRV) 6 /\
    map (fun d => Pipeline.texture 2 (Pipeline.context d))
        (Pipeline.into Scene.gReflectionRenderTarget ds)
      = repeat (Some Scene.gWaterHeightSRV) 6 /\
    map (fun d => Pipeline.texture 2 (Pipeline.context d))
        (Pipeline.into Scene.gBackBufferRenderTarget ds)
      = repeat None 7 /\
    map (fun d => (Pipeline.model d,
                   Pipeline.texture 3 (Pipeline.context d),
                   Pipeline.texture 4 (Pipeline.context d)))
        (skipn 3 (Pipeline.into Scene.gBackBufferRenderTarget ds))
      = [ (Scene.gWater, Some Scene.gRefractionSRV, Some Scene.gReflectionSRV);
          (Scene.gSky, None, None);
          (Scene.gLightModel 0, None, None);
          (Scene.gLightModel 1, None, None) ] /\
    Forall (fun d =>
      (Pipeline.target d <> Some Scene.gBackBufferRenderTarget \/
       Pipeline.model d <> Scene.gWater) ->
      forall slot v, Pipeline.texture slot (Pipeline.context d) = Some v ->
        Scene.srvResource v <> Scene.gRefraction /\
        Scene.srvResource v <> Scene.gReflection) ds.
Proof.
  intros w s HS ds. unfold ds.
  split; [run_frame; reflexivity|]. split; [run_frame; reflexivity|].
  split; [run_frame; reflexivity|]. split; [run_frame; reflexivity|].
  run_device. unfold Pipeline.texture, Pipeline.target.
  cbn [Pipeline.context Pipeline.device Pipeline.model Scene.psResources
       Scene.renderTarget].
  repeat match goal with
         | |- Forall _ (_ :: _) => apply Forall_cons
         | |- Forall _ [] => apply Forall_nil
         end.
  all: intros C slot v Hs.
  all: try (exfalso; destruct C as [C|C]; apply C; reflexivity).
  all: unfold Scene.update in Hs.
  all: repeat match type of Hs with
        | context [Nat.eqb ?a ?k] => destruct (Nat.eqb a k)
        end.
  all: try discriminate Hs.
  all: try (injection Hs as <-; split; discriminate).
  all: assert (X := HS slot v (or_introl Hs)); destruct v;
       first [ discriminate X | split; discriminate ].
Qed.

(** Every draw sees the per-frame constants of the start of the frame with
    the four matrices of the camera of its pass: the mirrored camera at the
    draws into the reflection texture, the camera as it is at all others.
    The constant buffer is bound to slot 0 of the vertex and of the pixel
    shader at every draw. *)
Theorem frame_draws_camera_constants :
  forall (w : Scene.World) (s : Pipeline.State),
    let mirrored :=
      Scene.withWorldMatrix (Scene.gCamera w)
        (Scene.reflect (Scene.WorldMatrix (Scene.gCamera w))
                       (y3 (Scene.gWaterPosition w))) in
    let constantsFor camera :=
      CommonH.set_cameraMatrices (Scene.gPerFrameConstants w)
        (Scene.WorldMatrix camera) (ViewMatrix camera)
        (ProjectionMatrix camera) (ViewProjectionMatrix camera) in
    Forall (fun d =>
      Pipeline.constantBuffer (Pipeline.context d) =
        Some (constantsFor
                match Pipeline.target d with
                | Some Scene.gReflectionRenderTarget => mirrored
                | _ => Scene.gCamera w
                end) /\
      Pipeline.vsConstantBuffers (Pipeline.context d) 0 = true /\
      Pipeline.psConstantBuffers (Pipeline.context d) 0 = true)
      (Pipeline.trace s (frame w)) /\
    (forall camera,
       Pipeline.sceneSettings (constantsFor camera)
         = Pipeline.sceneSettings (Scene.gPerFrameConstants w)).
Proof.
  intros w s mirrored constantsFor. unfold constantsFor, mirrored. split.
  - run_frame. repeat constructor.
  - intros camera. reflexivity.
Qed.

(** What the frame leaves in the render targets: the height map is cleared
    to zero and receives the water; the refraction and the reflection
    texture are cleared to the background colour and receive the six other
    models; the colour of the back buffer is never cleared, the seven draws
    of the main pass go on top of what it held.  The depth buffer is cleared
    to 1 at the start of each pass: at every draw it holds the earlier draws
    of the same pass other than the lights, which are drawn with the depth
    buffer read-only, and nothing else; after the frame it holds the ground,
    the troll, the crate, the water and the sky of the main pass. *)
Theorem frame_clears_and_contents :
  forall (w : Scene.World) (s : Pipeline.State),
    let s' := Pipeline.run s (frame w) in
    let ds := Pipeline.trace s (frame w) in
    let scenery :=
      [Scene.gGround; Scene.gTroll; Scene.gCrate; Scene.gSky;
       Scene.gLightModel 0; Scene.gLightModel 1] in
    Pipeline.waterHeight (Pipeline.colour s') =
      (Some (Float4 F32.zero F32.zero F32.zero F32.zero), [Scene.gWater]) /\
    Pipeline.refraction (Pipeline.colour s') =
      (Some Scene.gBackgroundColor, scenery) /\
    Pipeline.reflection (Pipeline.colour s') =
      (Some Scene.gBackgroundColor, scenery) /\
    Pipeline.backBuffer (Pipeline.colour s') =
      (fst (Pipeline.backBuffer (Pipeline.colour s)),
       snd (Pipeline.backBuffer (Pipeline.colour s)) ++
       [Scene.gGround; Scene.gTroll; Scene.gCrate; Scene.gWater; Scene.gSky;
        Scene.gLightModel 0; Scene.gLightModel 1]) /\
    (forall t,
       map (fun d => Pipeline.depth (Pipeline.context d)) (Pipeline.into t ds)
       = map (fun before =>
                (Some F32.one,
                 filter (fun m => negb (Pipeline.isLight m)) before))
             (Pipeline.prefixes (map Pipeline.model (Pipeline.into t ds)))) /\
    Pipeline.depth s' =
      (Some F32.one,
       [Scene.gGround; Scene.gTroll; Scene.gCrate; Scene.gWater;
        Scene.gSky]).
Proof.
  intros w s s' ds scenery. unfold s', ds, scenery.
  split; [run_frame; reflexivity|]. split; [run_frame; reflexivity|].
  split; [run_frame; reflexivity|].
  split.
  { assert (A : forall (l : list Scene.Model) a b c d e f g,
              ((((((l ++ [a]) ++ [b]) ++ [c]) ++ [d]) ++ [e]) ++ [f]) ++ [g]
              = l ++ [a; b; c; d; e; f; g])
      by (intros; rewrite <- !app_assoc; reflexivity).
    run_frame. f_equal. apply A. }
  split; [|run_frame; reflexivity].
  intros t. destruct t; run_frame; reflexivity.
Qed.

(** The two helpers of the frame.  RenderLitModels draws the ground, the
    troll and the crate and changes nothing on the device context but the
    texture in slot 0; RenderOtherModels draws the sky and then the lights,
    the lights with additive blending on a read-only depth buffer, and puts
    the standard states back (no blending, depth buffer in use, back-face
    culling) whatever state it was called in; it touches no texture slot
    but slot 0, no shader and no render target. *)
Theorem frame_helpers_restore_state :
  forall (w : Scene.World) (s : Pipeline.State),
    let lit := Pipeline.callsOf Scene.RenderLitModels w in
    let other := Pipeline.callsOf Scene.RenderOtherModels w in
    map Pipeline.model (Pipeline.trace s lit)
      = [Scene.gGround; Scene.gTroll; Scene.gCrate] /\
    Pipeline.fixedFunction (Pipeline.run s lit) = Pipeline.fixedFunction s /\
    Scene.finalWorld (Scene.RenderLitModels w) = w /\
    map (fun d => (Pipeline.model d,
                   Pipeline.fixedFunction (Pipeline.context d)))
        (Pipeline.trace s other)
      = [ (Scene.gSky,
           (Some Scene.gCullNoneState, Pipeline.blendState s,
            Pipeline.depthStencilState s));
          (Scene.gLightModel 0,
           (Some Scene.gCullNoneState, Some Scene.gAdditiveBlendingState,
            Some Scene.gDepthReadOnlyState));
          (Scene.gLightModel 1,
           (Some Scene.gCullNoneState, Some Scene.gAdditiveBlendingState,
            Some Scene.gDepthReadOnlyState)) ] /\
    Pipeline.fixedFunction (Pipeline.run s other)
      = (Some Scene.gCullBackState, Some Scene.gNoBlendingState,
         Some Scene.gUseDepthBufferState) /\
    (forall calls, calls = lit \/ calls = other ->
       let s' := Pipeline.run s calls in
       Scene.renderTarget (Pipeline.device s')
         = Scene.renderTarget (Pipeline.device s) /\
       Pipeline.shaders s' = Pipeline.shaders s /\
       Pipeline.constantBuffer s' = Pipeline.constantBuffer s /\
       (forall slot, slot <> 0%nat ->
          Scene.psResources (Pipeline.device s') slot
            = Scene.psResources (Pipeline.device s) slot) /\
       (forall slot,
          Scene.vsResources (Pipeline.device s') slot
            = Scene.vsResources (Pipeline.device s) slot)).
Proof.
  intros w s lit other. unfold lit, other.
  split; [run_frame; reflexivity|]. split; [run_frame; reflexivity|].
  split; [run_frame; reflexivity|]. split; [run_frame; reflexivity|].
  split; [run_frame; reflexivity|].
  intros calls [-> | ->]; run_frame.
  all: split; [reflexivity|]; split; [reflexivity|]; split; [reflexivity|].
  all: split; intros slot; [|reflexivity].
  all: intros N; destruct slot; [contradiction|reflexivity].
Qed.

End FrameDraws.

(** The first frame of the start scene on a device context nothing has been
    set on: the height map is in slot 2 at the six draws into the refraction
    texture. *)
Lemma frame_draws_render_texture_inputs_witness :
  Scene.frameStart (Pipeline.device Pipeline.initial) /\
  map (fun d => Pipeline.texture 2 (Pipeline.context d))
      (Pipeline.into Scene.gRefractionRenderTarget
         (Pipeline.trace Pipeline.initial
            (Scene.frameCalls Examples.plainMatrix Examples.plainMatrix
               Examples.plainMatrix Examples.startWorld)))
    = repeat (Some Scene.gWaterHeightSRV) 6.
Proof.
  split; [exact initialDevice_frameStart|].
  exact (proj1 (frame_draws_render_texture_inputs Examples.plainMatrix
                  Examples.plainMatrix Examples.plainMatrix
                  Examples.startWorld Pipeline.initial
                  initialDevice_frameStart)).
Defined.

(* ===================================================================== *)
(** * RenderScene and UpdateScene *)
(* ===================================================================== *)

(** Runs host code on symbolic globals, leaving arithmetic alone. *)
Ltac run_program :=
  cbv -[F32.of_Z F32.lit F32.mul F32.sub F32.add F32.div F32.zero F32.one
        F32.leb F32.ltb Scene.reflect Scene.gLightsColour
        Scene.gBackgroundColor Program.gLightsStrength Program.truncate
        Program.wrap32 Vec.scale3r Program.gAmbientColour
        Program.gSpecularPower Program.gLightOrbitRadius
        Program.gLightOrbitSpeed Z.add].

Ltac run_program_in H :=
  cbv -[F32.of_Z F32.lit F32.mul F32.sub F32.add F32.div F32.zero F32.one
        F32.leb F32.ltb Scene.reflect Scene.gLightsColour
        Scene.gBackgroundColor Program.gLightsStrength Program.truncate
        Program.wrap32 Vec.scale3r Program.gAmbientColour
        Program.gSpecularPower Program.gLightOrbitRadius
        Program.gLightOrbitSpeed Z.add] in H.

Section RenderSceneFacts.

Variables ViewMatrix ProjectionMatrix ViewProjectionMatrix
  : Scene.Camera -> CMatrix4x4.

Abbreviation RenderScene g :=
  (Program.RenderScene ViewMatrix ProjectionMatrix ViewProjectionMatrix g).

(** RenderScene sends the constant block three times.  Each time it carries
    the light colours scaled by the light strengths, the light positions,
    the ambient colour, the specular power, the viewport size converted to
    float, and the water values as the last update left them.  The camera
    position in it is the position of the main camera all three times: in
    the block of the reflection pass the camera matrix has the mirrored
    height in its position row while the camera position has not. *)
Theorem render_scene_constant_blocks :
  forall g : Program.Globals,
    let w := Program.world g in
    let pose := Scene.WorldMatrix (Scene.gCamera w) in
    let planeY := y3 (Scene.gWaterPosition w) in
    exists c1 c2 c3,
      Scene.sent (Program.contextCalls (snd (RenderScene g))) = [c1; c2; c3] /\
      Forall (fun c =>
        CommonH.light1Colour c =
          Vec.scale3r (Scene.gLightsColour 0) (Program.gLightsStrength 0) /\
        CommonH.light1Position c = Program.lightPosition g 0 /\
        CommonH.light2Colour c =
          Vec.scale3r (Scene.gLightsColour 1) (Program.gLightsStrength 1) /\
        CommonH.light2Position c = Program.lightPosition g 1 /\
        CommonH.ambientColour c = Program.gAmbientColour /\
        CommonH.specularPower c = Program.gSpecularPower /\
        CommonH.viewportWidth c = F32.of_Z (Program.gViewportWidth g) /\
        CommonH.viewportHeight c = F32.of_Z (Program.gViewportHeight g) /\
        CommonH.cameraPosition c = Scene.Position pose /\
        CommonH.waterPlaneY c
          = CommonH.waterPlaneY (Scene.gPerFrameConstants w) /\
        CommonH.waveScale c = CommonH.waveScale (Scene.gPerFrameConstants w) /\
        CommonH.waterMovement c
          = CommonH.waterMovement (Scene.gPerFrameConstants w))
        [c1; c2; c3] /\
      Scene.Position (CommonH.cameraMatrix c1) = Scene.Position pose /\
      Scene.Position (CommonH.cameraMatrix c2) =
        Float3 (e30 pose) (F32.sub (F32.mul planeY (F32.of_Z 2)) (e31 pose))
               (e32 pose) /\
      Scene.Position (CommonH.cameraMatrix c3) = Scene.Position pose.
Proof.
  intros g w pose planeY. unfold w, pose, planeY.
  do 3 eexists. split; [run_program; reflexivity|].
  split; [repeat constructor|].
  split; [reflexivity|]. split; reflexivity.
Qed.

(** RenderScene changes nothing of the scene: the camera, the water, the
    lights, the viewport size and every static are after the call what they
    were before it; only the constant block and the tint of the per-model
    constants are written, and the constant block is left as it was last
    sent.  The viewport is set first, with the size of the window and the
    depth range 0 to 1; all calls of the frame follow; the back buffer is
    presented last, waiting for vertical sync exactly when the frame rate
    is locked. *)
Theorem render_scene_leaves_scene_unchanged :
  forall g : Program.Globals,
    let g' := fst (RenderScene g) in
    let cs := snd (RenderScene g) in
    Scene.gCamera (Program.world g') = Scene.gCamera (Program.world g) /\
    Scene.gWaterPosition (Program.world g')
      = Scene.gWaterPosition (Program.world g) /\
    Scene.waveScaleStatic (Program.world g')
      = Scene.waveScaleStatic (Program.world g) /\
    Scene.waterPosStatic (Program.world g')
      = Scene.waterPosStatic (Program.world g) /\
    Program.withWorld g' (Program.world g) = g /\
    last (Scene.sent (Program.contextCalls cs))
         (Scene.gPerFrameConstants (Program.world g))
      = Scene.gPerFrameConstants (Program.world g') /\
    cs =
      Program.RSSetViewports
        {| Program.TopLeftX := F32.of_Z 0; Program.TopLeftY := F32.of_Z 0;
           Program.Width := F32.of_Z (Program.gViewportWidth g);
           Program.Height := F32.of_Z (Program.gViewportHeight g);
           Program.MinDepth := F32.zero; Program.MaxDepth := F32.one |}
      :: map Program.Context (Program.contextCalls cs)
      ++ [Program.Present (if Program.lockFPS g then 1 else 0)] /\
    List.length (Pipeline.trace Pipeline.initial (Program.contextCalls cs))
      = 20%nat.
Proof.
  intros g g' cs. unfold g', cs.
  split; [reflexivity|]. split; [reflexivity|]. split; [reflexivity|].
  split; [reflexivity|]. split; [reflexivity|].
  split; [run_program; reflexivity|].
  split; run_program; reflexivity.
Qed.

End RenderSceneFacts.

Section UpdateSceneFacts.

Variable CameraControl :
  float -> (Program.KeyCode -> bool) -> Scene.Camera -> Scene.Camera.
Variables cos sin : float -> float.
Variables ViewMatrix ProjectionMatrix ViewProjectionMatrix
  : Scene.Camera -> CMatrix4x4.

Abbreviation UpdateScene held hit frameTime g :=
  (Program.UpdateScene CameraControl cos sin held hit frameTime g).
Abbreviation runUpdates inputs g :=
  (Program.runUpdates CameraControl cos sin inputs g).

(** After an update the water plane of the constant block is the height of
    the water model, whatever the two were before, and a frame keeps both;
    so in every frame rendered after an update the plane in which the camera
    is mirrored for the reflection pass is the plane the shaders receive in
    gWaterPlaneY, in all three constant blocks of the frame. *)
Theorem water_plane_of_update_is_mirror_plane :
  forall (held hit : Program.KeyCode -> bool) (frameTime : float)
         (g : Program.Globals),
    let inSync (g : Program.Globals) :=
      CommonH.waterPlaneY (Scene.gPerFrameConstants (Program.world g))
        = y3 (Scene.gWaterPosition (Program.world g)) in
    let render g :=
      Program.RenderScene ViewMatrix ProjectionMatrix ViewProjectionMatrix g in
    inSync (fst (UpdateScene held hit frameTime g)) /\
    Program.contextCalls (snd (UpdateScene held hit frameTime g)) = [] /\
    (forall g1, inSync g1 ->
       inSync (fst (render g1)) /\
       exists c1 c2 c3,
         Scene.sent (Program.contextCalls (snd (render g1))) = [c1; c2; c3] /\
         CommonH.cameraMatrix c2 =
           Scene.reflect (CommonH.cameraMatrix c1) (CommonH.waterPlaneY c2) /\
         CommonH.waterPlaneY c1 = CommonH.waterPlaneY c2 /\
         CommonH.waterPlaneY c3 = CommonH.waterPlaneY c2).
Proof.
  intros held hit ft g inSync render. unfold inSync, render.
  split; [reflexivity|]. split.
  { unfold Program.UpdateScene.
    destruct (F32.ltb _ _); reflexivity. }
  intros g1 H. split; [exact H|].
  do 3 eexists. split; [run_program; reflexivity|].
  run_program_in H. run_program. rewrite H.
  split; [reflexivity|]. split; reflexivity.
Qed.

End UpdateSceneFacts.

(* ===================================================================== *)
(** * The frame statistics of UpdateScene *)
(* ===================================================================== *)

Lemma titles_app cs1 cs2 :
  Program.titles (cs1 ++ cs2) = Program.titles cs1 ++ Program.titles cs2.
Proof.
  induction cs1 as [|c cs1 IH]; [reflexivity|].
  destruct c; cbn [app Program.titles]; rewrite IH; reflexivity.
Qed.

Lemma wrap32_small z : - 2 ^ 31 <= z < 2 ^ 31 -> Program.wrap32 z = z.
Proof.
  intros H. unfold Program.wrap32.
  rewrite Z.mod_small by lia. lia.
Qed.

Section Statistics.

Variable CameraControl :
  float -> (Program.KeyCode -> bool) -> Scene.Camera -> Scene.Camera.
Variables cos sin : float -> float.

Lemma runUpdates_app inputs1 inputs2 g :
  Program.runUpdates CameraControl cos sin (inputs1 ++ inputs2) g =
  let '(g1, cs1) := Program.runUpdates CameraControl cos sin inputs1 g in
  let '(g2, cs2) := Program.runUpdates CameraControl cos sin inputs2 g1 in
  (g2, cs1 ++ cs2).
Proof.
  revert g. induction inputs1 as [|[[held hit] ft] rest IH]; intros g.
  - cbn [app Program.runUpdates].
    destruct (Program.runUpdates CameraControl cos sin inputs2 g); reflexivity.
  - cbn [app Program.runUpdates].
    destruct (Program.UpdateScene CameraControl cos sin held hit ft g)
      as [g1 cs1].
    rewrite IH.
    destruct (Program.runUpdates CameraControl cos sin rest g1) as [g2 cs2].
    destruct (Program.runUpdates CameraControl cos sin inputs2 g2)
      as [g3 cs3].
    rewrite app_assoc. reflexivity.
Qed.

(** One update, as far as the statistics go. *)
Lemma UpdateScene_statistics held hit ft g :
  let total := F32.add (Program.totalFrameTime g) ft in
  let count := Program.wrap32 (Program.frameCount g + 1) in
  let mean := F32.div total (F32.of_Z count) in
  let r := Program.UpdateScene CameraControl cos sin held hit ft g in
  if F32.ltb (F32.lit 5 10) total then
    Program.titles (snd r) =
      [ {| Program.frameTimeMs := F32.mul mean (F32.of_Z 1000);
           Program.fps :=
             Program.truncate
               (F32.add (F32.div (F32.of_Z 1) mean) (F32.lit 5 10)) |} ] /\
    Program.totalFrameTime (fst r) = F32.of_Z 0 /\
    Program.frameCount (fst r) = 0
  else
    Program.titles (snd r) = [] /\
    Program.totalFrameTime (fst r) = total /\
    Program.frameCount (fst r) = count.
Proof.
  cbv zeta. unfold Program.UpdateScene.
  destruct (F32.ltb (F32.lit 5 10) (F32.add (Program.totalFrameTime g) ft));
    repeat split.
Qed.

Lemma quiet_run inputs : forall g,
  0 <= Program.frameCount g ->
  Program.frameCount g + Z.of_nat (List.length inputs) < 2 ^ 31 ->
  Program.quiet inputs (Program.totalFrameTime g) = true ->
  let r := Program.runUpdates CameraControl cos sin inputs g in
  Program.titles (snd r) = [] /\
  Program.totalFrameTime (fst r) =
    Program.accumulated inputs (Program.totalFrameTime g) /\
  Program.frameCount (fst r) =
    Program.frameCount g + Z.of_nat (List.length inputs).
Proof.
  induction inputs as [|[[held hit] ft] rest IH]; intros g H0 Hn Hq.
  - cbn. repeat split. lia.
  - cbn [Program.quiet snd] in Hq. apply andb_true_iff in Hq.
    destruct Hq as [Hq1 Hq2]. apply negb_true_iff in Hq1.
    cbn [Program.runUpdates].
    pose proof (UpdateScene_statistics held hit ft g) as S.
    cbv zeta in S. rewrite Hq1 in S.
    destruct (Program.UpdateScene CameraControl cos sin held hit ft g)
      as [g1 cs1].
    cbn [fst snd] in S. destruct S as (T1 & T2 & T3).
    cbn [List.length] in Hn.
    rewrite wrap32_small in T3 by lia.
    specialize (IH g1). rewrite T2, T3 in IH.
    specialize (IH ltac:(lia) ltac:(lia) Hq2). cbv zeta in IH.
    destruct (Program.runUpdates CameraControl cos sin rest g1) as [g2 cs2].
    cbn [fst snd] in IH |- *. destruct IH as (I1 & I2 & I3).
    rewrite titles_app, T1, I1, I2, I3.
    cbn [List.length Program.accumulated fold_left snd].
    repeat split. lia.
Qed.

Lemma accumulated_app inputs1 inputs2 t :
  Program.accumulated (inputs1 ++ inputs2) t =
  Program.accumulated inputs2 (Program.accumulated inputs1 t).
Proof. apply fold_left_app. Qed.

(** The title shows the mean of the frame times since it was last shown.
    From the start of the program, or from an update that showed the title,
    the updates whose running total of frame times stays at half a second or
    less show nothing; the first update that takes the total over half a
    second shows the total divided by the number of updates (in
    milliseconds, and its inverse as frames per second) and starts the
    count again. *)
Theorem title_shows_mean_frame_time :
  forall (inputs : list Program.Input) (latest : Program.Input)
         (g : Program.Globals),
    Program.totalFrameTime g = F32.of_Z 0 ->
    Program.frameCount g = 0 ->
    Z.of_nat (List.length inputs) + 1 < 2 ^ 31 ->
    Program.quiet inputs (F32.of_Z 0) = true ->
    F32.ltb (F32.lit 5 10)
      (Program.accumulated (inputs ++ [latest]) (F32.of_Z 0)) = true ->
    let mean :=
      F32.div (Program.accumulated (inputs ++ [latest]) (F32.of_Z 0))
              (F32.of_Z (Z.of_nat (List.length inputs) + 1)) in
    let r := Program.runUpdates CameraControl cos sin (inputs ++ [latest]) g in
    Program.titles (snd r) =
      [ {| Program.frameTimeMs := F32.mul mean (F32.of_Z 1000);
           Program.fps :=
             Program.truncate
               (F32.add (F32.div (F32.of_Z 1) mean) (F32.lit 5 10)) |} ] /\
    Program.totalFrameTime (fst r) = F32.of_Z 0 /\
    Program.frameCount (fst r) = 0.
Proof.
  intros inputs [[held hit] ft] g Ht Hc Hn Hq Hs mean r.
  unfold r, mean. clear r mean.
  rewrite accumulated_app in *.
  cbn [Program.accumulated fold_left snd] in *.
  rewrite runUpdates_app.
  pose proof (quiet_run inputs g) as Q. rewrite Ht, Hc in Q.
  specialize (Q ltac:(lia) ltac:(lia) Hq). cbv zeta in Q.
  destruct (Program.runUpdates CameraControl cos sin inputs g) as [g1 cs1].
  cbn [fst snd] in Q. destruct Q as (Q1 & Q2 & Q3).
  cbn [Program.runUpdates].
  pose proof (UpdateScene_statistics held hit ft g1) as S.
  cbv zeta in S. rewrite Q2, Q3 in S.
  change (fold_left (fun t i => F32.add t (snd i)) inputs (F32.of_Z 0))
    with (Program.accumulated inputs (F32.of_Z 0)) in Hs |- *.
  rewrite Hs in S.
  rewrite wrap32_small in S by lia.
  destruct (Program.UpdateScene CameraControl cos sin held hit ft g1)
    as [g2 cs2].
  cbn [fst snd] in S |- *. destruct S as (S1 & S2 & S3).
  rewrite app_nil_r, titles_app, Q1, S1. cbn [app].
  repeat split; assumption.
Qed.

(** A frame time that is not a number stops the statistics for good: the
    total becomes NaN, which never exceeds half a second, so that update and
    no update after it shows a title, whatever the later frame times. *)
Theorem title_never_shown_after_nan_frame_time :
  forall (held hit : Program.KeyCode -> bool) (frameTime : float)
         (later : list Program.Input) (g : Program.Globals),
    F32.is_nan frameTime = true ->
    let r := Program.runUpdates CameraControl cos sin
               ((held, hit, frameTime) :: later) g in
    Program.titles (snd r) = [] /\
    F32.is_nan (Program.totalFrameTime (fst r)) = true.
Proof.
  assert (N : forall later g,
    F32.is_nan (Program.totalFrameTime g) = true ->
    let r := Program.runUpdates CameraControl cos sin later g in
    Program.titles (snd r) = [] /\
    F32.is_nan (Program.totalFrameTime (fst r)) = true).
  { induction later as [|[[held hit] ft] rest IH]; intros g Hn.
    - split; [reflexivity|exact Hn].
    - cbn [Program.runUpdates].
      pose proof (UpdateScene_statistics held hit ft g) as S. cbv zeta in S.
      destruct (Program.totalFrameTime g) eqn:E; try discriminate Hn.
      change (F32.add S754_nan ft) with S754_nan in S.
      change (F32.ltb (F32.lit 5 10) S754_nan) with false in S.
      destruct (Program.UpdateScene CameraControl cos sin held hit ft g)
        as [g1 cs1].
      cbn [fst snd] in S. destruct S as (S1 & S2 & S3).
      specialize (IH g1). rewrite S2 in IH. specialize (IH eq_refl).
      cbv zeta in IH.
      destruct (Program.runUpdates CameraControl cos sin rest g1) as [g2 cs2].
      cbn [fst snd] in IH |- *. destruct IH as [I1 I2].
      rewrite titles_app, S1, I1. split; [reflexivity|exact I2]. }
  intros held hit ft later g Hn r. unfold r. clear r.
  cbn [Program.runUpdates].
  pose proof (UpdateScene_statistics held hit ft g) as S. cbv zeta in S.
  destruct ft; try discriminate Hn.
  assert (A : F32.add (Program.totalFrameTime g) S754_nan = S754_nan)
    by (destruct (Program.totalFrameTime g); reflexivity).
  rewrite A in S.
  change (F32.ltb (F32.lit 5 10) S754_nan) with false in S.
  destruct (Program.UpdateScene CameraControl cos sin held hit S754_nan g)
    as [g1 cs1].
  cbn [fst snd] in S. destruct S as (S1 & S2 & S3).
  specialize (N later g1). rewrite S2 in N. specialize (N eq_refl).
  cbv zeta in N.
  destruct (Program.runUpdates CameraControl cos sin later g1) as [g2 cs2].
  cbn [fst snd] in N |- *. destruct N as [N1 N2].
  rewrite titles_app, S1, N1. split; [reflexivity|exact N2].
Qed.

End Statistics.

(** Three updates of a fifth of a second each: the third one shows a frame
    time of 200 milliseconds and 5 frames per second. *)
Lemma title_shows_mean_frame_time_witness :
  let slow : Program.Input :=
    (Program.noKey, Program.noKey, F32.lit 2 10) in
  let r := Program.runUpdates Program.fixedCamera (fun x => x) (fun x => x)
             ([slow; slow] ++ [slow]) Program.startGlobals in
  Program.quiet [slow; slow] (F32.of_Z 0) = true /\
  F32.ltb (F32.lit 5 10)
    (Program.accumulated ([slow; slow] ++ [slow]) (F32.of_Z 0)) = true /\
  map Program.fps (Program.titles (snd r)) = [Some 5] /\
  F32.leb (F32.of_Z 200)
    (hd F32.zero (map Program.frameTimeMs (Program.titles (snd r))))
    = true /\
  F32.leb (hd F32.zero (map Program.frameTimeMs (Program.titles (snd r))))
    (F32.lit 2001 10) = true /\
  Program.frameCount (fst r) = 0.
Proof.
  intros slow r.
  assert (Q : Program.quiet [slow; slow] (F32.of_Z 0) = true) by reflexivity.
  assert (S : F32.ltb (F32.lit 5 10)
                (Program.accumulated ([slow; slow] ++ [slow]) (F32.of_Z 0))
              = true) by reflexivity.
  destruct (title_shows_mean_frame_time Program.fixedCamera
              (fun x => x) (fun x => x) [slow; slow] slow
              Program.startGlobals eq_refl eq_refl ltac:(cbn; lia) Q S)
    as (T & _ & C).
  fold r in T, C.
  split; [exact Q|]. split; [exact S|].
  rewrite T. split; [reflexivity|]. split; [reflexivity|].
  split; [reflexivity|exact C].
Defined.

(** A NaN frame time followed by a frame of one second: no title. *)
Lemma title_never_shown_after_nan_witness :
  F32.is_nan S754_nan = true /\
  Program.titles
    (snd (Program.runUpdates Program.fixedCamera (fun x => x) (fun x => x)
            [ (Program.noKey, Program.noKey, S754_nan);
              (Program.noKey, Program.noKey, F32.of_Z 1) ]
            Program.startGlobals)) = [].
Proof.
  split; [reflexivity|].
  exact (proj1 (title_never_shown_after_nan_frame_time Program.fixedCamera
                  (fun x => x) (fun x => x) Program.noKey Program.noKey
                  S754_nan [(Program.noKey, Program.noKey, F32.of_Z 1)]
                  Program.startGlobals eq_refl)).
Defined.

(* ===================================================================== *)
(** * Set-up and release of the scene *)
(* ===================================================================== *)

(** Runs a session of set-up and release, leaving the answers of the
    environment alone. *)
Ltac run_session :=
  cbv -[F32.of_Z F32.lit Program.gLightsStrength ModelLayout.sizeof Z.lor
        Setup.meshThrows Setup.textureLoad Setup.statesCreated
        Setup.texture2DCreated Setup.targetViewCreated
        Setup.shaderViewCreated Setup.shadersLoaded
        Setup.constantBufferCreated Setup.count].

(** The same in a hypothesis. *)
Ltac run_setup_in H :=
  cbv -[F32.of_Z F32.lit Program.gLightsStrength ModelLayout.sizeof Z.lor
        Setup.meshThrows Setup.textureLoad Setup.statesCreated
        Setup.texture2DCreated Setup.targetViewCreated
        Setup.shaderViewCreated Setup.shadersLoaded
        Setup.constantBufferCreated] in H.

(** Case analysis on the answer to the next call of the environment that
    the run in [H] is waiting for. *)
Ltac case_call H c :=
  destruct c; run_setup_in H.

Ltac next_call H env :=
  match type of H with
  | context [Setup.meshThrows env ?m] => case_call H (Setup.meshThrows env m)
  | context [Setup.textureLoad env ?r] =>
      destruct (Setup.textureLoad env r) as [|[] []]; run_setup_in H
  | context [Setup.statesCreated env] => case_call H (Setup.statesCreated env)
  | context [Setup.texture2DCreated env ?r] =>
      case_call H (Setup.texture2DCreated env r)
  | context [Setup.targetViewCreated env ?r] =>
      case_call H (Setup.targetViewCreated env r)
  | context [Setup.shaderViewCreated env ?r] =>
      case_call H (Setup.shaderViewCreated env r)
  | context [Setup.shadersLoaded env] => case_call H (Setup.shadersLoaded env)
  | context [Setup.constantBufferCreated env ?r] =>
      case_call H (Setup.constantBufferCreated env r)
  end.

Section Sessions.
Variables (ToRadians : float -> float) (pow : float -> float -> float).

(** All paths through InitGeometry at once: the facts below are read off
    this one case analysis. *)
Lemma InitGeometry_paths :
  forall (env : Setup.Environment) (width height : Z),
    let r := Setup.InitGeometry env width height Setup.start in
    let failure := Setup.firstFailure env Setup.steps in
    let end_ := Setup.conclude ToRadians pow r in
    let made := flat_map Setup.created (fst (fst end_)) in
    let gone := flat_map Setup.disposed (snd (fst end_)) in
    Setup.result r =
      Some (match failure with None => true | Some _ => false end) /\
    Setup.gLastError (Setup.after r) =
      match failure with
      | None => ""%string
      | Some message => message
      end /\
    match failure with
    | None => forallb (Setup.holds (Setup.after r)) Setup.usedByFrame = true
    | Some _ => True
    end /\
    Forall (Setup.consistent width height) (Setup.events r) /\
    (forall p,
       Setup.count p made = Setup.count p gone /\
       (Setup.count p made <= 1)%nat) /\
    Setup.events (Setup.ReleaseResources (snd end_)) =
      filter (fun e => negb (Setup.isDelete e)) (snd (fst end_)).
Proof.
  intros env width height. cbv zeta.
  remember (Setup.InitGeometry env width height Setup.start) as r eqn:Er.
  cbv [Setup.firstFailure Setup.steps Setup.failure].
  run_setup_in Er.
  repeat next_call Er env.
  all: subst r.
  all: split; [reflexivity|]; split; [reflexivity|]; split; [reflexivity|].
  all: split; [|split; [run_session; intros p; split|reflexivity]].
  all: try (destruct p as [[]|[| | | | |[|[|i]]]| |[]|[]|[]|[]];
            cbv; auto; fail).
  all: cbv [Setup.events snd].
  all: repeat match goal with
         | |- Forall _ (_ :: _) => apply Forall_cons
         | |- Forall _ [] => apply Forall_nil
         end.
  all: cbv; auto 10.
Qed.

(** InitGeometry takes its steps in order and stops at the first that
    fails: it returns true exactly when no step fails, and then leaves
    gLastError as it was and every pointer the frame code uses set;
    otherwise it returns false with the message of the first failing step
    in gLastError (for a mesh, the message of the exception).  It holds
    whatever the calls answer. *)
Theorem InitGeometry_reports_first_failure :
  forall (env : Setup.Environment) (width height : Z),
    let r := Setup.InitGeometry env width height Setup.start in
    let failure := Setup.firstFailure env Setup.steps in
    Setup.result r =
      Some (match failure with None => true | Some _ => false end) /\
    Setup.gLastError (Setup.after r) =
      match failure with
      | None => ""%string
      | Some message => message
      end /\
    match failure with
    | None => forallb (Setup.holds (Setup.after r)) Setup.usedByFrame = true
    | Some _ => True
    end.
Proof.
  intros env width height.
  destruct (InitGeometry_paths env width height) as (A & B & C & _).
  split; [exact A|]. split; [exact B|exact C].
Qed.

(** Every creation call of InitGeometry is consistent with the frame code,
    whatever fails and wherever InitGeometry stops: the six diffuse maps and
    the three render textures get the views that [Scene.srvResource] and
    [Scene.rtvResource] name; the render textures have the size of the
    viewport, the water height as 32-bit float and the two others as 8-bit
    RGBA, and each shader view has the format of its texture, although one
    description is reused for all three; the two constant buffers have
    sizes that are multiples of 16 bytes. *)
Theorem InitGeometry_creates_consistent_views :
  forall (env : Setup.Environment) (width height : Z),
    Forall (Setup.consistent width height)
           (Setup.events (Setup.InitGeometry env width height Setup.start)).
Proof.
  intros env width height.
  destruct (InitGeometry_paths env width height) as (_ & _ & _ & D & _).
  exact D.
Qed.

(** No leak and no double release in a session: whatever fails in
    InitGeometry, and wherever it stops, every object that InitGeometry and
    InitScene created is disposed of exactly once by ReleaseResources, and
    ReleaseResources touches no object that was not created. *)
Theorem every_object_is_released_once :
  forall (env : Setup.Environment) (width height : Z) (p : Setup.Pointer),
    let r := Setup.session env width height ToRadians pow in
    let made := flat_map Setup.created (fst (fst r)) in
    let gone := flat_map Setup.disposed (snd (fst r)) in
    Setup.count p made = Setup.count p gone /\
    (Setup.count p made <= 1)%nat.
Proof.
  intros env width height p.
  destruct (InitGeometry_paths env width height) as (_ & _ & _ & _ & A & _).
  exact (A p).
Qed.

(** ReleaseResources is not idempotent.  Called a second time at the end of
    a session it makes every call of the first time again but the deletes:
    the pointers to models and meshes were set to null, the pointers to the
    Direct3D objects were not, so each Direct3D object is released once
    more. *)
Theorem second_release_repeats_every_release :
  forall (env : Setup.Environment) (width height : Z),
    let r := Setup.session env width height ToRadians pow in
    Setup.events (Setup.ReleaseResources (snd r)) =
      filter (fun e => negb (Setup.isDelete e)) (snd (fst r)).
Proof.
  intros env width height.
  destruct (InitGeometry_paths env width height) as (_ & _ & _ & _ & _ & B).
  exact B.
Qed.

End Sessions.

(* ===================================================================== *)
(** * The per-model constant block *)
(* ===================================================================== *)

Module LayoutFacts.
Import Layout.
Local Open Scope nat_scope.

Lemma store_length ws : forall mem a,
  a + List.length ws <= List.length mem ->
  List.length (store mem a ws) = List.length mem.
Proof.
  induction ws as [|w ws IH]; intros mem a H; [reflexivity|].
  cbn [store List.length] in *.
  assert (L : List.length (firstn a mem ++ w :: skipn (S a) mem)
              = List.length mem).
  { rewrite length_app, firstn_length_le by lia.
    cbn [List.length]. rewrite length_skipn. lia. }
  rewrite IH by (rewrite L; lia). exact L.
Qed.

Lemma nth_error_update {A} (mem : list A) a w i :
  a < List.length mem ->
  nth_error (firstn a mem ++ w :: skipn (S a) mem) i =
  if Nat.eqb i a then Some w else nth_error mem i.
Proof.
  intros H. destruct (Nat.eqb_spec i a) as [->|N].
  - rewrite nth_error_app2 by (rewrite firstn_length_le by lia; lia).
    rewrite firstn_length_le by lia. rewrite Nat.sub_diag. reflexivity.
  - destruct (Nat.lt_ge_cases i a) as [Lt|Ge].
    + rewrite nth_error_app1 by (rewrite firstn_length_le by lia; lia).
      rewrite nth_error_firstn.
      destruct (Nat.ltb_spec i a); [reflexivity|lia].
    + rewrite nth_error_app2 by (rewrite firstn_length_le by lia; lia).
      rewrite firstn_length_le by lia.
      replace (i - a) with (S (i - S a)) by lia.
      cbn [nth_error]. rewrite nth_error_skipn. f_equal. lia.
Qed.

Lemma store_nth ws : forall mem a i,
  a + List.length ws <= List.length mem ->
  nth_error (store mem a ws) i =
  if (Nat.leb a i && Nat.ltb i (a + List.length ws))%bool
  then nth_error ws (i - a) else nth_error mem i.
Proof.
  induction ws as [|w ws IH]; intros mem a i H.
  - cbn [store List.length].
    destruct (Nat.leb_spec a i); destruct (Nat.ltb_spec i (a + 0));
      cbn [andb]; try reflexivity; lia.
  - cbn [store List.length] in *.
    assert (L : List.length (firstn a mem ++ w :: skipn (S a) mem)
                = List.length mem).
    { rewrite length_app, firstn_length_le by lia.
      cbn [List.length]. rewrite length_skipn. lia. }
    rewrite IH by (rewrite L; lia).
    rewrite nth_error_update by lia.
    destruct (Nat.leb_spec (S a) i);
      destruct (Nat.ltb_spec i (S a + List.length ws));
      destruct (Nat.leb_spec a i);
      destruct (Nat.ltb_spec i (a + S (List.length ws)));
      destruct (Nat.eqb_spec i a); cbn [andb]; try lia; try reflexivity.
    + replace (i - a) with (S (i - S a)) by lia. reflexivity.
    + subst i. rewrite Nat.sub_diag. reflexivity.
Qed.

Lemma flatten_length v : List.length (flatten v) = words (typeOf v).
Proof. destruct v; reflexivity. Qed.

(** The words a stored value occupies read back as the value. *)
Lemma loadValue_of_words mem a v :
  (forall k, k < words (typeOf v) ->
     nth_error mem (a + k) = nth_error (flatten v) k) ->
  loadValue mem a (typeOf v) = Some (shaderView v).
Proof.
  intros H. destruct v as [x|x|x|m]; cbn [typeOf loadValue words] in *;
    unfold load.
  all: try (pose proof (H 0 ltac:(lia)) as H0; rewrite Nat.add_0_r in H0).
  - rewrite H0. reflexivity.
  - rewrite H0, (H 1) by lia. destruct x; reflexivity.
  - rewrite H0, (H 1), (H 2) by lia. destruct x; reflexivity.
  - assert (E : firstn 16 (skipn a mem) = flatten (VMatrix m)).
    { apply nth_error_ext. intros k.
      destruct (Nat.lt_ge_cases k 16) as [Lt|Ge].
      - rewrite nth_error_firstn.
        destruct (Nat.ltb_spec k 16); [|lia].
        rewrite nth_error_skipn. apply H. exact Lt.
      - rewrite (proj2 (nth_error_None _ _)).
        + symmetry. apply nth_error_None. exact Ge.
        + rewrite length_firstn. lia. }
    rewrite E. destruct m; reflexivity.
Qed.

Lemma fold_left_size ts : forall n,
  fold_left (fun n t => n + words t) ts n = n + ModelLayout.size ts.
Proof.
  induction ts as [|t ts IH]; intros n;
    cbn [fold_left ModelLayout.size fold_right].
  - lia.
  - rewrite IH. fold (ModelLayout.size ts). lia.
Qed.

Lemma storeAll_length vs : forall mem a,
  a + ModelLayout.size (map typeOf vs) <= List.length mem ->
  List.length (storeAll mem (cppOffsets a (map typeOf vs)) vs)
    = List.length mem.
Proof.
  induction vs as [|v vs IH]; intros mem a H; [reflexivity|].
  cbn [map cppOffsets storeAll ModelLayout.size fold_right] in *.
  fold (ModelLayout.size (map typeOf vs)) in H.
  rewrite IH; rewrite store_length; rewrite ?flatten_length; lia.
Qed.

Lemma storeAll_below vs : forall mem a i,
  a + ModelLayout.size (map typeOf vs) <= List.length mem -> i < a ->
  nth_error (storeAll mem (cppOffsets a (map typeOf vs)) vs) i
    = nth_error mem i.
Proof.
  induction vs as [|v vs IH]; intros mem a i H Hi; [reflexivity|].
  cbn [map cppOffsets storeAll ModelLayout.size fold_right] in *.
  fold (ModelLayout.size (map typeOf vs)) in H.
  rewrite IH by (rewrite ?store_length; rewrite ?flatten_length; lia).
  rewrite store_nth by (rewrite flatten_length; lia).
  destruct (Nat.leb_spec a i); [lia|]. reflexivity.
Qed.

(** Members stored one after the other are read back at the same offsets. *)
Lemma loadAll_storeAll vs : forall mem a,
  a + ModelLayout.size (map typeOf vs) <= List.length mem ->
  loadAll (storeAll mem (cppOffsets a (map typeOf vs)) vs)
          (cppOffsets a (map typeOf vs)) (map typeOf vs)
    = Some (map shaderView vs).
Proof.
  induction vs as [|v vs IH]; intros mem a H; [reflexivity|].
  cbn [map cppOffsets storeAll loadAll ModelLayout.size fold_right] in *.
  fold (ModelLayout.size (map typeOf vs)) in H.
  assert (B : a + words (typeOf v) + ModelLayout.size (map typeOf vs)
              <= List.length (store mem a (flatten v)))
    by (rewrite store_length; rewrite ?flatten_length; lia).
  rewrite (IH _ _ B).
  rewrite loadValue_of_words; [reflexivity|].
  intros k Hk.
  rewrite storeAll_below by (try exact B; lia).
  rewrite store_nth by (rewrite flatten_length; lia).
  rewrite flatten_length.
  destruct (Nat.leb_spec a (a + k)); [|lia].
  destruct (Nat.ltb_spec (a + k) (a + words (typeOf v))); [|lia].
  cbn [andb]. f_equal. lia.
Qed.

(** Where the host layout and the shader packing give the members of a
    block the same offsets, the shader reads every member from the words
    the host wrote for it: a scalar or a vector unchanged, a matrix with
    its rows and columns exchanged. *)
Lemma read_write vs :
  cppOffsets 0 (map typeOf vs) = hlslOffsets 0 (map typeOf vs) ->
  ModelLayout.read (map typeOf vs) (ModelLayout.write vs)
    = Some (map shaderView vs).
Proof.
  intros E. unfold ModelLayout.read, ModelLayout.write. rewrite <- E.
  apply loadAll_storeAll.
  rewrite repeat_length, fold_left_size. lia.
Qed.

End LayoutFacts.

(** The host structure PerModelConstants and the shader cbuffer
    PerModelConstants agree as the per-frame ones do: the same members in
    the same order, the array of 64 bone matrices included, each at the same
    offset under the layout rules of its side (the world matrix at byte 0,
    the colour at 64, the padding at 76, bone matrix i at 80 + 64 i); the
    structure takes 4176 bytes, a multiple of 16 as a constant buffer needs,
    as do the 368 bytes of the per-frame structure.  So the shaders read
    every member of a block with 64 bone matrices from the words the host
    wrote for it: the colour and the padding unchanged, the world matrix and
    every bone matrix with its rows and columns exchanged, since the
    cbuffer packs its matrices column-major. *)
Theorem per_model_constants_layout_agrees :
  forall c : ModelLayout.PerModelConstants,
    List.length (ModelLayout.boneMatrices c) = ModelLayout.MAX_BONES ->
    map (fun f => (Layout.hlslName (fst f), snd f))
        ModelLayout.cppPerModelConstants
      = ModelLayout.hlslPerModelConstants /\
    Layout.cppOffsets 0 (map snd ModelLayout.cppPerModelConstants)
      = Layout.hlslOffsets 0 (map snd ModelLayout.hlslPerModelConstants) /\
    Layout.cppOffsets 0 (map snd ModelLayout.cppPerModelConstants)
      = [0; 16; 19]%nat ++ map (fun i => 20 + 16 * i)%nat (seq 0 64) /\
    ModelLayout.sizeof ModelLayout.cppPerModelConstants = 4176 /\
    ModelLayout.sizeof Layout.cppPerFrameConstants = 368 /\
    4176 mod 16 = 0 /\ 368 mod 16 = 0 /\
    map Layout.typeOf (ModelLayout.cppMembers c)
      = map snd ModelLayout.cppPerModelConstants /\
    ModelLayout.read (map snd ModelLayout.hlslPerModelConstants)
      (ModelLayout.write (ModelLayout.cppMembers c))
      = Some ([ Layout.VMatrix
                  (Layout.transpose (ModelLayout.worldMatrix c));
                Layout.VFloat3 (ModelLayout.objectColour c);
                Layout.VFloat (ModelLayout.padding4 c) ]
              ++ map (fun m => Layout.VMatrix (Layout.transpose m))
                     (ModelLayout.boneMatrices c)).
Proof.
  intros c H.
  assert (T : map Layout.typeOf (ModelLayout.cppMembers c)
              = map snd ModelLayout.cppPerModelConstants).
  { unfold ModelLayout.cppMembers, ModelLayout.cppPerModelConstants,
      ModelLayout.array.
    rewrite !map_app, map_map. cbn [map snd Layout.typeOf]. f_equal.
    rewrite <- H. clear H.
    induction (ModelLayout.boneMatrices c) as [|m l IH]; [reflexivity|].
    cbn [map List.length repeat]. rewrite IH. reflexivity. }
  assert (O : Layout.cppOffsets 0 (map snd ModelLayout.cppPerModelConstants)
              = Layout.hlslOffsets 0
                  (map snd ModelLayout.hlslPerModelConstants))
    by (vm_compute; reflexivity).
  split; [vm_compute; reflexivity|]. split; [exact O|].
  split; [vm_compute; reflexivity|]. split; [vm_compute; reflexivity|].
  split; [vm_compute; reflexivity|]. split; [reflexivity|].
  split; [reflexivity|]. split; [exact T|].
  replace (map snd ModelLayout.hlslPerModelConstants)
    with (map Layout.typeOf (ModelLayout.cppMembers c))
    by (rewrite T; vm_compute; reflexivity).
  rewrite LayoutFacts.read_write.
  - unfold ModelLayout.cppMembers. rewrite map_app, map_map. reflexivity.
  - rewrite T. rewrite O. vm_compute. reflexivity.
Qed.

(** A block of 64 bone matrices that are all the pose of a level camera. *)
Lemma per_model_constants_layout_witness :
  let c :=
    {| ModelLayout.worldMatrix := Examples.levelPose (F32.of_Z 1);
       ModelLayout.objectColour := Scene.gLightsColour 0;
       ModelLayout.padding4 := F32.zero;
       ModelLayout.boneMatrices :=
         repeat (Examples.levelPose (F32.of_Z 2)) 64 |} in
  List.length (ModelLayout.boneMatrices c) = ModelLayout.MAX_BONES /\
  ModelLayout.read (map snd ModelLayout.hlslPerModelConstants)
    (ModelLayout.write (ModelLayout.cppMembers c))
    = Some ([ Layout.VMatrix
                (Layout.transpose (Examples.levelPose (F32.of_Z 1)));
              Layout.VFloat3 (Scene.gLightsColour 0);
              Layout.VFloat F32.zero ]
            ++ repeat (Layout.VMatrix
                         (Layout.transpose
                            (Examples.levelPose (F32.of_Z 2)))) 64).
Proof.
  intros c. split; [reflexivity|].
  exact (proj2 (proj2 (proj2 (proj2 (proj2 (proj2 (proj2 (proj2
           (per_model_constants_layout_agrees c eq_refl))))))))).
Defined.

(* ===================================================================== *)
(** * Sums and differences in single precision *)
(* ===================================================================== *)

Module SumFacts.
Import Rounding RoundingFacts.

Local Abbreviation prec := F32.prec.
Local Abbreviation emax := F32.emax.
Local Abbreviation emin := F32.emin.

(** Aligning a mantissa to a smaller exponent multiplies it by a power of
    two. *)
Lemma iter_xO d m : Z.pos (Pos.iter xO m d) = Z.pos m * 2 ^ Z.pos d.
Proof.
  induction d as [|d IH] using Pos.peano_ind; [cbn; lia|].
  rewrite Pos.iter_succ, Pos2Z.inj_xO, IH, Pos2Z.inj_succ, Z.pow_succ_r by lia.
  lia.
Qed.

Lemma shl_align_spec m e e' :
  snd (shl_align m e e') = Z.min e e' /\
  Z.pos (fst (shl_align m e e')) = Z.pos m * 2 ^ (e - Z.min e e').
Proof.
  unfold shl_align. destruct (e' - e) as [|d|d] eqn:E; cbn [fst snd].
  - rewrite Z.min_l by lia. rewrite Z.sub_diag. lia.
  - rewrite Z.min_l by lia. rewrite Z.sub_diag. lia.
  - rewrite Z.min_r by lia. split; [reflexivity|].
    rewrite iter_xO. f_equal. f_equal. lia.
Qed.

(** What [binary_round] returns: the mantissa is brought to the canonical
    exponent, exactly when that is smaller and by a rounded cut when it is
    larger. *)
Lemma binary_round_spec s m e :
  exists d n,
    0 <= d /\ 0 <= n /\ (emin <= e -> emin <= e - d) /\
    binary_round prec emax s m e =
      finish s (rne (Z.pos m * 2 ^ d) (2 ^ n)) (e - d + n) /\
    canonCut (Z.pos m * 2 ^ d) (2 ^ n) (e - d + n).
Proof.
  unfold binary_round.
  set (f := fexp prec emax (Z.pos (digits2_pos m) + e)).
  destruct (shl_align_spec m e f) as [S1 S2].
  destruct (shl_align m e f) as [mz ez]. cbn [fst snd] in S1, S2. subst ez.
  set (d := e - Z.min e f) in *.
  assert (Hd : 0 <= d) by (unfold d; lia).
  assert (D : Zdigits2 (Z.pos mz) + Z.min e f = Z.pos (digits2_pos m) + e).
  { rewrite S2, Zdigits2_mul_pow2 by lia. cbn [Zdigits2]. unfold d. lia. }
  set (n := fexp prec emax (Zdigits2 (Z.pos mz) + Z.min e f) - Z.min e f).
  assert (Hn : 0 <= n) by (unfold n; rewrite D; fold f; lia).
  exists d, n. split; [exact Hd|]. split; [exact Hn|]. split.
  { intros He. assert (X := fexp_ge_emin (Z.pos (digits2_pos m) + e)).
    fold f in X. unfold d. lia. }
  destruct (round_exact s (Z.pos mz) (Z.min e f) ltac:(lia) Hn) as [R C].
  fold n in R, C.
  replace (e - d) with (Z.min e f) by (unfold d; lia).
  rewrite <- S2. split; assumption.
Qed.

(** The rounded mantissa of a canonical cut. *)
Lemma rne_cut_bounds a B t :
  0 <= a -> 0 < B -> canonCut a B t ->
  0 <= rne a B <= 2 ^ prec /\ (emin < t -> 2 ^ (prec - 1) <= rne a B).
Proof.
  intros Ha HB (Ht & U & L). assert (R := rne_bounds a B).
  assert (Q : 0 <= a / B) by (apply Z.div_pos; lia).
  split; [lia|]. intros G. specialize (L G). lia.
Qed.

(** Rounding a mantissa that is not zero gives a number that is not zero,
    of the sign asked for. *)
Lemma binary_round_cases s m e :
  emin <= e ->
  (exists m' e', binary_round prec emax s m e = S754_finite s m' e') \/
  binary_round prec emax s m e = S754_infinity s.
Proof.
  intros He. destruct (binary_round_spec s m e) as (d & n & Hd & Hn & E & R & C).
  specialize (E He). rewrite R.
  assert (Ha : 0 < Z.pos m * 2 ^ d).
  { apply Z.mul_pos_pos; [lia|]. apply Z.pow_pos_nonneg; lia. }
  assert (HB : 0 < 2 ^ n) by (apply Z.pow_pos_nonneg; lia).
  destruct (rne_cut_bounds _ _ _ (Z.lt_le_incl _ _ Ha) HB C) as [B1 B2].
  assert (P : 0 < rne (Z.pos m * 2 ^ d) (2 ^ n)).
  { destruct (Z_lt_le_dec emin (e - d + n)) as [G|G].
    - specialize (B2 G). assert (0 < 2 ^ (prec - 1)) by reflexivity. lia.
    - assert (n = 0) by lia. subst n.
      assert (X := rne_bounds (Z.pos m * 2 ^ d) (2 ^ 0)).
      change (2 ^ 0) with 1 in *. rewrite Z.div_1_r in X. lia. }
  destruct C as (Ct & _).
  destruct (finish_cases s _ _ Ct B1)
    as [[A _]|[[A [B' ->]]|[[A [B' ->]]|[[A [B' ->]]|[A [B' ->]]]]]];
    try lia; eauto.
Qed.

(** Rounding is monotone on the mantissas of one exponent. *)
Lemma binary_round_mono m1 m2 e :
  (m1 <= m2)%positive ->
  SFleb (binary_round prec emax false m1 e)
        (binary_round prec emax false m2 e) = true.
Proof.
  intros H.
  destruct (binary_round_spec false m1 e) as (d1 & n1 & Hd1 & Hn1 & _ & R1 & C1).
  destruct (binary_round_spec false m2 e) as (d2 & n2 & Hd2 & Hn2 & _ & R2 & C2).
  rewrite R1, R2.
  assert (P1 : 0 < 2 ^ d1) by (apply Z.pow_pos_nonneg; lia).
  assert (P2 : 0 < 2 ^ d2) by (apply Z.pow_pos_nonneg; lia).
  assert (Q1 : 0 < 2 ^ n1) by (apply Z.pow_pos_nonneg; lia).
  assert (Q2 : 0 < 2 ^ n2) by (apply Z.pow_pos_nonneg; lia).
  apply (finish_rne_le _ _ _ _ _ _ (n1 + d2) (n2 + d1)); try lia; try assumption.
  rewrite !Z.pow_add_r by lia.
  assert (Hm : Z.pos m1 <= Z.pos m2) by exact H.
  assert (K : 0 <= 2 ^ d1 * 2 ^ n2 * (2 ^ n1 * 2 ^ d2)).
  { repeat apply Z.mul_nonneg_nonneg; lia. }
  replace (Z.pos m1 * 2 ^ d1 * 2 ^ n2 * (2 ^ n1 * 2 ^ d2))
    with (Z.pos m1 * (2 ^ d1 * 2 ^ n2 * (2 ^ n1 * 2 ^ d2))) by ring.
  replace (Z.pos m2 * 2 ^ d2 * 2 ^ n1 * (2 ^ n2 * 2 ^ d1))
    with (Z.pos m2 * (2 ^ d1 * 2 ^ n2 * (2 ^ n1 * 2 ^ d2))) by ring.
  apply Z.mul_le_mono_nonneg_r; assumption.
Qed.

(** The sign asked of a rounding only sets the sign of the result. *)
Lemma finish_opp M t : finish true M t = SFopp (finish false M t).
Proof.
  unfold finish. destruct (shr_fexp prec emax M t loc_Exact) as [mrs e].
  destruct (shr_m mrs); try reflexivity.
  destruct (e <=? emax - prec); reflexivity.
Qed.

Lemma binary_round_opp m e :
  binary_round prec emax true m e = SFopp (binary_round prec emax false m e).
Proof.
  unfold binary_round. destruct (shl_align m e _) as [mz ez].
  rewrite !binary_round_aux_finish.
  destruct (shr_fexp prec emax (Z.pos mz) ez loc_Exact) as [mrs e'].
  apply finish_opp.
Qed.

(** Changing both signs reverses the order. *)
Lemma SFcompare_opp a b : SFcompare (SFopp a) (SFopp b) = SFcompare b a.
Proof.
  destruct a as [sa|sa| |sa ma ea], b as [sb|sb| |sb mb eb];
    try reflexivity; try (destruct sa; reflexivity);
    try (destruct sb; reflexivity); try (destruct sa, sb; reflexivity).
  cbn [SFopp SFcompare].
  rewrite (Z.compare_antisym ea eb), (ZC4 mb ma).
  destruct sa, sb; cbn [negb]; try reflexivity;
    destruct (ea ?= eb); cbn [CompOpp]; try reflexivity.
  destruct (Pos.compare_cont Eq ma mb); reflexivity.
Qed.

Lemma SFleb_opp a b : SFleb (SFopp a) (SFopp b) = SFleb b a.
Proof. unfold SFleb. rewrite SFcompare_opp. reflexivity. Qed.


(** Rounding an integer at an exponent is monotone in the integer. *)
Lemma normalize_mono e S1 S2 z1 z2 :
  emin <= e -> S1 <= S2 ->
  SFleb (binary_normalize prec emax S1 e z1)
        (binary_normalize prec emax S2 e z2) = true.
Proof.
  intros He H. unfold binary_normalize.
  destruct S1 as [|p1|p1], S2 as [|p2|p2]; try lia; try reflexivity.
  - destruct (binary_round_cases false p2 e He) as [(m & e' & ->)| ->];
      reflexivity.
  - apply binary_round_mono. exact H.
  - destruct (binary_round_cases true p1 e He) as [(m & e' & ->)| ->];
      reflexivity.
  - destruct (binary_round_cases true p1 e He) as [(m & e' & ->)| ->];
      destruct (binary_round_cases false p2 e He) as [(m2 & e2 & ->)| ->];
      reflexivity.
  - rewrite !binary_round_opp, SFleb_opp. apply binary_round_mono.
    assert (Z.pos p2 <= Z.pos p1) by lia. assumption.
Qed.


(** Rounding a number that is representable gives that number. *)
Lemma binary_round_exact s m e p ez :
  valid_binary prec emax (S754_finite s m e) = true ->
  ez <= e -> Z.pos p = Z.pos m * 2 ^ (e - ez) ->
  binary_round prec emax s p ez = S754_finite s m e.
Proof.
  intros V Hz Hp.
  destruct (valid_canonical s m e V) as [Hc He].
  destruct (valid_finite_bounds s m e V) as (E1 & U1 & _).
  assert (Hd : Zdigits2 (Z.pos p) + ez = Zdigits2 (Z.pos m) + e).
  { rewrite Hp, Zdigits2_mul_pow2 by lia. lia. }
  unfold binary_round.
  change (Z.pos (digits2_pos p)) with (Zdigits2 (Z.pos p)).
  rewrite Hd, Hc.
  destruct (shl_align_spec p ez e) as [S1 S2].
  destruct (shl_align p ez e) as [mz ez']. cbn [fst snd] in S1, S2.
  rewrite Z.min_l in S1, S2 by lia. subst ez'.
  rewrite Z.sub_diag, Z.mul_1_r in S2. injection S2 as ->.
  assert (Hn : fexp prec emax (Zdigits2 (Z.pos p) + ez) - ez = e - ez)
    by (rewrite Hd, Hc; reflexivity).
  destruct (round_exact s (Z.pos p) ez ltac:(lia)) as [R _].
  { rewrite Hn. lia. }
  rewrite R, Hn, Hp. unfold rne.
  assert (P : 0 < 2 ^ (e - ez)) by (apply Z.pow_pos_nonneg; lia).
  rewrite Z.div_mul, Z_mod_mult by lia. cbn [locOf Z.eqb round_nearest_even].
  replace (ez + (e - ez)) with e by lia.
  rewrite finish_small by (unfold emin in E1; lia).
  apply Z.leb_le in He. rewrite He. reflexivity.
Qed.

Lemma normalize_exact s m e ez z :
  valid_binary prec emax (S754_finite s m e) = true -> ez <= e ->
  binary_normalize prec emax (cond_Zopp s (Z.pos m * 2 ^ (e - ez))) ez z
    = S754_finite s m e.
Proof.
  intros V Hz.
  assert (P : 0 < Z.pos m * 2 ^ (e - ez)).
  { apply Z.mul_pos_pos; [lia|]. apply Z.pow_pos_nonneg; lia. }
  destruct (Z.pos m * 2 ^ (e - ez)) as [|p|p] eqn:E; try lia.
  destruct s; cbn [cond_Zopp Z.opp binary_normalize];
    apply binary_round_exact; auto.
Qed.

(** A rounded canonical cut is a well-formed number. *)
Lemma finish_valid s M t :
  emin <= t -> 0 <= M <= 2 ^ prec -> (emin < t -> 2 ^ (prec - 1) <= M) ->
  valid_binary prec emax (finish s M t) = true.
Proof.
  intros Ht HM L.
  destruct (finish_cases s M t Ht HM)
    as [[A ->]|[[A [B' ->]]|[[A [B' ->]]|[[A [B' ->]]|[A [B' ->]]]]]];
    try reflexivity.
  - cbn [valid_binary]. unfold bounded, canonical_mantissa.
    apply andb_true_iff. split; [|apply Z.leb_le; lia].
    apply Z.eqb_eq. change (Z.pos (digits2_pos (Z.to_pos M)))
      with (Zdigits2 (Z.pos (Z.to_pos M))).
    rewrite Z2Pos.id by lia. rewrite fexp_eq.
    assert (D1 : Zdigits2 M <= prec)
      by (apply Zdigits2_le; [unfold F32.prec; lia | lia]).
    destruct (Z_lt_le_dec emin t) as [G|G].
    + assert (D2 : prec <= Zdigits2 M)
        by (apply Zdigits2_ge; [apply L; exact G|reflexivity]).
      lia.
    + lia.
  - cbn [valid_binary]. unfold bounded, canonical_mantissa.
    apply andb_true_iff. split; [|apply Z.leb_le; lia].
    apply Z.eqb_eq. change (Z.pos (digits2_pos (Z.to_pos (2 ^ (prec - 1)))))
      with prec. rewrite fexp_eq. lia.
Qed.

Lemma binary_round_valid s m e :
  emin <= e -> valid_binary prec emax (binary_round prec emax s m e) = true.
Proof.
  intros He. destruct (binary_round_spec s m e) as (d & n & Hd & Hn & E & R & C).
  rewrite R.
  assert (Ha : 0 <= Z.pos m * 2 ^ d).
  { apply Z.mul_nonneg_nonneg; [lia|]. apply Z.pow_nonneg; lia. }
  assert (HB : 0 < 2 ^ n) by (apply Z.pow_pos_nonneg; lia).
  destruct (rne_cut_bounds _ _ _ Ha HB C) as [B1 B2].
  destruct C as (Ct & _). apply finish_valid; assumption.
Qed.

Lemma normalize_valid S e z :
  emin <= e -> valid_binary prec emax (binary_normalize prec emax S e z) = true.
Proof.
  intros He. destruct S; cbn [binary_normalize];
    [reflexivity|apply binary_round_valid|apply binary_round_valid]; exact He.
Qed.

(** The integer that a finite number stands for at an exponent [ez] not
    above its own. *)
Local Abbreviation scaled s m e ez := (cond_Zopp s (Z.pos m * 2 ^ (e - ez))).

(** [SFadd] and [SFsub] on finite numbers: the sum or difference of the two
    integers at the smaller exponent, rounded. *)
Lemma SFadd_finite sx mx ex sy my ey :
  SFadd prec emax (S754_finite sx mx ex) (S754_finite sy my ey) =
  binary_normalize prec emax
    (scaled sx mx ex (Z.min ex ey) + scaled sy my ey (Z.min ex ey))
    (Z.min ex ey) false.
Proof.
  cbn [SFadd].
  destruct (shl_align_spec mx ex (Z.min ex ey)) as [_ ->].
  destruct (shl_align_spec my ey (Z.min ex ey)) as [_ ->].
  replace (Z.min ex (Z.min ex ey)) with (Z.min ex ey) by lia.
  replace (Z.min ey (Z.min ex ey)) with (Z.min ex ey) by lia.
  reflexivity.
Qed.

Lemma SFsub_finite sx mx ex sy my ey :
  SFsub prec emax (S754_finite sx mx ex) (S754_finite sy my ey) =
  binary_normalize prec emax
    (scaled sx mx ex (Z.min ex ey) - scaled sy my ey (Z.min ex ey))
    (Z.min ex ey) false.
Proof.
  cbn [SFsub].
  destruct (shl_align_spec mx ex (Z.min ex ey)) as [_ ->].
  destruct (shl_align_spec my ey (Z.min ex ey)) as [_ ->].
  replace (Z.min ex (Z.min ex ey)) with (Z.min ex ey) by lia.
  replace (Z.min ey (Z.min ex ey)) with (Z.min ex ey) by lia.
  reflexivity.
Qed.

Lemma scaled_pos m e ez : ez <= e -> 0 < Z.pos m * 2 ^ (e - ez).
Proof.
  intros H. apply Z.mul_pos_pos; [lia|]. apply Z.pow_pos_nonneg; lia.
Qed.

(** The sum and the difference of two well-formed numbers are well formed. *)
Lemma add_valid x y :
  F32.valid x = true -> F32.valid y = true -> F32.valid (F32.add x y) = true.
Proof.
  intros Vx Vy. unfold F32.valid, F32.add in *.
  destruct x as [sx|sx| |sx mx ex], y as [sy|sy| |sy my ey];
    try reflexivity; try assumption;
    try (destruct sx, sy; reflexivity).
  rewrite SFadd_finite. apply normalize_valid.
  destruct (valid_finite_bounds _ _ _ Vx) as (E1 & _).
  destruct (valid_finite_bounds _ _ _ Vy) as (E2 & _). lia.
Qed.

Lemma sub_valid x y :
  F32.valid x = true -> F32.valid y = true -> F32.valid (F32.sub x y) = true.
Proof.
  intros Vx Vy. unfold F32.valid, F32.sub in *.
  destruct x as [sx|sx| |sx mx ex], y as [sy|sy| |sy my ey];
    try reflexivity; try assumption;
    try (destruct sx, sy; reflexivity).
  rewrite SFsub_finite. apply normalize_valid.
  destruct (valid_finite_bounds _ _ _ Vx) as (E1 & _).
  destruct (valid_finite_bounds _ _ _ Vy) as (E2 & _). lia.
Qed.

Lemma compare_refl_finite s m e :
  SFcompare (S754_finite s m e) (S754_finite s m e) = Some Eq.
Proof.
  cbn [SFcompare]. rewrite Z.compare_refl, Pos.compare_cont_refl.
  destruct s; reflexivity.
Qed.

(** Adding a number that is not negative does not make a finite number
    smaller, and subtracting it does not make it larger: rounding cannot
    take the result to the other side. *)
Lemma add_nonneg_ge x d :
  F32.valid x = true -> F32.valid d = true -> F32.is_finite x = true ->
  F32.leb F32.zero d = true ->
  F32.leb x (F32.add x d) = true.
Proof.
  intros Vx Vd Fx Sd. rewrite zero_eq in Sd.
  unfold F32.valid, F32.add, F32.leb in *.
  destruct x as [sx|sx| |sx mx ex]; try discriminate Fx;
    destruct d as [sd|sd| |sd md ed]; try discriminate Sd;
    try (destruct sd; try discriminate Sd);
    try (destruct sx; reflexivity);
    try (destruct sx, sd; reflexivity).
  all: try (cbn [SFadd]; unfold SFleb; rewrite compare_refl_finite;
            reflexivity).
  rewrite SFadd_finite.
  destruct (valid_finite_bounds _ _ _ Vx) as (E1 & _).
  destruct (valid_finite_bounds _ _ _ Vd) as (E2 & _).
  assert (P := scaled_pos md ed (Z.min ex ed) ltac:(lia)).
  assert (M := normalize_mono (Z.min ex ed)
                 (scaled sx mx ex (Z.min ex ed))
                 (scaled sx mx ex (Z.min ex ed)
                  + scaled false md ed (Z.min ex ed))
                 false false ltac:(lia)).
  cbn [cond_Zopp] in M |- *.
  rewrite (normalize_exact sx mx ex (Z.min ex ed) false Vx) in M by lia.
  apply M. lia.
Qed.

Lemma sub_nonneg_le x d :
  F32.valid x = true -> F32.valid d = true -> F32.is_finite x = true ->
  F32.leb F32.zero d = true ->
  F32.leb (F32.sub x d) x = true.
Proof.
  intros Vx Vd Fx Sd. rewrite zero_eq in Sd.
  unfold F32.valid, F32.sub, F32.leb in *.
  destruct x as [sx|sx| |sx mx ex]; try discriminate Fx;
    destruct d as [sd|sd| |sd md ed]; try discriminate Sd;
    try (destruct sd; try discriminate Sd);
    try (destruct sx; reflexivity);
    try (destruct sx, sd; reflexivity).
  all: try (cbn [SFsub]; unfold SFleb; rewrite compare_refl_finite;
            reflexivity).
  rewrite SFsub_finite.
  destruct (valid_finite_bounds _ _ _ Vx) as (E1 & _).
  destruct (valid_finite_bounds _ _ _ Vd) as (E2 & _).
  assert (P := scaled_pos md ed (Z.min ex ed) ltac:(lia)).
  assert (M := normalize_mono (Z.min ex ed)
                 (scaled sx mx ex (Z.min ex ed)
                  - scaled false md ed (Z.min ex ed))
                 (scaled sx mx ex (Z.min ex ed))
                 false false ltac:(lia)).
  cbn [cond_Zopp] in M |- *.
  rewrite (normalize_exact sx mx ex (Z.min ex ed) false Vx) in M by lia.
  apply M. lia.
Qed.

(** The sum of two numbers that are not negative is not negative. *)
Lemma add_nonneg x d :
  F32.valid x = true -> F32.valid d = true ->
  F32.leb F32.zero x = true -> F32.leb F32.zero d = true ->
  F32.leb F32.zero (F32.add x d) = true.
Proof.
  intros Vx Vd Sx Sd. rewrite zero_eq in *.
  unfold F32.valid, F32.add, F32.leb in *.
  destruct x as [sx|sx| |sx mx ex]; try discriminate Sx;
    destruct d as [sd|sd| |sd md ed]; try discriminate Sd;
    try (destruct sx; try discriminate Sx);
    try (destruct sd; try discriminate Sd);
    try reflexivity; try (destruct sx; reflexivity);
    try (destruct sd; reflexivity); try (destruct sx, sd; reflexivity).
  rewrite SFadd_finite.
  destruct (valid_finite_bounds _ _ _ Vx) as (E1 & _).
  destruct (valid_finite_bounds _ _ _ Vd) as (E2 & _).
  assert (P1 := scaled_pos mx ex (Z.min ex ed) ltac:(lia)).
  assert (P2 := scaled_pos md ed (Z.min ex ed) ltac:(lia)).
  cbn [cond_Zopp].
  apply (normalize_mono (Z.min ex ed) 0 _ false false); lia.
Qed.

Lemma leb_refl x : F32.is_nan x = false -> F32.leb x x = true.
Proof.
  destruct x as [s|s| |s m e]; intros H; try discriminate H;
    try (destruct s; reflexivity).
  unfold F32.leb, SFleb. rewrite compare_refl_finite. reflexivity.
Qed.

Lemma SFleb_finite_neg m1 e1 m2 e2 :
  SFleb (S754_finite true m1 e1) (S754_finite true m2 e2) = true <->
  e2 < e1 \/ (e2 = e1 /\ Z.pos m2 <= Z.pos m1).
Proof.
  change (S754_finite true m1 e1) with (SFopp (S754_finite false m1 e1)).
  change (S754_finite true m2 e2) with (SFopp (S754_finite false m2 e2)).
  rewrite SFleb_opp. apply SFleb_finite_pos.
Qed.

(** The order of the numbers is transitive. *)
Lemma leb_trans x y z :
  F32.leb x y = true -> F32.leb y z = true -> F32.leb x z = true.
Proof.
  unfold F32.leb.
  destruct x as [sx|sx| |sx mx ex], y as [sy|sy| |sy my ey],
           z as [sz|sz| |sz mz ez]; intros H1 H2;
    try discriminate H1; try discriminate H2; try reflexivity;
    try (destruct sx; try discriminate H1; try reflexivity);
    try (destruct sy; try discriminate H1; try discriminate H2;
         try reflexivity);
    try (destruct sz; try discriminate H1; try discriminate H2;
         try reflexivity).
  - apply SFleb_finite_neg in H1, H2. apply SFleb_finite_neg. lia.
  - apply SFleb_finite_pos in H1, H2. apply SFleb_finite_pos. lia.
Qed.

(** A number with a finite number below it is finite or plus infinity, and
    one with a finite number above it is finite or minus infinity. *)
Lemma above_finite lo x :
  F32.is_finite lo = true -> F32.leb lo x = true ->
  F32.is_finite x = true \/ x = S754_infinity false.
Proof.
  destruct lo as [s|s| |s m e], x as [sx|[]| |sx mx ex]; intros F H;
    try discriminate F; try (destruct s; discriminate H); auto.
Qed.

Lemma below_finite hi x :
  F32.is_finite hi = true -> F32.leb x hi = true ->
  F32.is_finite x = true \/ x = S754_infinity true.
Proof.
  destruct hi as [s|s| |s m e], x as [sx|[]| |sx mx ex]; intros F H;
    try discriminate F; try (destruct s; discriminate H); auto.
Qed.

(** Adding to a number that is not below some finite number, and
    subtracting from one that is not above some finite number. *)
Lemma add_nonneg_ge_above lo x d :
  F32.is_finite lo = true -> F32.leb lo x = true ->
  F32.valid x = true -> F32.valid d = true -> F32.leb F32.zero d = true ->
  F32.leb x (F32.add x d) = true.
Proof.
  intros F H Vx Vd Sd. destruct (above_finite lo x F H) as [Fx| ->].
  - apply add_nonneg_ge; assumption.
  - rewrite zero_eq in Sd.
    destruct d as [s|s| |s m e]; try discriminate Sd;
      destruct s; try discriminate Sd; reflexivity.
Qed.

Lemma sub_nonneg_le_below hi x d :
  F32.is_finite hi = true -> F32.leb x hi = true ->
  F32.valid x = true -> F32.valid d = true -> F32.leb F32.zero d = true ->
  F32.leb (F32.sub x d) x = true.
Proof.
  intros F H Vx Vd Sd. destruct (below_finite hi x F H) as [Fx| ->].
  - apply sub_nonneg_le; assumption.
  - rewrite zero_eq in Sd.
    destruct d as [s|s| |s m e]; try discriminate Sd;
      destruct s; try discriminate Sd; reflexivity.
Qed.

(** A number that is neither a NaN nor below zero is at least zero. *)
Lemma not_ltb_zero_leb x :
  F32.is_nan x = false -> F32.ltb x F32.zero = false ->
  F32.leb F32.zero x = true.
Proof.
  rewrite zero_eq. destruct x as [s|s| |s m e]; intros N H;
    try discriminate N; destruct s; try discriminate H; reflexivity.
Qed.

Lemma leb_not_nan_l x y : F32.leb x y = true -> F32.is_nan x = false.
Proof. destruct x; intros H; try discriminate H; reflexivity. Qed.




(** The product of two well-formed numbers is well formed, and the
    product of two finite numbers has the product of their signs. *)
Lemma mul_valid x y :
  F32.valid x = true -> F32.valid y = true -> F32.valid (F32.mul x y) = true.
Proof.
  intros Vx Vy. unfold F32.valid, F32.mul in *.
  destruct x as [sx|sx| |sx mx ex], y as [sy|sy| |sy my ey];
    try reflexivity.
  cbn [SFmul].
  destruct (valid_finite_bounds _ _ _ Vx) as (E1 & U1 & L1).
  destruct (valid_finite_bounds _ _ _ Vy) as (E2 & U2 & L2).
  change (Z.pos (mx * my)) with (Z.pos mx * Z.pos my).
  set (a := Z.pos mx * Z.pos my).
  assert (Ha : 0 < a) by (unfold a; lia).
  assert (Hn : 0 <= fexp prec emax (Zdigits2 a + (ex + ey)) - (ex + ey)).
  { rewrite fexp_eq.
    destruct (Z_lt_le_dec emin ex) as [G1|G1].
    - specialize (L1 G1).
      assert (prec <= Zdigits2 a)
        by (apply Zdigits2_ge; [unfold a; nia|reflexivity]).
      lia.
    - destruct (Z_lt_le_dec emin ey) as [G2|G2].
      + specialize (L2 G2).
        assert (prec <= Zdigits2 a)
          by (apply Zdigits2_ge; [unfold a; nia|reflexivity]).
        lia.
      + unfold F32.emin, SpecFloat.emin, F32.emax, F32.prec in *. lia. }
  destruct (round_exact (xorb sx sy) a (ex + ey) ltac:(lia) Hn) as [R C].
  rewrite R.
  assert (HB : 0 < 2 ^ (fexp prec emax (Zdigits2 a + (ex + ey)) - (ex + ey)))
    by (apply Z.pow_pos_nonneg; lia).
  destruct (rne_cut_bounds _ _ _ (Z.lt_le_incl _ _ Ha) HB C) as [B1 B2].
  destruct C as (Ct & _). apply finish_valid; assumption.
Qed.

(** A number that is not negative, multiplied by a positive finite number,
    is not negative. *)
Lemma mul_nonneg_l c x :
  F32.is_finite c = true -> F32.ltb F32.zero c = true ->
  F32.leb F32.zero x = true ->
  F32.leb F32.zero (F32.mul c x) = true.
Proof.
  intros Fc Pc Sx. rewrite zero_eq in *. unfold F32.mul, F32.leb, F32.ltb in *.
  destruct c as [sc|sc| |sc mc ec]; try discriminate Fc; try discriminate Pc.
  destruct sc; try discriminate Pc.
  destruct x as [sx|sx| |sx mx ex]; try discriminate Sx;
    try (destruct sx; try discriminate Sx; reflexivity).
  destruct sx; try discriminate Sx. cbn [SFmul xorb].
  assert (H := binary_round_aux_hasSign false (Z.pos (mc * mx)) (ec + ex)
                 loc_Exact ltac:(lia)).
  destruct (binary_round_aux _ _ _ _ _ _) as [s|s| |s m e];
    try discriminate H; destruct s; try discriminate H; reflexivity.
Qed.

Lemma mul_nonneg_r c x :
  F32.is_finite c = true -> F32.ltb F32.zero c = true ->
  F32.leb F32.zero x = true ->
  F32.leb F32.zero (F32.mul x c) = true.
Proof.
  intros Fc Pc Sx. rewrite zero_eq in *. unfold F32.mul, F32.leb, F32.ltb in *.
  destruct c as [sc|sc| |sc mc ec]; try discriminate Fc; try discriminate Pc.
  destruct sc; try discriminate Pc.
  destruct x as [sx|sx| |sx mx ex]; try discriminate Sx;
    try (destruct sx; try discriminate Sx; reflexivity).
  destruct sx; try discriminate Sx. cbn [SFmul xorb].
  assert (H := binary_round_aux_hasSign false (Z.pos (mx * mc)) (ex + ec)
                 loc_Exact ltac:(lia)).
  destruct (binary_round_aux _ _ _ _ _ _) as [s|s| |s m e];
    try discriminate H; destruct s; try discriminate H; reflexivity.
Qed.

(** Products and sums with a zero. *)
Lemma mul_zero_r x s :
  (exists s', F32.mul x (S754_zero s) = S754_zero s') \/
  F32.mul x (S754_zero s) = S754_nan.
Proof.
  destruct x as [sx|sx| |sx m e]; cbn; eauto.
Qed.

Lemma add_zero_r y s :
  F32.is_nan y = false -> F32.eqb (F32.add y (S754_zero s)) y = true.
Proof.
  destruct y as [sy|sy| |sy m e]; intros H; try discriminate H.
  - destruct sy, s; reflexivity.
  - destruct sy; reflexivity.
  - unfold F32.eqb, F32.add, SFeqb. cbn [SFadd].
    rewrite compare_refl_finite. reflexivity.
Qed.

Lemma mul_zero_r_finite x s :
  F32.is_finite x = true ->
  exists s', F32.mul x (S754_zero s) = S754_zero s'.
Proof.
  destruct x as [sx|sx| |sx m e]; intros H; try discriminate H; cbn; eauto.
Qed.

Lemma mul_zero_r_not_finite x s :
  F32.is_finite x = false -> F32.mul x (S754_zero s) = S754_nan.
Proof.
  destruct x as [sx|sx| |sx m e]; intros H; try discriminate H; reflexivity.
Qed.

Lemma add_zero_r_nan y s :
  F32.is_nan (F32.add y (S754_zero s)) = F32.is_nan y.
Proof.
  destruct y as [sy|sy| |sy m e]; try reflexivity.
  destruct sy, s; reflexivity.
Qed.

Lemma add_nan_r y : F32.add y S754_nan = S754_nan.
Proof. destruct y; reflexivity. Qed.

End SumFacts.

(* ===================================================================== *)
(** * The water while no key is held, and the shaders at the edges *)
(* ===================================================================== *)

Section IdleWater.

Variable CameraControl :
  float -> (Program.KeyCode -> bool) -> Scene.Camera -> Scene.Camera.
Variables cos sin : float -> float.

(** One update with the water keys up. *)
Lemma UpdateScene_water_keys_up held hit ft g :
  (forall k : Scene.KeyCode, held (Program.waterKey k) = false) ->
  F32.ltb (Scene.waveScaleStatic (Program.world g)) (F32.of_Z 0) = false ->
  let w' :=
    Program.world
      (fst (Program.UpdateScene CameraControl cos sin held hit ft g)) in
  Scene.gWaterPosition w' = Scene.gWaterPosition (Program.world g) /\
  Scene.waveScaleStatic w' = Scene.waveScaleStatic (Program.world g) /\
  CommonH.waterPlaneY (Scene.gPerFrameConstants w')
    = y3 (Scene.gWaterPosition (Program.world g)) /\
  CommonH.waveScale (Scene.gPerFrameConstants w')
    = Scene.waveScaleStatic (Program.world g).
Proof.
  intros K H.
  assert (K1 := K Scene.Key_Period). assert (K2 := K Scene.Key_Comma).
  assert (K3 := K Scene.Key_Plus). assert (K4 := K Scene.Key_Minus).
  cbn [Program.waterKey] in K1, K2, K3, K4.
  cbv zeta. unfold Program.UpdateScene.
  cbn [Scene.setCamera Scene.UpdateScene Scene.bind Scene.get
       Scene.setWaterPosition Scene.setStatics Scene.setPerFrameConstants
       Scene.updateWaveScale Program.waterKey fst snd Program.world
       Scene.gWaterPosition Scene.waveScaleStatic Scene.gPerFrameConstants
       Scene.waterPosStatic Scene.gCamera].
  unfold Scene.UpdateScene, Scene.bind, Scene.get, Scene.setWaterPosition,
    Scene.setStatics, Scene.setPerFrameConstants, Scene.updateWaveScale,
    Scene.setCamera.
  cbn [Program.waterKey fst snd Program.world
       Scene.gWaterPosition Scene.waveScaleStatic Scene.gPerFrameConstants
       Scene.waterPosStatic Scene.gCamera].
  rewrite K1, K2, K3, K4, H.
  destruct (Scene.gWaterPosition (Program.world g)) as [x y z].
  repeat split.
Qed.

(** While none of the four water keys is held, the water stays where it is
    and the waves keep their height, whatever else is pressed, for whatever
    frame times (a NaN included) and however many updates: the position of
    the water model and the static wave scale are unchanged, and after at
    least one update the constant block carries exactly them.  The wave
    scale needs to be not below zero to begin with, as it is from the
    start of the program on. *)
Theorem water_unchanged_while_no_water_key_is_held :
  forall (inputs : list Program.Input) (g : Program.Globals),
    Forall Program.waterKeysUp inputs ->
    F32.ltb (Scene.waveScaleStatic (Program.world g)) (F32.of_Z 0) = false ->
    let w' :=
      Program.world (fst (Program.runUpdates CameraControl cos sin inputs g)) in
    Scene.gWaterPosition w' = Scene.gWaterPosition (Program.world g) /\
    Scene.waveScaleStatic w' = Scene.waveScaleStatic (Program.world g) /\
    (inputs <> [] ->
     CommonH.waterPlaneY (Scene.gPerFrameConstants w')
       = y3 (Scene.gWaterPosition (Program.world g)) /\
     CommonH.waveScale (Scene.gPerFrameConstants w')
       = Scene.waveScaleStatic (Program.world g)).
Proof.
  intros inputs. induction inputs as [|[[held hit] ft] rest IH];
    intros g HF H0; cbv zeta.
  - cbn. split; [reflexivity|]. split; [reflexivity|]. intros C. contradiction.
  - inversion HF as [|? ? Hi HF' E]; subst.
    assert (S := UpdateScene_water_keys_up held hit ft g Hi H0).
    cbv zeta in S. destruct S as (S1 & S2 & S3 & S4).
    cbn [Program.runUpdates].
    destruct (Program.UpdateScene CameraControl cos sin held hit ft g)
      as [g1 cs1] eqn:E1.
    cbn [fst] in S1, S2, S3, S4.
    assert (H1 : F32.ltb (Scene.waveScaleStatic (Program.world g1))
                   (F32.of_Z 0) = false) by (rewrite S2; exact H0).
    specialize (IH g1 HF' H1). cbv zeta in IH.
    destruct (Program.runUpdates CameraControl cos sin rest g1)
      as [g2 cs2] eqn:E2.
    cbn [fst] in IH |- *. destruct IH as (I1 & I2 & I3).
    split; [congruence|]. split; [congruence|]. intros _.
    destruct rest as [|i rest'].
    + cbn in E2. injection E2 as <- _. split; assumption.
    + destruct (I3 ltac:(discriminate)) as [J1 J2].
      split; congruence.
Qed.

End IdleWater.

(** Two updates of the start scene with only the camera keys down. *)
Lemma water_unchanged_witness :
  let inputs :=
    [ (fun k => match k with Program.Key_Up => true | _ => false end,
       Program.noKey, F32.lit 1 60);
      (Program.noKey, Program.noKey, S754_nan) ] in
  Forall Program.waterKeysUp inputs /\
  Scene.gWaterPosition
    (Program.world
       (fst (Program.runUpdates Program.fixedCamera (fun x => x) (fun x => x)
               inputs Program.startGlobals)))
    = Float3 F32.zero (F32.of_Z 10) F32.zero.
Proof.
  cbv zeta.
  assert (H : Forall Program.waterKeysUp
    [ (fun k => match k with Program.Key_Up => true | _ => false end,
       Program.noKey, F32.lit 1 60);
      (Program.noKey, Program.noKey, S754_nan) ]).
  { repeat constructor; intros k; destruct k; reflexivity. }
  split; [exact H|].
  exact (proj1 (water_unchanged_while_no_water_key_is_held
                  Program.fixedCamera (fun x => x) (fun x => x) _
                  Program.startGlobals H eq_refl)).
Defined.


(** Flushing changes nothing but a denormal number. *)
Lemma flush_same (x : float) :
  Direct3D.denormal x = false -> Direct3D.flush x = x.
Proof.
  intros D. destruct x as [s|s| |s m e]; try reflexivity.
  unfold Direct3D.flush. rewrite D. reflexivity.
Qed.


(** Flushing keeps a number finite or not finite, and a NaN a NaN. *)
Lemma flush_is_finite (x : float) :
  F32.is_finite (Direct3D.flush x) = F32.is_finite x.
Proof.
  destruct x as [s|s| |s m e]; try reflexivity.
  unfold Direct3D.flush. destruct (Direct3D.denormal _); reflexivity.
Qed.

(** In a shader, a product with a zero is a zero or, when the other factor
    is not finite, a NaN. *)
Lemma shader_mul_zero_r (x : float) (s : bool) :
  (F32.is_finite x = true ->
   exists s', Direct3D.mul x (S754_zero s) = S754_zero s') /\
  (F32.is_finite x = false -> Direct3D.mul x (S754_zero s) = S754_nan).
Proof.
  unfold Direct3D.mul. cbn [Direct3D.flush]. split; intros F.
  - rewrite <- flush_is_finite in F.
    destruct (SumFacts.mul_zero_r_finite _ s F) as [s' M]. rewrite M.
    exists s'. reflexivity.
  - rewrite <- flush_is_finite in F.
    rewrite (SumFacts.mul_zero_r_not_finite _ s F). reflexivity.
Qed.

(** In a shader, a zero added to a number that is not denormal gives a
    number equal to it. *)
Lemma shader_add_zero_r (y : float) (s : bool) :
  Direct3D.denormal y = false ->
  F32.is_nan (Direct3D.add y (S754_zero s)) = F32.is_nan y /\
  (F32.is_nan y = false ->
   F32.eqb (Direct3D.add y (S754_zero s)) y = true).
Proof.
  intros D. unfold Direct3D.add. rewrite (flush_same y D).
  cbn [Direct3D.flush].
  destruct y as [sy|sy| |sy m e].
  - split; [destruct sy, s; reflexivity|].
    intros _. destruct sy, s; reflexivity.
  - split; [reflexivity|]. intros _. destruct sy; reflexivity.
  - split; [reflexivity|]. intros N. discriminate N.
  - change (F32.add (S754_finite sy m e) (S754_zero s))
      with (S754_finite sy m e).
    rewrite (flush_same _ D). split; [reflexivity|].
    intros _. unfold F32.eqb, SFeqb.
    rewrite SumFacts.compare_refl_finite. reflexivity.
Qed.

Lemma shader_add_nan_r (y : float) : Direct3D.add y S754_nan = S754_nan.
Proof.
  unfold Direct3D.add. cbn [Direct3D.flush].
  rewrite SumFacts.add_nan_r. reflexivity.
Qed.

(** With the wave scale at zero (where holding the minus key leaves it) the
    water-surface vertex shader moves no vertex whose height is not a
    denormal number: x, z and w of the model position are passed on as they
    are, and the height it outputs is the height of the vertex plus the
    height term times the wave scale, which is a NaN exactly when the
    height of the vertex is a NaN or the height term (the four sampled
    heights added, averaged, centred and scaled) is not finite, and is
    equal to the height of the vertex in every other case.  The same holds
    of that sum as a shader unit computes it, with denormal numbers
    flushed to zero, whatever number the unit has for the height term. *)
Theorem flat_water_at_zero_wave_scale :
  forall (NormalHeightMap : Texture2D) (cb : CommonHlsli.PerFrameConstants)
         (input : CommonHlsli.BasicVertex) (s : bool),
    CommonHlsli.gWaveScale cb = S754_zero s ->
    Direct3D.denormal (y3 (CommonHlsli.position input)) = false ->
    let p :=
      WaterSurface_vs.displacedModelPosition NormalHeightMap cb input in
    let y := y3 (CommonHlsli.position input) in
    let term := WaterSurface_vs.heightTerm NormalHeightMap cb input in
    y4 p = F32.add y (F32.mul term (CommonHlsli.gWaveScale cb)) /\
    x4 p = x3 (CommonHlsli.position input) /\
    z4 p = z3 (CommonHlsli.position input) /\
    w4 p = F32.one /\
    (F32.is_nan (y4 p) = true <->
     F32.is_nan y = true \/ F32.is_finite term = false) /\
    (F32.is_nan (y4 p) = false -> F32.eqb (y4 p) y = true) /\
    (forall flushedTerm : float,
       let out :=
         Direct3D.add y
           (Direct3D.mul flushedTerm (CommonHlsli.gWaveScale cb)) in
       (F32.is_nan out = true <->
        F32.is_nan y = true \/ F32.is_finite flushedTerm = false) /\
       (F32.is_nan out = false -> F32.eqb out y = true)).
Proof.
  intros tex cb input s Hs D p y term.
  assert (E : y4 p = F32.add y (F32.mul term (CommonHlsli.gWaveScale cb)))
    by reflexivity.
  split; [exact E|].
  split; [reflexivity|]. split; [reflexivity|]. split; [reflexivity|].
  rewrite E, Hs. clear E p. fold y in D.
  assert (G : forall b : bool, b = true <-> b = true \/ true = false).
  { intros b. split; [intros N; left; exact N|].
    intros [N|N]; [exact N|discriminate N]. }
  assert (G' : forall a : bool, true = true <-> a = true \/ false = false).
  { intros a. split; [intros _; right; reflexivity|reflexivity]. }
  split; [|split].
  - destruct (F32.is_finite term) eqn:F.
    + destruct (SumFacts.mul_zero_r_finite term s F) as [s' M]. rewrite M.
      rewrite SumFacts.add_zero_r_nan. apply G.
    + rewrite (SumFacts.mul_zero_r_not_finite term s F).
      rewrite SumFacts.add_nan_r. apply G'.
  - destruct (F32.is_finite term) eqn:F.
    + destruct (SumFacts.mul_zero_r_finite term s F) as [s' M]. rewrite M.
      rewrite SumFacts.add_zero_r_nan. intros N.
      apply SumFacts.add_zero_r. exact N.
    + rewrite (SumFacts.mul_zero_r_not_finite term s F).
      rewrite SumFacts.add_nan_r. intros N. discriminate N.
  - intros A out. unfold out. clear out.
    destruct (shader_mul_zero_r A s) as [Z1 Z2].
    destruct (F32.is_finite A) eqn:F.
    + destruct (Z1 eq_refl) as [s' M]. rewrite M.
      destruct (shader_add_zero_r y s' D) as [N1 N2]. rewrite N1.
      split; [apply G|exact N2].
    + rewrite (Z2 eq_refl), shader_add_nan_r.
      split; [apply G'|]. intros N. discriminate N.
Qed.

(** A vertex at height 3 with the wave scale at zero stays at height 3. *)
Lemma flat_water_at_zero_wave_scale_witness :
  CommonHlsli.gWaveScale Cases.stillConstants = S754_zero false /\
  Direct3D.denormal (y3 (CommonHlsli.position Cases.gridVertex)) = false /\
  F32.eqb
    (y4 (WaterSurface_vs.displacedModelPosition Examples.flatWater
           Cases.stillConstants Cases.gridVertex))
    (F32.of_Z 3) = true.
Proof.
  split; [reflexivity|]. split; [reflexivity|].
  exact (proj1 (proj2 (proj2 (proj2 (proj2 (proj2
           (flat_water_at_zero_wave_scale Examples.flatWater
              Cases.stillConstants Cases.gridVertex false
              eq_refl eq_refl))))))
         eq_refl).
Defined.

(** A vertex whose height is a denormal number is moved by the shader unit,
    to height zero, and is not moved when denormal numbers are kept. *)
Lemma shader_unit_flattens_denormal_height :
  Direct3D.denormal Cases.tinyStep = true /\
  Direct3D.add Cases.tinyStep (Direct3D.mul F32.one F32.zero) = F32.zero /\
  F32.eqb F32.zero Cases.tinyStep = false /\
  F32.add Cases.tinyStep (F32.mul F32.one F32.zero) = Cases.tinyStep.
Proof.
  split; [reflexivity|]. split; [reflexivity|]. split; reflexivity.
Qed.


(** A pixel whose depth is not a number (the height map or the world
    position holds a NaN or two infinities of one sign) is not discarded:
    the refraction shader writes it with alpha exactly 0, and the darken
    factor of every channel is 0. *)
Theorem refraction_keeps_pixel_of_nan_depth :
  forall (WaterHeightMap : Texture2D) (cb : CommonHlsli.PerFrameConstants)
         (PixelLighting : CommonHlsli.LightingPixelShaderInput -> float4)
         (input : CommonHlsli.LightingPixelShaderInput),
    let depth :=
      RefractedPixelLighting_ps.objectDepth WaterHeightMap cb input in
    F32.is_nan depth = true ->
    RefractedPixelLighting_ps.depthDarken depth
      = Float3 F32.zero F32.zero F32.zero /\
    exists colour,
      RefractedPixelLighting_ps.main WaterHeightMap cb PixelLighting input
        = Some colour /\
      w4 colour = F32.zero.
Proof.
  intros W cb PL input depth H.
  unfold RefractedPixelLighting_ps.main. fold depth.
  destruct depth; try discriminate H.
  split; [reflexivity|]. eexists. split; reflexivity.
Qed.

(** A pixel under a height map that holds no number. *)
Lemma refraction_keeps_pixel_of_nan_depth_witness :
  F32.is_nan
    (RefractedPixelLighting_ps.objectDepth Cases.voidWater
       Examples.shaderConstants (Examples.pixelAt (F32.of_Z 5))) = true /\
  RefractedPixelLighting_ps.depthDarken
    (RefractedPixelLighting_ps.objectDepth Cases.voidWater
       Examples.shaderConstants (Examples.pixelAt (F32.of_Z 5)))
    = Float3 F32.zero F32.zero F32.zero.
Proof.
  split; [reflexivity|].
  exact (proj1 (refraction_keeps_pixel_of_nan_depth Cases.voidWater
                  Examples.shaderConstants Examples.greyLighting
                  (Examples.pixelAt (F32.of_Z 5)) eq_refl)).
Defined.

(* ===================================================================== *)
(** * The water line and the water keys *)
(* ===================================================================== *)



(** Both heights are normal numbers and the pixel is above the water, and
    yet the shader unit keeps the pixel: the difference of the heights,
    -0.25 * 2^-126, is flushed to zero before [clip] tests it.  With
    denormal numbers kept, the same pixel is discarded. *)
Lemma refraction_keeps_pixel_just_above_water :
  Direct3D.denormal Cases.tinyLow = false /\
  Direct3D.denormal Cases.tinyHigh = false /\
  F32.ltb Cases.tinyLow Cases.tinyHigh = true /\
  Hlsl.clip (Direct3D.sub Cases.tinyLow Cases.tinyHigh) = false /\
  Hlsl.clip (F32.sub Cases.tinyLow Cases.tinyHigh) = true /\
  RefractedPixelLighting_ps.main Cases.tinyWater Examples.shaderConstants
    Examples.greyLighting (Examples.pixelAt Cases.tinyHigh) = None.
Proof.
  split; [reflexivity|]. split; [reflexivity|]. split; [reflexivity|].
  split; [reflexivity|]. split; [reflexivity|]. vm_compute. reflexivity.
Qed.

Section WaterKeys.

Variable CameraControl :
  float -> (Program.KeyCode -> bool) -> Scene.Camera -> Scene.Camera.
Variables cos sin : float -> float.

(** What one update does to the water. *)
Lemma UpdateScene_water held hit ft g :
  let w := Program.world g in
  let w' :=
    Program.world
      (fst (Program.UpdateScene CameraControl cos sin held hit ft g)) in
  let h := y3 (Scene.gWaterPosition w) in
  let h1 :=
    if held Program.Key_Period then F32.add h (F32.mul (F32.of_Z 5) ft)
    else h in
  y3 (Scene.gWaterPosition w') =
    (if held Program.Key_Comma then F32.sub h1 (F32.mul (F32.of_Z 5) ft)
     else h1) /\
  Scene.waveScaleStatic w' =
    Scene.updateWaveScale (fun k => held (Program.waterKey k)) ft
      (Scene.waveScaleStatic w) /\
  Scene.waterPosStatic w' =
    Vec.add2 (Scene.waterPosStatic w)
      (Vec.scale2l (F32.mul ft (F32.of_Z 1))
         (Float2 (F32.lit 1 100) (F32.lit 15 1000))).
Proof.
  cbv zeta. split; [reflexivity|]. split; reflexivity.
Qed.

(** What holds before a run and is kept by every update of the run holds
    after it. *)
Lemma runUpdates_invariant (P : Program.Globals -> Prop)
    (ok : Program.Input -> Prop) :
  (forall held hit ft g, ok (held, hit, ft) -> P g ->
     P (fst (Program.UpdateScene CameraControl cos sin held hit ft g))) ->
  forall inputs g, Forall ok inputs -> P g ->
    P (fst (Program.runUpdates CameraControl cos sin inputs g)).
Proof.
  intros Step inputs.
  induction inputs as [|[[held hit] ft] rest IH]; intros g HF HP.
  - exact HP.
  - inversion HF as [|? ? Hi HF' E]; subst. cbn [Program.runUpdates].
    specialize (Step held hit ft g Hi HP).
    destruct (Program.UpdateScene CameraControl cos sin held hit ft g)
      as [g1 cs1].
    cbn [fst] in Step. specialize (IH g1 HF' Step).
    destruct (Program.runUpdates CameraControl cos sin rest g1) as [g2 cs2].
    exact IH.
Qed.

Local Abbreviation height g := (y3 (Scene.gWaterPosition (Program.world g))).
Local Abbreviation scale g := (Scene.waveScaleStatic (Program.world g)).
Local Abbreviation scroll g := (Scene.waterPosStatic (Program.world g)).
Local Abbreviation run inputs g :=
  (fst (Program.runUpdates CameraControl cos sin inputs g)).

(** The steps of one update are well formed and not negative. *)
Lemma steady_steps ft :
  F32.valid ft = true -> F32.leb F32.zero ft = true ->
  (F32.valid (F32.mul (F32.of_Z 5) ft) = true /\
   F32.leb F32.zero (F32.mul (F32.of_Z 5) ft) = true) /\
  (F32.valid (F32.mul (F32.lit 5 10) ft) = true /\
   F32.leb F32.zero (F32.mul (F32.lit 5 10) ft) = true) /\
  (F32.valid (F32.mul (F32.mul ft (F32.of_Z 1)) (F32.lit 1 100)) = true /\
   F32.leb F32.zero (F32.mul (F32.mul ft (F32.of_Z 1)) (F32.lit 1 100))
     = true) /\
  (F32.valid (F32.mul (F32.mul ft (F32.of_Z 1)) (F32.lit 15 1000)) = true /\
   F32.leb F32.zero (F32.mul (F32.mul ft (F32.of_Z 1)) (F32.lit 15 1000))
     = true).
Proof.
  intros V P.
  assert (V1 : F32.valid (F32.mul ft (F32.of_Z 1)) = true)
    by (apply SumFacts.mul_valid; [exact V|reflexivity]).
  assert (P1 : F32.leb F32.zero (F32.mul ft (F32.of_Z 1)) = true)
    by (apply SumFacts.mul_nonneg_r; [reflexivity|reflexivity|exact P]).
  repeat split;
    first [ apply SumFacts.mul_valid; first [reflexivity|assumption]
          | apply SumFacts.mul_nonneg_l; first [reflexivity|assumption]
          | apply SumFacts.mul_nonneg_r; first [reflexivity|assumption] ].
Qed.

(** The water keys never act backwards, in spite of the rounding.  Over any
    run of updates whose frame times are finite and not negative: the water
    is not lower after the run if the comma key was never held, and not
    higher if the period key was never held; the wave scale is not smaller
    if the minus key was never held, and not larger if the plus key was
    never held; and neither coordinate of the scroll offset of the water is
    smaller.  The values before the run are assumed finite, the wave scale
    not negative; during the run they may overflow. *)
Theorem water_keys_never_act_backwards :
  forall (inputs : list Program.Input) (g : Program.Globals),
    Forall Program.steadyClock inputs ->
    let good x := F32.valid x = true /\ F32.is_finite x = true in
    let never key := Forall (Program.keyUp key) inputs in
    (good (height g) ->
     (never Program.Key_Comma ->
      F32.leb (height g) (height (run inputs g)) = true) /\
     (never Program.Key_Period ->
      F32.leb (height (run inputs g)) (height g) = true)) /\
    (good (scale g) -> F32.leb F32.zero (scale g) = true ->
     (never Program.Key_Minus ->
      F32.leb (scale g) (scale (run inputs g)) = true) /\
     (never Program.Key_Plus ->
      F32.leb (scale (run inputs g)) (scale g) = true)) /\
    (good (x2 (scroll g)) ->
     F32.leb (x2 (scroll g)) (x2 (scroll (run inputs g))) = true) /\
    (good (y2 (scroll g)) ->
     F32.leb (y2 (scroll g)) (y2 (scroll (run inputs g))) = true).
Proof.
  intros inputs g HC good never. unfold good, never.
  assert (N : forall x, F32.is_finite x = true -> F32.is_nan x = false)
    by (intros x; destruct x; intros; try discriminate; reflexivity).
  assert (Both : forall ok,
            Forall ok inputs ->
            Forall (fun i => Program.steadyClock i /\ ok i) inputs).
  { intros ok H. apply Forall_forall. intros i Hi.
    split; [exact (proj1 (Forall_forall _ _) HC i Hi)
           |exact (proj1 (Forall_forall _ _) H i Hi)]. }
  split; [|split; [|split]].
  - (* the height of the water *)
    intros [V F]. split; intros K.
    + apply (runUpdates_invariant
               (fun g' => F32.valid (height g') = true /\
                          F32.leb (height g) (height g') = true)
               (fun i => Program.steadyClock i /\
                         Program.keyUp Program.Key_Comma i));
        [|apply Both; exact K|split; [exact V|apply SumFacts.leb_refl, N, F]].
      intros held hit ft g1 [(Vt & Ft & Pt) Ku] [V1 L1].
      unfold Program.keyUp in Ku. cbn [fst snd] in Ku, Vt, Ft, Pt.
      destruct (UpdateScene_water held hit ft g1) as (E & _).
      cbv zeta in E. rewrite E, Ku. clear E.
      destruct (steady_steps ft Vt Pt) as ((V5 & P5) & _).
      destruct (held Program.Key_Period); [|split; assumption].
      split; [apply SumFacts.add_valid; assumption|].
      apply (SumFacts.leb_trans _ _ _ L1).
      apply (SumFacts.add_nonneg_ge_above (height g)); assumption.
    + apply (runUpdates_invariant
               (fun g' => F32.valid (height g') = true /\
                          F32.leb (height g') (height g) = true)
               (fun i => Program.steadyClock i /\
                         Program.keyUp Program.Key_Period i));
        [|apply Both; exact K|split; [exact V|apply SumFacts.leb_refl, N, F]].
      intros held hit ft g1 [(Vt & Ft & Pt) Ku] [V1 L1].
      unfold Program.keyUp in Ku. cbn [fst snd] in Ku, Vt, Ft, Pt.
      destruct (UpdateScene_water held hit ft g1) as (E & _).
      cbv zeta in E. rewrite E, Ku. clear E.
      destruct (steady_steps ft Vt Pt) as ((V5 & P5) & _).
      destruct (held Program.Key_Comma); [|split; assumption].
      split; [apply SumFacts.sub_valid; assumption|].
      apply (fun H => SumFacts.leb_trans _ _ _ H L1).
      apply (SumFacts.sub_nonneg_le_below (height g)); assumption.
  - (* the wave scale *)
    intros [V F] P0. split; intros K.
    + apply (runUpdates_invariant
               (fun g' => F32.valid (scale g') = true /\
                          F32.leb (scale g) (scale g') = true)
               (fun i => Program.steadyClock i /\
                         Program.keyUp Program.Key_Minus i));
        [|apply Both; exact K|split; [exact V|apply SumFacts.leb_refl, N, F]].
      intros held hit ft g1 [(Vt & Ft & Pt) Ku] [V1 L1].
      unfold Program.keyUp in Ku. cbn [fst snd] in Ku, Vt, Ft, Pt.
      destruct (UpdateScene_water held hit ft g1) as (_ & E & _).
      cbv zeta in E. rewrite E. clear E.
      unfold Scene.updateWaveScale. cbn [Program.waterKey]. rewrite Ku.
      change (F32.of_Z 0) with F32.zero.
      destruct (steady_steps ft Vt Pt) as (_ & (Vh & Ph) & _).
      assert (P1 : F32.leb F32.zero (scale g1) = true)
        by exact (SumFacts.leb_trans _ _ _ P0 L1).
      destruct (held Program.Key_Plus).
      * rewrite (RoundingFacts.leb_zero_not_ltb _
                   (SumFacts.add_nonneg _ _ V1 Vh P1 Ph)).
        split; [apply SumFacts.add_valid; assumption|].
        apply (SumFacts.leb_trans _ _ _ L1).
        apply (SumFacts.add_nonneg_ge_above (scale g)); assumption.
      * rewrite (RoundingFacts.leb_zero_not_ltb _ P1). split; assumption.
    + refine (proj1 (proj2 (runUpdates_invariant
               (fun g' => F32.valid (scale g') = true /\
                          F32.leb (scale g') (scale g) = true /\
                          F32.leb F32.zero (scale g') = true)
               (fun i => Program.steadyClock i /\
                         Program.keyUp Program.Key_Plus i)
               _ inputs g (Both _ K)
               (conj V (conj (SumFacts.leb_refl _ (N _ F)) P0))))).
      intros held hit ft g1 [(Vt & Ft & Pt) Ku] (V1 & L1 & P1).
      unfold Program.keyUp in Ku. cbn [fst snd] in Ku, Vt, Ft, Pt.
      destruct (UpdateScene_water held hit ft g1) as (_ & E & _).
      cbv zeta in E. rewrite E. clear E.
      unfold Scene.updateWaveScale. cbn [Program.waterKey]. rewrite Ku.
      change (F32.of_Z 0) with F32.zero.
      destruct (steady_steps ft Vt Pt) as (_ & (Vh & Ph) & _).
      destruct (held Program.Key_Minus).
      * assert (Lv := SumFacts.sub_nonneg_le_below (scale g) (scale g1) _
                        F L1 V1 Vh Ph).
        destruct (F32.ltb (F32.sub _ _) _) eqn:C.
        -- split; [reflexivity|]. split; [exact P0|reflexivity].
        -- split; [apply SumFacts.sub_valid; assumption|].
           split; [exact (SumFacts.leb_trans _ _ _ Lv L1)|].
           apply SumFacts.not_ltb_zero_leb; [|exact C].
           exact (SumFacts.leb_not_nan_l _ _ Lv).
      * rewrite (RoundingFacts.leb_zero_not_ltb _ P1).
        split; [|split]; assumption.
  - (* the scroll offset, first coordinate *)
    intros [V F].
    apply (runUpdates_invariant
             (fun g' => F32.valid (x2 (scroll g')) = true /\
                        F32.leb (x2 (scroll g)) (x2 (scroll g')) = true)
             Program.steadyClock);
      [|exact HC|split; [exact V|apply SumFacts.leb_refl, N, F]].
    intros held hit ft g1 (Vt & Ft & Pt) [V1 L1]. cbn [fst snd] in Vt, Ft, Pt.
    destruct (UpdateScene_water held hit ft g1) as (_ & _ & E).
    cbv zeta in E. rewrite E. clear E.
    cbn [Vec.add2 Vec.scale2l x2 y2].
    destruct (steady_steps ft Vt Pt) as (_ & _ & (Vs & Ps) & _).
    split; [apply SumFacts.add_valid; assumption|].
    apply (SumFacts.leb_trans _ _ _ L1).
    apply (SumFacts.add_nonneg_ge_above (x2 (scroll g))); assumption.
  - (* the scroll offset, second coordinate *)
    intros [V F].
    apply (runUpdates_invariant
             (fun g' => F32.valid (y2 (scroll g')) = true /\
                        F32.leb (y2 (scroll g)) (y2 (scroll g')) = true)
             Program.steadyClock);
      [|exact HC|split; [exact V|apply SumFacts.leb_refl, N, F]].
    intros held hit ft g1 (Vt & Ft & Pt) [V1 L1]. cbn [fst snd] in Vt, Ft, Pt.
    destruct (UpdateScene_water held hit ft g1) as (_ & _ & E).
    cbv zeta in E. rewrite E. clear E.
    cbn [Vec.add2 Vec.scale2l x2 y2].
    destruct (steady_steps ft Vt Pt) as (_ & _ & _ & (Vs & Ps)).
    split; [apply SumFacts.add_valid; assumption|].
    apply (SumFacts.leb_trans _ _ _ L1).
    apply (SumFacts.add_nonneg_ge_above (y2 (scroll g))); assumption.
Qed.

End WaterKeys.

(** Two updates of a sixtieth of a second each with only the period key
    held: the water of the start scene, at height 10, is not lower
    afterwards. *)
Lemma water_keys_never_act_backwards_witness :
  let held k :=
    match k with Program.Key_Period => true | _ => false end in
  let inputs :=
    [ (held, Program.noKey, F32.lit 1 60);
      (held, Program.noKey, F32.lit 1 60) ] in
  Forall Program.steadyClock inputs /\
  F32.leb (F32.of_Z 10)
    (y3 (Scene.gWaterPosition
           (Program.world
              (fst (Program.runUpdates Program.fixedCamera
                      (fun x => x) (fun x => x) inputs
                      Program.startGlobals))))) = true.
Proof.
  cbv zeta.
  assert (H : Forall Program.steadyClock
    [ (fun k => match k with Program.Key_Period => true | _ => false end,
       Program.noKey, F32.lit 1 60);
      (fun k => match k with Program.Key_Period => true | _ => false end,
       Program.noKey, F32.lit 1 60) ]).
  { repeat constructor. }
  split; [exact H|].
  refine (proj1 (proj1 (water_keys_never_act_backwards
                          Program.fixedCamera (fun x => x) (fun x => x)
                          _ Program.startGlobals H)
                       (conj eq_refl eq_refl)) _).
  repeat constructor.
Defined.

(* ===================================================================== *)
(** * The toggles and the orbiting light *)
(* ===================================================================== *)

Lemma xorb_flip b n : xorb (negb b) (Nat.odd n) = xorb b (Nat.odd (S n)).
Proof.
  rewrite Nat.odd_succ, <- Nat.negb_odd. destruct b, (Nat.odd n); reflexivity.
Qed.

Section Toggles.

Variable CameraControl :
  float -> (Program.KeyCode -> bool) -> Scene.Camera -> Scene.Camera.
Variables cos sin : float -> float.

(** One update, as far as the light and the toggles go. *)
Lemma UpdateScene_light held hit ft g :
  let g' :=
    fst (Program.UpdateScene CameraControl cos sin held hit ft g) in
  Program.go g' =
    (if hit Program.Key_0 then negb (Program.go g) else Program.go g) /\
  Program.lockFPS g' =
    (if hit Program.Key_P then negb (Program.lockFPS g)
     else Program.lockFPS g) /\
  Program.lightRotate g' =
    (if Program.go g
     then F32.sub (Program.lightRotate g)
            (F32.mul Program.gLightOrbitSpeed ft)
     else Program.lightRotate g) /\
  Program.lightPosition g' 0%nat
    = Program.orbit cos sin (Program.lightRotate g) /\
  (forall i, Program.lightPosition g' (S i) = Program.lightPosition g (S i)).
Proof.
  cbv zeta. unfold Program.UpdateScene.
  destruct (F32.ltb (F32.lit 5 10) (F32.add (Program.totalFrameTime g) ft));
    repeat split.
Qed.

(** The two toggles and the orbit of the first light over a run of updates.
    Each hit of the 0 key starts or stops the orbit and each hit of the P
    key locks or unlocks the frame rate, so after a run each flag is what it
    was exactly when its key was hit an even number of times.  The second
    light never moves.  The first light is put at height 20 on the circle of
    radius 20 about (40, -40) at the angle that was current before the last
    update: the position trails the angle by one update.  While the orbit
    is stopped the angle does not change, whatever the frame times. *)
Theorem toggles_flip_and_stopped_light_stays :
  forall (inputs : list Program.Input) (latest : Program.Input)
         (g : Program.Globals),
    let before := fst (Program.runUpdates CameraControl cos sin inputs g) in
    let g' :=
      fst (Program.runUpdates CameraControl cos sin (inputs ++ [latest]) g) in
    Program.go g' =
      xorb (Program.go g)
           (Nat.odd (Program.hits Program.Key_0 (inputs ++ [latest]))) /\
    Program.lockFPS g' =
      xorb (Program.lockFPS g)
           (Nat.odd (Program.hits Program.Key_P (inputs ++ [latest]))) /\
    (forall i, Program.lightPosition g' (S i)
               = Program.lightPosition g (S i)) /\
    Program.lightPosition g' 0%nat
      = Program.orbit cos sin (Program.lightRotate before) /\
    y3 (Program.lightPosition g' 0%nat) = F32.of_Z 20 /\
    (Program.go g = false ->
     Program.hits Program.Key_0 (inputs ++ [latest]) = 0%nat ->
     Program.lightRotate g' = Program.lightRotate g /\
     Program.lightPosition g' 0%nat
       = Program.orbit cos sin (Program.lightRotate g)).
Proof.
  intros inputs latest. cbv zeta.
  induction inputs as [|[[held hit] ft] rest IH]; intros g.
  - destruct latest as [[held hit] ft].
    cbn [app Program.runUpdates fst].
    destruct (UpdateScene_light held hit ft g) as (E1 & E2 & E3 & E4 & E5).
    cbv zeta in E1, E2, E3, E4, E5.
    destruct (Program.UpdateScene CameraControl cos sin held hit ft g)
      as [g1 cs1].
    cbn [fst] in *. unfold Program.hits. cbn [filter fst snd].
    rewrite E1, E2, E4.
    split; [destruct (hit Program.Key_0), (Program.go g); reflexivity|].
    split; [destruct (hit Program.Key_P), (Program.lockFPS g); reflexivity|].
    split; [exact E5|]. split; [reflexivity|]. split; [reflexivity|].
    intros G H. rewrite E3, G. split; reflexivity.
  - cbn [app Program.runUpdates].
    destruct (UpdateScene_light held hit ft g) as (E1 & E2 & E3 & E4 & E5).
    cbv zeta in E1, E2, E3, E4, E5.
    destruct (Program.UpdateScene CameraControl cos sin held hit ft g)
      as [g1 cs1].
    cbn [fst] in E1, E2, E3, E4, E5.
    specialize (IH g1).
    destruct (Program.runUpdates CameraControl cos sin rest g1)
      as [g2 cs2].
    destruct (Program.runUpdates CameraControl cos sin (rest ++ [latest]) g1)
      as [g3 cs3].
    cbn [fst] in IH |- *.
    destruct IH as (I1 & I2 & I3 & I4 & I5 & I6).
    unfold Program.hits in *. cbn [filter fst snd].
    rewrite I1, I2, E1, E2.
    split.
    { destruct (hit Program.Key_0); [|reflexivity].
      cbn [List.length]. apply xorb_flip. }
    split.
    { destruct (hit Program.Key_P); [|reflexivity].
      cbn [List.length]. apply xorb_flip. }
    split; [intros i; rewrite I3; apply E5|].
    split; [exact I4|]. split; [exact I5|].
    intros G H. destruct (hit Program.Key_0); [discriminate H|].
    rewrite E1, G in I6. specialize (I6 eq_refl H).
    rewrite E3, G in I6. exact I6.
Qed.

End Toggles.
